(** * Bakery inventory and sales API: ledger, read model, statistics

    A shallow embedding of the Express handlers (the server module, with its
    zod schemas) and of the PostgreSQL schema they run against (the
    migrations: tables [products] and [sales], the view [product_read_model],
    the function [get_best_sellers]).

    Conventions:
    - a [numeric(p, 2)] column is held as an integer number of hundredths;
    - an [integer] column is a [Z] and every write checks the 32-bit range;
    - a [uuid] is its 128-bit value as an [N]; PostgreSQL orders uuids
      bytewise, which is the order of these numbers;
    - a [timestamptz] is a [Z] (microseconds since the epoch);
    - the [:id] segment of a path is text that PostgreSQL reads as a uuid or
      refuses ([path_id]); an id that a schema has checked is a [uuid];
    - values the database draws itself ([gen_random_uuid()], [now()]) are
      arguments of the operation that uses them. *)

From Stdlib Require Import ZArith NArith QArith Qround List String Bool Lia.
From Stdlib Require Import Sorted Permutation.
Import ListNotations.
Local Open Scope Z_scope.

Definition uuid := N.
Definition timestamptz := Z.

(** The [:id] segment of [/products/:id]. No handler checks it: it reaches
    PostgreSQL as text, in a comparison with the [uuid] column. *)
Inductive path_id : Type :=
| uuid_text (i : uuid)               (* text that reads as the uuid [i] *)
| not_uuid (s : string).             (* any other text, such as [abc] *)

(** Outcome of a statement or of a schema: a value or an error. *)
Inductive result (E A : Type) : Type :=
| Ok (a : A)
| Err (e : E).
Arguments Ok {E A} a.
Arguments Err {E A} e.

(** ** Storage: the tables of the migrations *)

Module Products.
(** [create table public.products], with the [deleted_at] column of the
    second migration. *)
Record row : Type := mk {
  id : uuid;
  name : string;
  price : Z;                       (* numeric(12, 2), in hundredths *)
  total_stock : Z;                 (* integer *)
  image_path : option string;
  created_at : timestamptz;
  updated_at : timestamptz;
  deleted_at : option timestamptz
}.
End Products.

Module Sales.
(** [create table public.sales]. *)
Record row : Type := mk {
  id : uuid;
  product_id : uuid;
  quantity : Z;                    (* integer *)
  unit_price : Z;                  (* numeric(12, 2), in hundredths *)
  sold_at : timestamptz
}.

(** [total_amount numeric(14, 2) generated always as (quantity * unit_price)
    stored]: a function of the row, with no column of its own to write. *)
Definition total_amount (s : row) : Z := quantity s * unit_price s.
End Sales.

Record db : Type := mkDb {
  products : list Products.row;
  sales : list Sales.row
}.

Definition empty_db : db := mkDb [] [].

Module Pg.

Inductive error : Type :=
| unique_violation
| foreign_key_violation
| check_violation
| numeric_value_out_of_range
| invalid_text_representation      (* 22P02, text that is no uuid *)
| no_single_row                    (* PostgREST PGRST116 *)
| range_not_satisfiable.           (* PostgREST PGRST103, status 416 *)

Definition int4_max : Z := 2147483647.
Definition int4_min : Z := -2147483648.
Definition in_int4 (z : Z) : bool := (int4_min <=? z) && (z <=? int4_max).

(** A [numeric(p, 2)] value fits when its absolute value is below
    10^(p-2), that is below 10^p hundredths. *)
Definition numeric_12_2_bound : Z := 10 ^ 12.
Definition numeric_14_2_bound : Z := 10 ^ 14.
Definition fits (bound z : Z) : bool := Z.abs z <? bound.

(** Rounding of a decimal to scale 2, half away from zero. *)
Definition round_scale2 (q : Q) : Z :=
  if Qle_bool 0 q then Qfloor (q * (100 # 1) + (1 # 2))%Q
  else - Qfloor (- q * (100 # 1) + (1 # 2))%Q.

(** [.eq('id', id)] with the text of a path: PostgreSQL reads the text as a
    uuid when it analyses the statement, before any row is touched, and
    raises 22P02 when it is none. *)
Definition eq_id {T : Type} (id : path_id) (statement : uuid -> result error T)
  : result error T :=
  match id with
  | uuid_text i => statement i
  | not_uuid _ => Err invalid_text_representation
  end.

Definition has_product (d : db) (i : uuid) : bool :=
  existsb (fun p => N.eqb (Products.id p) i) (products d).

Definition has_sale (d : db) (i : uuid) : bool :=
  existsb (fun s => N.eqb (Sales.id s) i) (sales d).

(** [insert into products (name, price, total_stock, image_path)]: the
    value is coerced to the column type, then the checks
    [price >= 0] and [total_stock >= 0], then the primary key. *)
Definition insert_product (d : db) (new_id : uuid) (now : timestamptz)
    (name : string) (price : Q) (total_stock : Z) (image_path : option string)
  : result error db :=
  let cents := round_scale2 price in
  if negb (fits numeric_12_2_bound cents && in_int4 total_stock)
  then Err numeric_value_out_of_range
  else if negb ((0 <=? cents) && (0 <=? total_stock))
  then Err check_violation
  else if has_product d new_id
  then Err unique_violation
  else Ok (mkDb (products d ++
                   [Products.mk new_id name cents total_stock image_path
                                now now None])
                (sales d)).

(** The body of an update: only the columns present are assigned. *)
Record update_body : Type := mkBody {
  set_name : option string;
  set_price : option Q;
  set_total_stock : option Z;
  set_image_path : option string
}.

Definition assign {A : Type} (new : option A) (old : A) : A :=
  match new with Some v => v | None => old end.

(** One row after [update products set ...]; the trigger
    [set_products_updated_at] stamps [updated_at]. *)
Definition update_row (b : update_body) (now : timestamptz)
    (p : Products.row) : Products.row :=
  Products.mk (Products.id p)
    (assign (set_name b) (Products.name p))
    (assign (option_map round_scale2 (set_price b)) (Products.price p))
    (assign (set_total_stock b) (Products.total_stock p))
    (assign (option_map Some (set_image_path b)) (Products.image_path p))
    (Products.created_at p)
    now
    (Products.deleted_at p).

(** The table after the update: the rows with the key are rewritten. *)
Definition updated (i : uuid) (b : update_body) (now : timestamptz)
  (p : Products.row) : Products.row :=
  if N.eqb (Products.id p) i then update_row b now p else p.

Definition row_ok (p : Products.row) : result error unit :=
  if negb (fits numeric_12_2_bound (Products.price p)
           && in_int4 (Products.total_stock p))
  then Err numeric_value_out_of_range
  else if negb ((0 <=? Products.price p) && (0 <=? Products.total_stock p))
  then Err check_violation
  else Ok tt.

(** [update products set ... where id = i returning id], requested as a
    single object: anything but exactly one row is PGRST116 and the
    statement is rolled back. There is no condition on [deleted_at]. *)
Definition update_product (d : db) (i : uuid) (now : timestamptz)
    (b : update_body) : result error (db * uuid) :=
  match filter (fun p => N.eqb (Products.id p) i) (products d) with
  | [p] =>
      match row_ok (update_row b now p) with
      | Err e => Err e
      | Ok _ =>
          Ok (mkDb (map (updated i b now) (products d)) (sales d), i)
      end
  | _ => Err no_single_row
  end.

(** [insert into sales (product_id, quantity, unit_price) ... returning *]:
    column types (the generated [total_amount] included), the checks
    [quantity > 0] and [unit_price >= 0], the primary key, and the
    reference to [products (id)]. *)
Definition insert_sale (d : db) (new_id : uuid) (now : timestamptz)
    (product_id : uuid) (quantity : Z) (unit_price : Z)
  : result error (db * Sales.row) :=
  let s := Sales.mk new_id product_id quantity unit_price now in
  if negb (in_int4 quantity && fits numeric_12_2_bound unit_price
           && fits numeric_14_2_bound (Sales.total_amount s))
  then Err numeric_value_out_of_range
  else if negb ((0 <? quantity) && (0 <=? unit_price))
  then Err check_violation
  else if has_sale d new_id
  then Err unique_violation
  else if negb (has_product d product_id)
  then Err foreign_key_violation
  else Ok (mkDb (products d) (sales d ++ [s]), s).

End Pg.

(** ** Query operators *)

Section Query.
Context {A : Type}.

(** [order by]: rows are placed by a stable insertion in the order [le];
    rows that compare equal keep the order in which they were produced.
    Where the key of the sort is unique, as in [get_best_sellers], that
    order plays no part; a listing sorts what its scan produced (see
    [order] below). *)
Fixpoint insert_row (le : A -> A -> bool) (x : A) (l : list A) : list A :=
  match l with
  | [] => [x]
  | y :: l' => if le x y then x :: l else y :: insert_row le x l'
  end.

Definition order_by (le : A -> A -> bool) (l : list A) : list A :=
  fold_right (insert_row le) [] l.

(** [limit n]. *)
Definition limit (n : nat) (l : list A) : list A := firstn n l.

(** [offset from limit (to - from + 1)]: the rows from index [from] to
    index [to]. *)
Definition slice (from to : Z) (l : list A) : list A :=
  firstn (Z.to_nat (to - from + 1)) (skipn (Z.to_nat from) l).

(** A subquery used as a value: no row is SQL [null]. *)
Definition scalar_subquery (l : list A) : option A := hd_error l.
End Query.

(** ** Listings through the REST layer *)

Module Js.
(** [Number.MAX_SAFE_INTEGER]: up to it the arithmetic of doubles on
    integers is the arithmetic of integers. *)
Definition MAX_SAFE_INTEGER : Z := 2 ^ 53 - 1.
End Js.

(** What a listing leaves to the server that answers it, and so varies from
    one request to the next:
    - [heap]: the place at which the scan finds a row. [order by] sorts on
      its key alone, so rows that tie on the key come out as the scan
      yielded them;
    - [far]: the answer to a request whose range ends past
      [Number.MAX_SAFE_INTEGER]. There the handler's [offset] and the
      [limit] the client derives from it are rounded doubles, printed into
      the request, and what comes back is not settled here. *)
Record server (A : Type) : Type := mkServer {
  heap : A -> nat;
  far : Z -> Z -> result Pg.error (list A * option Z)
}.
Arguments mkServer {A} heap far.
Arguments heap {A} s.
Arguments far {A} s.

Section Listing.
Context {A : Type}.

(** The rows in the order of the scan. *)
Definition scan (s : server A) (l : list A) : list A :=
  order_by (fun a b => (heap s a <=? heap s b)%nat) l.

(** [.order(column)]: the sort is on the key [le] alone. *)
Definition order (s : server A) (le : A -> A -> bool) (l : list A) : list A :=
  order_by le (scan s l).

(** [.select('*', { count: 'exact' }) ... .order(...).range(from, to)] over
    the rows of [table]: the request carries [offset = from] and
    [limit = to - from + 1]. The statement runs first and may raise; then,
    the exact count being asked for, an offset greater than the count is
    refused (status 416, PGRST103), while an offset equal to the count is
    answered with no row. The answer is the page and the count. *)
Definition range (s : server A) (le : A -> A -> bool) (from to : Z)
    (table : result Pg.error (list A))
  : result Pg.error (list A * option Z) :=
  if Js.MAX_SAFE_INTEGER <? to then far s from to
  else
    match table with
    | Err e => Err e
    | Ok rows =>
        let count := Z.of_nat (List.length rows) in
        if count <? from then Err Pg.range_not_satisfiable
        else Ok (slice from to (order s le rows), Some count)
    end.

End Listing.

(** [a] is not after [b] in the order [le]. *)
Definition below {A : Type} (le : A -> A -> bool) (a b : A) : Prop :=
  le a b = true.

(** The aggregates [sum] and [max]: [null] over no row. *)
Definition sql_sum (l : list Z) : option Z :=
  match l with
  | [] => None
  | x :: l' => Some (fold_left Z.add l' x)
  end.

Definition sql_max {A : Type} (le : A -> A -> bool) (l : list A) : option A :=
  match l with
  | [] => None
  | x :: l' => Some (fold_left (fun m y => if le m y then y else m) l' x)
  end.

Definition coalesce {A : Type} (o : option A) (d : A) : A :=
  match o with Some v => v | None => d end.

(** Order of [text] values: bytewise, as under the C collation. *)
Definition text_leb : string -> string -> bool := String.leb.

(** ** The view [product_read_model] *)

Module ReadModel.
Record row : Type := mk {
  id : uuid;
  name : string;
  price : Z;
  total_stock : Z;
  image_path : option string;
  sold_quantity : Z;
  remaining_stock : Z
}.
End ReadModel.

(** The quantities of the sales joined to product [i]
    ([left join public.sales s on s.product_id = p.id]). *)
Definition joined_quantities (d : db) (i : uuid) : list Z :=
  map Sales.quantity
    (filter (fun s => N.eqb (Sales.product_id s) i) (sales d)).

(** [coalesce(sum(s.quantity), 0)], before the cast to [integer]. *)
Definition sold_sum (d : db) (i : uuid) : Z :=
  coalesce (sql_sum (joined_quantities d i)) 0.

Definition live (p : Products.row) : bool :=
  match Products.deleted_at p with None => true | Some _ => false end.

Definition read_model_row (d : db) (p : Products.row) : ReadModel.row :=
  let sold := sold_sum d (Products.id p) in
  ReadModel.mk (Products.id p) (Products.name p) (Products.price p)
               (Products.total_stock p) (Products.image_path p)
               sold (Products.total_stock p - sold).

(** The rows of the view for the products [ps]. The key of the grouping
    holds the primary key, so each product is a group of its own. The cast
    [::integer] and the integer subtraction raise when their value leaves
    the 32-bit range. *)
Definition view_rows (d : db) (ps : list Products.row)
  : result Pg.error (list ReadModel.row) :=
  let rows := map (read_model_row d) ps in
  if forallb (fun r => Pg.in_int4 (ReadModel.sold_quantity r)
                     && Pg.in_int4 (ReadModel.remaining_stock r)) rows
  then Ok rows
  else Err Pg.numeric_value_out_of_range.

(** The view after the second migration ([where p.deleted_at is null]). *)
Definition product_read_model (d : db) : result Pg.error (list ReadModel.row) :=
  view_rows d (filter live (products d)).

(** The view under [where id = i]: the condition is on a column of the
    grouping, so it selects the products before any group is computed, and
    only the rows of product [i] can raise. *)
Definition product_read_model_by_id (d : db) (i : uuid)
  : result Pg.error (list ReadModel.row) :=
  view_rows d (filter (fun p => N.eqb (Products.id p) i)
                      (filter live (products d))).

(** ** The function [get_best_sellers] *)

Module BestSellers.

(** A row of [filtered_sales]: the sale with the name and the current
    price of its product. *)
Record filtered : Type := mkFiltered {
  sale : Sales.row;
  product_name : string;
  current_price : Z
}.

Definition in_window (from_ts to_ts : option timestamptz) (s : Sales.row)
  : bool :=
  match from_ts with None => true | Some f => f <=? Sales.sold_at s end
  && match to_ts with None => true | Some t => Sales.sold_at s <=? t end.

Definition filtered_sales (d : db) (from_ts to_ts : option timestamptz)
  : list filtered :=
  flat_map
    (fun s =>
       if in_window from_ts to_ts s
       then map (fun p => mkFiltered s (Products.name p) (Products.price p))
                (filter (fun p => N.eqb (Products.id p) (Sales.product_id s))
                        (products d))
       else [])
    (sales d).

(** A row of [aggregated]. *)
Record aggregate : Type := mkAggregate {
  product_id : uuid;
  name : string;
  price : Z;
  sold_quantity : Z;
  total_revenue : Z
}.

(** The keys of [group by product_id], each once. *)
Fixpoint group_keys (l : list uuid) : list uuid :=
  match l with
  | [] => []
  | k :: l' => k :: filter (fun k' => negb (N.eqb k' k)) (group_keys l')
  end.

(** The aggregates of one group; a group has at least one row.
    [sum(quantity)] is a [bigint] and [sum(total_amount)] a [numeric]:
    neither leaves its range while the ledger sums stay within [integer]. *)
Definition aggregate_group (k : uuid) (rows : list filtered)
  : option aggregate :=
  match sql_max text_leb (map product_name rows),
        sql_max Z.leb (map current_price rows),
        sql_sum (map (fun r => Sales.quantity (sale r)) rows),
        sql_sum (map (fun r => Sales.total_amount (sale r)) rows) with
  | Some n, Some p, Some q, Some t => Some (mkAggregate k n p q t)
  | _, _, _, _ => None
  end.

Definition aggregated (fs : list filtered) : list aggregate :=
  flat_map
    (fun k =>
       match aggregate_group k
               (filter (fun r => N.eqb (Sales.product_id (sale r)) k) fs) with
       | Some a => [a]
       | None => []
       end)
    (group_keys (map (fun r => Sales.product_id (sale r)) fs)).

(** [order by sold_quantity desc, product_id]. *)
Definition by_quantity (a b : aggregate) : bool :=
  (sold_quantity b <? sold_quantity a)
  || ((sold_quantity a =? sold_quantity b)
      && N.leb (product_id a) (product_id b)).

(** [order by total_revenue desc, product_id]. *)
Definition by_revenue (a b : aggregate) : bool :=
  (total_revenue b <? total_revenue a)
  || ((total_revenue a =? total_revenue b)
      && N.leb (product_id a) (product_id b)).

Definition best_by_quantity (agg : list aggregate) : list aggregate :=
  limit 1 (order_by by_quantity agg).

Definition best_by_revenue (agg : list aggregate) : list aggregate :=
  limit 1 (order_by by_revenue agg).

(** The objects built by [json_build_object]; a member is [None] where the
    JSON has [null]. *)
Record quantity_json : Type := mkQuantityJson {
  q_productId : uuid;
  q_name : string;
  q_price : Z;
  q_soldQuantity : Z
}.

Record revenue_json : Type := mkRevenueJson {
  r_productId : uuid;
  r_name : string;
  r_price : Z;
  r_soldQuantity : Z;
  r_totalRevenue : Z
}.

Record json : Type := mkJson {
  bestByQuantity : option quantity_json;
  bestByRevenue : option revenue_json
}.

Definition quantity_object (bq : aggregate) : quantity_json :=
  mkQuantityJson (product_id bq) (name bq) (price bq) (sold_quantity bq).

Definition revenue_object (br : aggregate) : revenue_json :=
  mkRevenueJson (product_id br) (name br) (price br) (sold_quantity br)
                (total_revenue br).

Definition get_best_sellers (d : db) (from_ts to_ts : option timestamptz)
  : json :=
  let agg := aggregated (filtered_sales d from_ts to_ts) in
  mkJson (scalar_subquery (map quantity_object (best_by_quantity agg)))
         (scalar_subquery (map revenue_object (best_by_revenue agg))).

End BestSellers.

(** The sales of product [i] within the window, and their sums, as the
    specification writes them. *)
Definition window_sales (d : db) (from_ts to_ts : option timestamptz)
    (i : uuid) : list Sales.row :=
  filter (fun s => N.eqb (Sales.product_id s) i)
         (filter (BestSellers.in_window from_ts to_ts) (sales d)).

Definition window_quantity (d : db) (from_ts to_ts : option timestamptz)
    (i : uuid) : Z :=
  fold_right Z.add 0 (map Sales.quantity (window_sales d from_ts to_ts i)).

Definition window_revenue (d : db) (from_ts to_ts : option timestamptz)
    (i : uuid) : Z :=
  fold_right Z.add 0 (map Sales.total_amount (window_sales d from_ts to_ts i)).

(** ** Validation: the zod schemas *)

(** A JavaScript number: the result of [Number(...)] on a query parameter
    may be [NaN] or infinite; a number of a JSON body is finite. *)
Inductive number : Type :=
| NaN
| Infinity (negative : bool)
| Finite (q : Q).

Module Zod.

Inductive issue : Type :=
| invalid_type (path : string)       (* not a number: NaN *)
| not_integer (path : string)        (* [.int()] *)
| too_small (path : string)          (* [.min(...)], [.nonnegative()] *)
| too_big (path : string)            (* [.max(...)] *)
| custom (message : string).         (* [.refine(..., { message })] *)

(** [Number.isInteger] on a finite number. *)
Definition is_integer (q : Q) : bool := Qeq_bool q (inject_Z (Qfloor q)).

(** [z.string().min(1)]. *)
Definition string_min1 (path : string) (s : string) : result issue string :=
  match s with
  | EmptyString => Err (too_small path)
  | _ => Ok s
  end.

(** [z.number().nonnegative()] on a number of a JSON body. *)
Definition number_nonnegative (path : string) (q : Q) : result issue Q :=
  if Qle_bool 0 q then Ok q else Err (too_small path).

(** [z.number().int().min(lo)] with an optional [.max(hi)]; the checks run in
    the order they are chained. *)
Definition number_int (path : string) (lo : Z) (hi : option Z) (n : number)
  : result issue Z :=
  match n with
  | NaN => Err (invalid_type path)
  | Infinity _ => Err (not_integer path)
  | Finite q =>
      if negb (is_integer q) then Err (not_integer path)
      else if Qfloor q <? lo then Err (too_small path)
      else match hi with
           | Some h => if h <? Qfloor q then Err (too_big path) else Ok (Qfloor q)
           | None => Ok (Qfloor q)
           end
  end.

(** [.optional()]: an absent member is accepted as absent. *)
Definition optional {A B : Type} (schema : A -> result issue B) (v : option A)
  : result issue (option B) :=
  match v with
  | None => Ok None
  | Some a => match schema a with Ok b => Ok (Some b) | Err i => Err i end
  end.

(** [.default(d)]: an absent member is replaced by [d]. *)
Definition default {A B : Type} (schema : A -> result issue B) (d : B)
    (v : option A) : result issue B :=
  match v with
  | None => Ok d
  | Some a => schema a
  end.

(** The query of a paginated listing; each member is the parameter after
    [z.coerce.number()] has applied [Number] to it, [None] when the
    parameter is absent. *)
Record pagination_query : Type := mkQuery {
  q_page : option number;
  q_limit : option number
}.

Record pagination : Type := mkPagination {
  page : Z;
  limit : Z
}.

(** [paginationSchema]. *)
Definition paginationSchema (q : pagination_query) : result issue pagination :=
  match default (number_int "page" 1 None) 1 (q_page q) with
  | Err i => Err i
  | Ok p =>
      match default (number_int "limit" 1 (Some 100)) 20 (q_limit q) with
      | Err i => Err i
      | Ok l => Ok (mkPagination p l)
      end
  end.

End Zod.

(** ** The types of the API *)

Module Product.
Record t : Type := mk {
  id : uuid;
  name : string;
  price : Z;                         (* hundredths *)
  totalStock : Z;
  imagePath : option string;
  soldQuantity : Z;
  remainingStock : Z
}.
End Product.

Module Sale.
Record t : Type := mk {
  id : uuid;
  productId : uuid;
  quantity : Z;
  unitPrice : Z;                     (* hundredths *)
  totalAmount : Z;                   (* hundredths *)
  soldAt : timestamptz
}.
End Sale.

Module ProductCreateRequest.
Record t : Type := mk {
  name : string;
  price : Q;
  totalStock : Q;
  imagePath : option string
}.
End ProductCreateRequest.

Module ProductUpdateRequest.
Record t : Type := mk {
  name : option string;
  price : option Q;
  totalStock : option Q;
  imagePath : option string
}.
End ProductUpdateRequest.

Module SaleCreateRequest.
Record t : Type := mk {
  productId : uuid;
  quantity : Q
}.
End SaleCreateRequest.

Module PaginatedResponse.
Record t (T : Type) : Type := mk {
  items : list T;
  total : Z
}.
Arguments mk {T} items total.
Arguments items {T} t.
Arguments total {T} t.
End PaginatedResponse.

(** ** The handlers *)

Module Api.

(** [productCreateSchema]. *)
Definition productCreateSchema (b : ProductCreateRequest.t)
  : result Zod.issue ProductCreateRequest.t :=
  match Zod.string_min1 "name" (ProductCreateRequest.name b) with
  | Err i => Err i
  | Ok _ =>
  match Zod.number_nonnegative "price" (ProductCreateRequest.price b) with
  | Err i => Err i
  | Ok _ =>
  match Zod.number_int "totalStock" 0 None
          (Finite (ProductCreateRequest.totalStock b)) with
  | Err i => Err i
  | Ok _ =>
  match Zod.optional (Zod.string_min1 "imagePath")
          (ProductCreateRequest.imagePath b) with
  | Err i => Err i
  | Ok _ => Ok b
  end end end end.

(** [Object.keys(value).length] of a parsed update: the members present. *)
Definition present {A : Type} (o : option A) : nat :=
  match o with Some _ => 1 | None => 0 end.

Definition keys_length (b : ProductUpdateRequest.t) : nat :=
  present (ProductUpdateRequest.name b)
  + present (ProductUpdateRequest.price b)
  + present (ProductUpdateRequest.totalStock b)
  + present (ProductUpdateRequest.imagePath b).

(** [productUpdateSchema]: every member optional, then the refinement
    [Object.keys(value).length > 0]. *)
Definition productUpdateSchema (b : ProductUpdateRequest.t)
  : result Zod.issue ProductUpdateRequest.t :=
  match Zod.optional (Zod.string_min1 "name") (ProductUpdateRequest.name b) with
  | Err i => Err i
  | Ok _ =>
  match Zod.optional (Zod.number_nonnegative "price")
          (ProductUpdateRequest.price b) with
  | Err i => Err i
  | Ok _ =>
  match Zod.optional (fun q => Zod.number_int "totalStock" 0 None (Finite q))
          (ProductUpdateRequest.totalStock b) with
  | Err i => Err i
  | Ok _ =>
  match Zod.optional (Zod.string_min1 "imagePath")
          (ProductUpdateRequest.imagePath b) with
  | Err i => Err i
  | Ok _ =>
      if (0 <? keys_length b)%nat then Ok b
      else Err (Zod.custom "At least one field is required")
  end end end end.

(** [saleCreateSchema]; [productId] is a uuid by its type. *)
Definition saleCreateSchema (b : SaleCreateRequest.t)
  : result Zod.issue SaleCreateRequest.t :=
  match Zod.number_int "quantity" 1 None
          (Finite (SaleCreateRequest.quantity b)) with
  | Err i => Err i
  | Ok _ => Ok b
  end.

(** The message of an error response: a literal of the handler, the first
    issue of a failed schema, or the message of the database error. *)
Inductive message : Type :=
| Text (s : string)
| Issue (i : Zod.issue)
| Database (e : Pg.error).

(** What a handler answers: [res.status(status).json(body)],
    [sendError(res, status, error, message)], or nothing when a call outside
    any [try] throws. *)
Inductive response (A : Type) : Type :=
| json (status : Z) (body : A)
| sendError (status : Z) (error : string) (msg : message)
| thrown (e : Pg.error).
Arguments json {A} status body.
Arguments sendError {A} status error msg.
Arguments thrown {A} e.

(** [Number(row.price)] and the like: a decimal of at most fourteen digits
    goes through a double and back unchanged, so the hundredths carry over. *)
Definition toProduct (row : ReadModel.row) : Product.t :=
  Product.mk (ReadModel.id row) (ReadModel.name row) (ReadModel.price row)
             (ReadModel.total_stock row) (ReadModel.image_path row)
             (ReadModel.sold_quantity row) (ReadModel.remaining_stock row).

Definition toSale (row : Sales.row) : Sale.t :=
  Sale.mk (Sales.id row) (Sales.product_id row) (Sales.quantity row)
          (Sales.unit_price row) (Sales.total_amount row) (Sales.sold_at row).

(** [fetchProductById] on an id that is a uuid: the view filtered on
    [id], [.maybeSingle()]. *)
Definition fetchProductById (d : db) (i : uuid)
  : result Pg.error (option Product.t) :=
  match product_read_model_by_id d i with
  | Err e => Err e
  | Ok rows =>
      match rows with
      | [] => Ok None
      | [r] => Ok (Some (toProduct r))
      | _ => Err Pg.no_single_row
      end
  end.

(** [GET /products/:id]: [fetchProductById] on the text of the path, inside
    a [try]. *)
Definition get_product (d : db) (id : path_id) : response Product.t :=
  match Pg.eq_id id (fetchProductById d) with
  | Err e => sendError 500 "ServerError" (Database e)
  | Ok None => sendError 404 "NotFound" (Text "Product not found")
  | Ok (Some product) => json 200 product
  end.

(** [order('name', { ascending: true })]. *)
Definition by_name (a b : ReadModel.row) : bool :=
  text_leb (ReadModel.name a) (ReadModel.name b).

(** [GET /products]. *)
Definition get_products (d : db) (s : server ReadModel.row)
    (query : Zod.pagination_query)
  : response (PaginatedResponse.t Product.t) :=
  match Zod.paginationSchema query with
  | Err i => sendError 400 "InvalidRequest" (Issue i)
  | Ok parsed =>
      let offset := (Zod.page parsed - 1) * Zod.limit parsed in
      match range s by_name offset (offset + Zod.limit parsed - 1)
              (product_read_model d) with
      | Err e => sendError 500 "ServerError" (Database e)
      | Ok (data, count) =>
          let items := map toProduct data in
          json 200 (PaginatedResponse.mk items
                      (coalesce count (Z.of_nat (List.length items))))
      end
  end.

(** [POST /products]. ([POST /products/with-image] checks the same three
    members and runs the same insert, with the path of the stored image.) *)
Definition post_products (d : db) (new_id : uuid) (now : timestamptz)
    (body : ProductCreateRequest.t) : db * response (option Product.t) :=
  match productCreateSchema body with
  | Err i => (d, sendError 400 "InvalidRequest" (Issue i))
  | Ok payload =>
      match Pg.insert_product d new_id now
              (ProductCreateRequest.name payload)
              (ProductCreateRequest.price payload)
              (Qfloor (ProductCreateRequest.totalStock payload))
              (ProductCreateRequest.imagePath payload) with
      | Err e => (d, sendError 500 "ServerError" (Database e))
      | Ok d' =>
          match fetchProductById d' new_id with
          | Err e => (d', thrown e)
          | Ok product => (d', json 201 product)
          end
      end
  end.

(** The [updateBody] of [PATCH /products/:id]: a member of the payload that
    is not [undefined] becomes a column of the update. *)
Definition update_body_of (payload : ProductUpdateRequest.t) : Pg.update_body :=
  Pg.mkBody (ProductUpdateRequest.name payload)
            (ProductUpdateRequest.price payload)
            (option_map Qfloor (ProductUpdateRequest.totalStock payload))
            (ProductUpdateRequest.imagePath payload).

(** [PATCH /products/:id]. *)
Definition patch_products (d : db) (id : path_id) (now : timestamptz)
    (body : ProductUpdateRequest.t) : db * response (option Product.t) :=
  match productUpdateSchema body with
  | Err i => (d, sendError 400 "InvalidRequest" (Issue i))
  | Ok payload =>
      let updateBody := update_body_of payload in
      match Pg.eq_id id (fun i => Pg.update_product d i now updateBody) with
      | Err Pg.no_single_row => (d, sendError 404 "NotFound" (Text "Product not found"))
      | Err e => (d, sendError 500 "ServerError" (Database e))
      | Ok (d', data_id) =>
          match fetchProductById d' data_id with
          | Err e => (d', thrown e)
          | Ok product => (d', json 200 product)
          end
      end
  end.

(** [POST /sales], up to the first answer of the database: the schema and
    the lookup of the product. *)
Inductive lookup : Type :=
| Respond (r : response Sale.t)
| Proceed (payload : SaleCreateRequest.t) (product : Product.t).

Definition sales_lookup (d : db) (body : SaleCreateRequest.t) : lookup :=
  match saleCreateSchema body with
  | Err i => Respond (sendError 400 "InvalidRequest" (Issue i))
  | Ok payload =>
      match fetchProductById d (SaleCreateRequest.productId payload) with
      | Err e => Respond (sendError 500 "ServerError" (Database e))
      | Ok None => Respond (sendError 404 "NotFound" (Text "Product not found"))
      | Ok (Some product) => Proceed payload product
      end
  end.

(** [POST /sales], from the stock check on: the check uses the product as it
    was looked up, the insert runs on the database as it is then. *)
Definition sales_commit (d : db) (new_id : uuid) (now : timestamptz)
    (payload : SaleCreateRequest.t) (product : Product.t)
  : db * response Sale.t :=
  if Product.remainingStock product <? Qfloor (SaleCreateRequest.quantity payload)
  then (d, sendError 400 "InvalidRequest" (Text "Not enough stock"))
  else
    match Pg.insert_sale d new_id now
            (SaleCreateRequest.productId payload)
            (Qfloor (SaleCreateRequest.quantity payload))
            (Product.price product) with
    | Err e => (d, sendError 500 "ServerError" (Database e))
    | Ok (d', data) => (d', json 201 (toSale data))
    end.

(** [POST /sales] served without any other request in between. *)
Definition post_sales (d : db) (new_id : uuid) (now : timestamptz)
    (body : SaleCreateRequest.t) : db * response Sale.t :=
  match sales_lookup d body with
  | Respond r => (d, r)
  | Proceed payload product => sales_commit d new_id now payload product
  end.

(** The query of [GET /sales]: [salesQuerySchema] extends
    [paginationSchema]; [productId], [from] and [to] are a uuid and
    timestamps by their type. *)
Record sales_query : Type := mkSalesQuery {
  sq_pagination : Zod.pagination_query;
  sq_productId : option uuid;
  sq_from : option timestamptz;
  sq_to : option timestamptz
}.

Definition salesQuerySchema (q : sales_query)
  : result Zod.issue (Zod.pagination * sales_query) :=
  match Zod.paginationSchema (sq_pagination q) with
  | Err i => Err i
  | Ok parsed => Ok (parsed, q)
  end.

(** [order('sold_at', { ascending: false })]. *)
Definition by_sold_at_desc (a b : Sales.row) : bool :=
  Sales.sold_at b <=? Sales.sold_at a.

Definition sales_filter (q : sales_query) (s : Sales.row) : bool :=
  match sq_productId q with
  | Some i => N.eqb (Sales.product_id s) i
  | None => true
  end
  && match sq_from q with Some f => f <=? Sales.sold_at s | None => true end
  && match sq_to q with Some t => Sales.sold_at s <=? t | None => true end.

(** [GET /sales]. *)
Definition get_sales (d : db) (s : server Sales.row) (query : sales_query)
  : response (PaginatedResponse.t Sale.t) :=
  match salesQuerySchema query with
  | Err i => sendError 400 "InvalidRequest" (Issue i)
  | Ok (parsed, q) =>
      let offset := (Zod.page parsed - 1) * Zod.limit parsed in
      let rows := filter (sales_filter q) (sales d) in
      match range s by_sold_at_desc offset (offset + Zod.limit parsed - 1)
              (Ok rows) with
      | Err e => sendError 500 "ServerError" (Database e)
      | Ok (data, count) =>
          let items := map toSale data in
          json 200 (PaginatedResponse.mk items
                      (coalesce count (Z.of_nat (List.length items))))
      end
  end.

(** [GET /stats/best-sellers]; [from] and [to] are timestamps by their
    type. The object of the function is passed on as it came; its numbers
    are held here as the database wrote them, which is what the handler
    prints for a decimal of at most fifteen digits. *)
Definition get_best_sellers (d : db) (from to : option timestamptz)
  : response BestSellers.json :=
  let data := Some (BestSellers.get_best_sellers d from to) in
  json 200 (coalesce data (BestSellers.mkJson None None)).

End Api.

(** A number that is a whole number, and its comparisons with an integer. *)
Definition whole (n : number) : Prop :=
  match n with
  | Finite q => exists z : Z, (q == inject_Z z)%Q
  | _ => False
  end.

Definition number_lt (n : number) (z : Z) : Prop :=
  match n with
  | Finite q => (q < inject_Z z)%Q
  | Infinity negative => negative = true
  | NaN => False
  end.

Definition number_gt (n : number) (z : Z) : Prop :=
  match n with
  | Finite q => (inject_Z z < q)%Q
  | Infinity negative => negative = false
  | NaN => False
  end.

(** A query with a page below 1 or not whole, or a limit outside [1, 100] or
    not whole. *)
Definition out_of_bounds (q : Zod.pagination_query) : Prop :=
  (exists n, Zod.q_page q = Some n /\ (number_lt n 1 \/ ~ whole n))
  \/ (exists n, Zod.q_limit q = Some n
                /\ (number_lt n 1 \/ number_gt n 100 \/ ~ whole n)).

(** ** The errors of the specification, as the handlers answer them *)

Definition ValidationError {A : Type} (i : Zod.issue) : Api.response A :=
  Api.sendError 400 "InvalidRequest" (Api.Issue i).

Definition NotFound {A : Type} : Api.response A :=
  Api.sendError 404 "NotFound" (Api.Text "Product not found").

Definition InsufficientStock {A : Type} : Api.response A :=
  Api.sendError 400 "InvalidRequest" (Api.Text "Not enough stock").

Definition ServerError {A : Type} (e : Pg.error) : Api.response A :=
  Api.sendError 500 "ServerError" (Api.Database e).

Definition succeeded {A : Type} (r : Api.response A) : bool :=
  match r with Api.json _ _ => true | _ => false end.

Definition insufficient {A : Type} (r : Api.response A) : bool :=
  match r with
  | Api.sendError 400 "InvalidRequest" (Api.Text "Not enough stock") => true
  | _ => false
  end.

(** ** Sequences of operations *)

(** A call of one of the three operations that write, with the values the
    database draws for it. An update names its product by a uuid: under any
    other text [PATCH /products/:id] writes nothing. *)
Inductive op : Type :=
| createProduct (new_id : uuid) (now : timestamptz)
                (body : ProductCreateRequest.t)
| updateProduct (i : uuid) (now : timestamptz) (body : ProductUpdateRequest.t)
| recordSale (new_id : uuid) (now : timestamptz) (body : SaleCreateRequest.t).

Definition apply_op (d : db) (o : op) : db :=
  match o with
  | createProduct i n b => fst (Api.post_products d i n b)
  | updateProduct i n b => fst (Api.patch_products d (uuid_text i) n b)
  | recordSale i n b => fst (Api.post_sales d i n b)
  end.

(** The operations served one after another. *)
Definition run_ops (d : db) (ops : list op) : db := fold_left apply_op ops d.

(** An update keeps the stock when the [totalStock] it supplies, if any, is
    not below what the ledger has sold of the product. *)
Definition keeps_stock (d : db) (o : op) : bool :=
  match o with
  | updateProduct i _ b =>
      match ProductUpdateRequest.totalStock b with
      | Some q => sold_sum d i <=? Qfloor q
      | None => true
      end
  | _ => true
  end.

(** The price an update would store is within [numeric(12, 2)]. *)
Definition price_fits (body : ProductUpdateRequest.t) : bool :=
  match ProductUpdateRequest.price body with
  | Some q => Pg.round_scale2 q <? Pg.numeric_12_2_bound
  | None => true
  end.

Fixpoint all_keep_stock (d : db) (ops : list op) : bool :=
  match ops with
  | [] => true
  | o :: ops' => keeps_stock d o && all_keep_stock (apply_op d o) ops'
  end.

(** No key occurs twice. *)
Fixpoint uniqueb (l : list uuid) : bool :=
  match l with
  | [] => true
  | x :: l' => negb (existsb (N.eqb x) l') && uniqueb l'
  end.

(** [POST /sales] requests, each with the id and the time the database
    draws for its row, served one after another. *)
Definition sale_request : Type := (uuid * timestamptz * SaleCreateRequest.t)%type.

Fixpoint serve (d : db) (reqs : list sale_request)
  : db * list (Api.response Sale.t) :=
  match reqs with
  | [] => (d, [])
  | (i, n, body) :: rest =>
      let (d1, r) := Api.post_sales d i n body in
      let (d', rs) := serve d1 rest in
      (d', r :: rs)
  end.

(** Requests for one unit each of product [i]. *)
Definition unit_sales (i : uuid) (stamps : list (uuid * timestamptz))
  : list sale_request :=
  map (fun s => (fst s, snd s, SaleCreateRequest.mk i (inject_Z 1))) stamps.

(** The ids are new to the ledger and differ from one another. *)
Definition fresh_ids (d : db) (stamps : list (uuid * timestamptz)) : bool :=
  forallb (fun s => negb (Pg.has_sale d (fst s))) stamps
  && uniqueb (map fst stamps).

(** ** States of the database *)

(** The quantity the ledger holds for a product, summed as the
    specification writes it. *)
Definition ledger_quantity (d : db) (i : uuid) : Z :=
  fold_right Z.add 0
    (map Sales.quantity
         (filter (fun s => N.eqb (Sales.product_id s) i) (sales d))).

Definition product_okb (p : Products.row) : bool :=
  (0 <=? Products.price p) && (Products.price p <? Pg.numeric_12_2_bound)
  && (0 <=? Products.total_stock p) && (Products.total_stock p <=? Pg.int4_max).

Definition sale_okb (d : db) (s : Sales.row) : bool :=
  (0 <? Sales.quantity s) && (Sales.quantity s <=? Pg.int4_max)
  && (0 <=? Sales.unit_price s) && (Sales.unit_price s <? Pg.numeric_12_2_bound)
  && (Sales.total_amount s <? Pg.numeric_14_2_bound)
  && Pg.has_product d (Sales.product_id s).

(** What the schema keeps true of the tables: primary keys, column types,
    checks and the foreign key; and, for the view to be computable, ledger
    sums within the range of [integer]. *)
Definition db_okb (d : db) : bool :=
  uniqueb (map Products.id (products d))
  && uniqueb (map Sales.id (sales d))
  && forallb product_okb (products d)
  && forallb (sale_okb d) (sales d)
  && forallb (fun p => sold_sum d (Products.id p) <=? Pg.int4_max) (products d).

Definition db_ok (d : db) : Prop := db_okb d = true.

(** No listed product has sold more than its stock. *)
Definition stock_okb (d : db) : bool :=
  forallb (fun p => sold_sum d (Products.id p) <=? Products.total_stock p)
          (filter live (products d)).

(** ** Requests in flight *)

Module Concurrent.

(** A [POST /sales] request between its awaits: received; product looked up
    and insert not yet run; answered. *)
Inductive task : Type :=
| Received (new_id : uuid) (now : timestamptz) (body : SaleCreateRequest.t)
| Looked_up (new_id : uuid) (now : timestamptz)
            (payload : SaleCreateRequest.t) (product : Product.t)
| Answered (r : Api.response Sale.t).

(** The next statement of a request runs on the database as it is. *)
Definition advance (d : db) (t : task) : db * task :=
  match t with
  | Received i n body =>
      match Api.sales_lookup d body with
      | Api.Respond r => (d, Answered r)
      | Api.Proceed payload product => (d, Looked_up i n payload product)
      end
  | Looked_up i n payload product =>
      let (d', r) := Api.sales_commit d i n payload product in
      (d', Answered r)
  | Answered r => (d, t)
  end.

Fixpoint replace (k : nat) (t : task) (ts : list task) : list task :=
  match ts, k with
  | [], _ => []
  | _ :: ts', O => t :: ts'
  | t0 :: ts', S k' => t0 :: replace k' t ts'
  end.

(** A schedule names, in order, the request whose next statement runs. *)
Fixpoint run (d : db) (ts : list task) (schedule : list nat)
  : db * list task :=
  match schedule with
  | [] => (d, ts)
  | k :: schedule' =>
      match nth_error ts k with
      | None => run d ts schedule'
      | Some t =>
          let (d', t') := advance d t in
          run d' (replace k t' ts) schedule'
      end
  end.

Definition receive (r : sale_request) : task :=
  match r with (i, n, body) => Received i n body end.

(** The schedule that runs both statements of a request before the next
    request starts. *)
Definition serial_from (k n : nat) : list nat :=
  flat_map (fun j => [j; j]) (seq k n).

Definition serial (n : nat) : list nat := serial_from 0 n.

Definition answered (t : task) : bool :=
  match t with Answered _ => true | _ => false end.

Definition task_succeeded (t : task) : bool :=
  match t with Answered r => succeeded r | _ => false end.

Definition task_insufficient (t : task) : bool :=
  match t with Answered r => insufficient r | _ => false end.

Definition count (f : task -> bool) (ts : list task) : Z :=
  Z.of_nat (List.length (filter f ts)).

End Concurrent.


(** ** Sample requests *)

Module Sample.

Definition croissant (price stock : Q) : ProductCreateRequest.t :=
  ProductCreateRequest.mk "Chocolate Croissant" price stock None.

Definition sale_of (i : uuid) (quantity : Z) : SaleCreateRequest.t :=
  SaleCreateRequest.mk i (inject_Z quantity).

Definition stock_to (t : Z) : ProductUpdateRequest.t :=
  ProductUpdateRequest.mk None None (Some (inject_Z t)) None.

(** One product with a stock of five at 3.25, then a sale of three. *)
Definition five_in_stock : db :=
  run_ops empty_db [createProduct 1%N 1000 (croissant (13 # 4) (5 # 1))].

Definition three_sold : db :=
  run_ops five_in_stock [recordSale 10%N 2000 (sale_of 1%N 3)].

(** The same, then the stock set to one. *)
Definition shrink : list op :=
  [createProduct 1%N 1000 (croissant (13 # 4) (5 # 1));
   recordSale 10%N 2000 (sale_of 1%N 3);
   updateProduct 1%N 3000 (stock_to 1)].

(** The same, with the stock set to four instead. *)
Definition trim : list op :=
  [createProduct 1%N 1000 (croissant (13 # 4) (5 # 1));
   recordSale 10%N 2000 (sale_of 1%N 3);
   updateProduct 1%N 3000 (stock_to 4)].

Definition price_to (q : Q) : ProductUpdateRequest.t :=
  ProductUpdateRequest.mk None (Some q) None None.

(** A sale of two in flight on [five_in_stock], looked up at 3.25; the price
    is set to 4.00 before its insert runs. *)
Definition two_in_flight : Concurrent.task :=
  snd (Concurrent.advance five_in_stock
         (Concurrent.Received 10%N 2000 (sale_of 1%N 2))).

Definition dearer : db :=
  fst (Api.patch_products five_in_stock (uuid_text 1%N) 1500
         (price_to (4 # 1))).


(** One product with a single unit in stock, and two requests for it. *)
Definition last_unit : db :=
  run_ops empty_db [createProduct 1%N 1000 (croissant (13 # 4) (1 # 1))].

Definition two_buyers : list sale_request :=
  unit_sales 1%N [(10%N, 2000); (11%N, 2001)].

(** Both requests look the product up before either inserts. *)
Definition interleaved : list nat := [0; 1; 0; 1]%nat.

(** A catalog of three products, one of them deleted, and its first page of
    two. *)
Definition catalog : db :=
  mkDb [Products.mk 1%N "Sourdough Loaf" 450 120 None 1000 1000 None;
        Products.mk 2%N "Cinnamon Roll" 300 180 None 1001 1001 (Some 5000);
        Products.mk 3%N "Almond Danish" 375 150 None 1002 1002 None]
       [Sales.mk 10%N 2%N 4 300 2000].



(** A server whose scans yield the rows in the order they are stored. *)
Definition in_place {A : Type} : server A :=
  mkServer (fun _ => 0%nat) (fun _ _ => Ok ([], None)).

(** Two products that sold four each, the one with the larger id first. *)
Definition tie : db :=
  mkDb [Products.mk 7%N "Sourdough Loaf" 450 120 None 1000 1000 None;
        Products.mk 3%N "Almond Danish" 375 150 None 1002 1002 None]
       [Sales.mk 10%N 7%N 4 450 2000;
        Sales.mk 11%N 3%N 1 375 2001;
        Sales.mk 12%N 3%N 3 375 2002].

End Sample.

(** ** The rest of the API *)

Module StatsSummary.
Record t : Type := mk {
  totalProducts : Z;
  totalStock : Z;
  totalSoldQuantity : Z;
  totalRemainingStock : Z
}.
End StatsSummary.

Module Stats.

(** The row type of [get_stats_summary]. *)
Record row : Type := mk {
  total_products : Z;                (* bigint *)
  total_stock : Z;
  total_sold_quantity : Z;
  total_remaining_stock : Z
}.







End Stats.

(** The query [?page=p&limit=l]. *)
Definition page_query (p l : Z) : Zod.pagination_query :=
  Zod.mkQuery (Some (Finite (inject_Z p))) (Some (Finite (inject_Z l))).

(** No key occurs twice. *)
Fixpoint distinct {K : Type} (eqb : K -> K -> bool) (l : list K) : bool :=
  match l with
  | [] => true
  | x :: l' => negb (existsb (eqb x) l') && distinct eqb l'
  end.

(** The items of an answer, none when it is an error. *)
Definition items_of {T : Type} (r : Api.response (PaginatedResponse.t T))
  : list T :=
  match r with
  | Api.json _ body => PaginatedResponse.items body
  | _ => []
  end.

(** ** The seed script *)

Module Seed.

(** [.replace(/\/$/, '')]: one slash at the very end is dropped. *)
Fixpoint strip_trailing_slash (s : string) : string :=
  match s with
  | EmptyString => EmptyString
  | String c EmptyString =>
      if String.eqb s "/"%string then EmptyString else s
  | String c s' => String c (strip_trailing_slash s')
  end.

(** [imageBase], from [process.env.SEED_IMAGE_BASE]. *)
Definition imageBase (env : option string) : string :=
  strip_trailing_slash (coalesce env "public"%string).

Record product : Type := mkProduct {
  name : string;
  price : Q;
  total_stock : Z;
  image_path : string
}.

Definition has (names : list string) (n : string) : bool :=
  existsb (String.eqb n) names.

(** [select name from products where name in (names)]. *)
Definition select_names (d : db) (names : list string) : list string :=
  map Products.name
      (filter (fun p => has names (Products.name p)) (products d)).

(** One [insert] of several rows: the [k]-th row takes the [k]-th id the
    database draws, and a row that is refused undoes the statement. *)
Fixpoint insert_rows (d : db) (draw : nat -> uuid) (k : nat)
    (now : timestamptz) (rows : list product) : result Pg.error db :=
  match rows with
  | [] => Ok d
  | r :: rows' =>
      match Pg.insert_product d (draw k) now (name r) (price r)
              (total_stock r) (Some (image_path r)) with
      | Err e => Err e
      | Ok d' => insert_rows d' draw (S k) now rows'
      end
  end.

(** The constant [products]. *)
Definition products (base : string) : list product :=
  [mkProduct "Sourdough Loaf" (9 # 2) 120 (base ++ "/sourdough.jpg")%string;
   mkProduct "Chocolate Croissant" (13 # 4) 200 (base ++ "/choco-croissant.jpg")%string;
   mkProduct "Almond Danish" (15 # 4) 150 (base ++ "/almond-danish.jpg")%string;
   mkProduct "Cinnamon Roll" (3 # 1) 180 (base ++ "/cinnamon-roll.jpg")%string;
   mkProduct "Blueberry Muffin" (11 # 4) 160 (base ++ "/blueberry-muffin.jpg")%string].

Inductive outcome : Type :=
| Seeded (n : nat)                   (* "Seeded n products" *)
| Skipped                            (* "Seed skipped: all products already exist" *)
| Exit1 (e : Pg.error).              (* [process.exit(1)] *)

(** [main]. *)
Definition main (d : db) (draw : nat -> uuid) (now : timestamptz)
    (env : option string) : db * outcome :=
  let products := products (imageBase env) in
  let names := map name products in
  let existingNames := select_names d names in
  let toInsert := filter (fun p => negb (has existingNames (name p))) products in
  match toInsert with
  | [] => (d, Skipped)
  | _ =>
      match insert_rows d draw 0 now toInsert with
      | Err e => (d, Exit1 e)
      | Ok d' => (d', Seeded (List.length toInsert))
      end
  end.

End Seed.

(** ** More schedules of requests in flight *)

(** All the requests look their product up, then all insert. *)
Definition lookups_first (n : nat) : list nat := seq 0 n ++ seq 0 n.

(** ** More sample data *)

Module Sample2.

(** The ids the database draws: 100, 101, ... *)
Definition draw (k : nat) : uuid := N.of_nat (100 + k).

Definition seeded : db := fst (Seed.main empty_db draw 1000 None).


Definition stamps3 : list (uuid * timestamptz) :=
  [(10%N, 2000); (11%N, 2001); (12%N, 2002)].

(** A deleted product now priced 3.50, with a sale made at 3.00. *)
Definition repriced : db :=
  mkDb [Products.mk 2%N "Cinnamon Roll" 350 180 None 1001 4000 (Some 5000)]
       [Sales.mk 10%N 2%N 4 300 2000].

End Sample2.

(** ** Shapes of requests *)

(** A payload [productCreateSchema] refuses: no name, a price below zero, a
    stock that is not a whole number or is below zero, or an image path
    given empty. *)
Definition create_invalid (b : ProductCreateRequest.t) : Prop :=
  ProductCreateRequest.name b = EmptyString
  \/ (ProductCreateRequest.price b < 0)%Q
  \/ ~ whole (Finite (ProductCreateRequest.totalStock b))
  \/ (ProductCreateRequest.totalStock b < 0)%Q
  \/ ProductCreateRequest.imagePath b = Some EmptyString.

(** What stays of a product whatever is done to it. *)
Definition identity (p : Products.row)
  : uuid * timestamptz * option timestamptz :=
  (Products.id p, Products.created_at p, Products.deleted_at p).

(** The stock an update would store is within [integer]. *)
Definition stock_fits (body : ProductUpdateRequest.t) : bool :=
  match ProductUpdateRequest.totalStock body with
  | Some q => Qfloor q <=? Pg.int4_max
  | None => true
  end.




(** A request that has looked [product] up and has yet to insert. *)
Definition look (product : Product.t) (r : sale_request) : Concurrent.task :=
  match r with (i, n, body) => Concurrent.Looked_up i n body product end.

(** The answer to the request stamped [s] for one unit of [i] at [price]. *)
Definition unit_sold (i : uuid) (price : Z) (s : uuid * timestamptz)
  : Concurrent.task :=
  Concurrent.Answered
    (Api.json 201 (Api.toSale (Sales.mk (fst s) i 1 price (snd s)))).

(** ** What the seed script stores *)

(** The names of the seed products. *)
Definition seed_names : list string :=
  map Seed.name (Seed.products EmptyString).

Definition named (d : db) (n : string) : bool :=
  existsb (fun p => String.eqb (Products.name p) n) (products d).

(** The seed products whose name no row of the table has, deleted rows
    included. *)
Definition seed_missing (d : db) (env : option string) : list Seed.product :=
  filter (fun r => negb (named d (Seed.name r)))
         (Seed.products (Seed.imageBase env)).

(** The row stored for a seed product under the [k]-th id drawn. *)
Definition seed_stored (draw : nat -> uuid) (now : timestamptz) (k : nat)
    (r : Seed.product) : Products.row :=
  Products.mk (draw k) (Seed.name r) (Pg.round_scale2 (Seed.price r))
              (Seed.total_stock r) (Some (Seed.image_path r)) now now None.

Fixpoint seed_stored_from (draw : nat -> uuid) (now : timestamptz) (k : nat)
    (rows : list Seed.product) : list Products.row :=
  match rows with
  | [] => []
  | r :: rows' =>
      seed_stored draw now k r :: seed_stored_from draw now (S k) rows'
  end.

(** The first five ids drawn are new to the table and differ from one
    another. *)
Definition fresh_draws (d : db) (draw : nat -> uuid) : bool :=
  forallb (fun k => negb (Pg.has_product d (draw k))) (seq 0 5)
  && uniqueb (map draw (seq 0 5)).

(** * Properties *)

(** The handler has answered and the tables are as they were. *)
Ltac unchanged :=
  let H := fresh "H" in intros H; injection H as <- <-; now left.

(** ** Sorting by insertion *)

Section Ordering.
Context {A : Type} (le : A -> A -> bool).
Hypothesis le_total : forall a b, le a b = true \/ le b a = true.
Hypothesis le_trans : forall a b c, le a b = true -> le b c = true -> le a c = true.

Lemma insert_row_perm (x : A) (l : list A) :
  Permutation (insert_row le x l) (x :: l).
Proof.
  induction l as [|y l IH]; simpl.
  - apply Permutation_refl.
  - destruct (le x y).
    + apply Permutation_refl.
    + apply perm_trans with (y :: x :: l).
      * now apply perm_skip.
      * apply perm_swap.
Qed.

Lemma order_by_perm (l : list A) : Permutation (order_by le l) l.
Proof.
  induction l as [|x l IH]; simpl.
  - constructor.
  - apply perm_trans with (x :: order_by le l).
    + apply insert_row_perm.
    + now apply perm_skip.
Qed.

Lemma order_by_length (l : list A) :
  List.length (order_by le l) = List.length l.
Proof. apply Permutation_length, order_by_perm. Qed.

Lemma order_by_In (l : list A) (x : A) : In x (order_by le l) <-> In x l.
Proof.
  split; apply Permutation_in.
  - apply order_by_perm.
  - apply Permutation_sym, order_by_perm.
Qed.

Lemma insert_row_sorted (x : A) (l : list A) :
  StronglySorted (below le) l -> StronglySorted (below le) (insert_row le x l).
Proof.
  induction 1 as [|y l Hs IH Hall]; simpl.
  - repeat constructor.
  - destruct (le x y) eqn:Hxy.
    + constructor.
      * now constructor.
      * constructor; [exact Hxy|].
        eapply Forall_impl; [|exact Hall].
        intros z Hz. unfold below in *. eauto.
    + constructor; [exact IH|].
      assert (Hyx : le y x = true)
        by (destruct (le_total x y) as [H|H]; [congruence|exact H]).
      rewrite Forall_forall. intros z Hz.
      apply (Permutation_in _ (insert_row_perm x l)) in Hz.
      destruct Hz as [<-|Hz]; [exact Hyx|].
      rewrite Forall_forall in Hall. now apply Hall.
Qed.

Lemma order_by_sorted (l : list A) : StronglySorted (below le) (order_by le l).
Proof.
  induction l as [|x l IH]; simpl.
  - constructor.
  - now apply insert_row_sorted.
Qed.

(** The first row of a sorted table is below every row. *)
Lemma order_by_head (l : list A) (x : A) (rest : list A) :
  order_by le l = x :: rest -> forall y, In y l -> le x y = true.
Proof.
  intros Heq y Hy.
  pose proof (order_by_sorted l) as Hs. rewrite Heq in Hs.
  apply order_by_In in Hy. rewrite Heq in Hy.
  inversion Hs as [|? ? _ Hall]; subst.
  destruct Hy as [<-|Hy].
  - destruct (le_total x x); assumption.
  - rewrite Forall_forall in Hall. now apply Hall.
Qed.

Lemma order_by_nonempty (l : list A) :
  l <> [] -> exists x rest, order_by le l = x :: rest.
Proof.
  intros Hne. destruct (order_by le l) as [|x rest] eqn:E.
  - pose proof (order_by_length l) as Hlen. rewrite E in Hlen.
    destruct l; [contradiction|discriminate].
  - eauto.
Qed.

End Ordering.

(** ** Listings: order and range *)

Section Listings.
Context {A : Type} (s : server A) (le : A -> A -> bool).

Lemma order_perm (l : list A) : Permutation (order s le l) l.
Proof.
  unfold order, scan.
  eapply perm_trans; apply order_by_perm.
Qed.

Lemma order_length (l : list A) : List.length (order s le l) = List.length l.
Proof. apply Permutation_length, order_perm. Qed.

Lemma order_In (l : list A) (x : A) : In x (order s le l) <-> In x l.
Proof.
  split; apply Permutation_in.
  - apply order_perm.
  - apply Permutation_sym, order_perm.
Qed.

Lemma order_sorted (l : list A) :
  (forall a b, le a b = true \/ le b a = true) ->
  (forall a b c, le a b = true -> le b c = true -> le a c = true) ->
  StronglySorted (below le) (order s le l).
Proof. intros Htot Htrans. now apply order_by_sorted. Qed.

(** A range that ends within the safe integers and starts no further than
    the count is answered with its slice and the count. *)
Lemma range_within (from to : Z) (rows : list A) :
  to <= Js.MAX_SAFE_INTEGER -> from <= Z.of_nat (List.length rows) ->
  range s le from to (Ok rows)
  = Ok (slice from to (order s le rows), Some (Z.of_nat (List.length rows))).
Proof.
  intros Hto Hfrom. unfold range.
  destruct (Z.ltb_spec Js.MAX_SAFE_INTEGER to) as [H|_]; [lia|].
  destruct (Z.ltb_spec (Z.of_nat (List.length rows)) from) as [H|_]; [lia|].
  reflexivity.
Qed.

(** A range that starts past the count is refused. *)
Lemma range_past (from to : Z) (rows : list A) :
  to <= Js.MAX_SAFE_INTEGER -> Z.of_nat (List.length rows) < from ->
  range s le from to (Ok rows) = Err Pg.range_not_satisfiable.
Proof.
  intros Hto Hfrom. unfold range.
  destruct (Z.ltb_spec Js.MAX_SAFE_INTEGER to) as [H|_]; [lia|].
  destruct (Z.ltb_spec (Z.of_nat (List.length rows)) from) as [_|H]; [|lia].
  reflexivity.
Qed.

End Listings.

Lemma In_firstn {A : Type} (n : nat) (l : list A) (x : A) :
  In x (firstn n l) -> In x l.
Proof.
  revert l. induction n as [|n IH]; intros [|y l]; simpl; try tauto.
  intros [H|H]; [now left|right; now apply IH].
Qed.

Lemma In_skipn {A : Type} (n : nat) (l : list A) (x : A) :
  In x (skipn n l) -> In x l.
Proof.
  revert l. induction n as [|n IH]; intros [|y l]; simpl; try tauto.
  intros H. right. now apply IH.
Qed.

Lemma StronglySorted_skipn {A : Type} (R : A -> A -> Prop) (n : nat) (l : list A) :
  StronglySorted R l -> StronglySorted R (skipn n l).
Proof.
  revert l. induction n as [|n IH]; intros l Hs; simpl; [exact Hs|].
  destruct l as [|x l]; [constructor|].
  apply IH. now inversion Hs.
Qed.

Lemma StronglySorted_firstn {A : Type} (R : A -> A -> Prop) (n : nat) (l : list A) :
  StronglySorted R l -> StronglySorted R (firstn n l).
Proof.
  revert l. induction n as [|n IH]; intros l Hs; simpl; [constructor|].
  destruct l as [|x l]; [constructor|].
  inversion Hs as [|? ? Hs' Hall]; subst.
  constructor; [now apply IH|].
  rewrite Forall_forall in *. intros y Hy.
  apply Hall. eapply In_firstn. eassumption.
Qed.

Lemma StronglySorted_map {A B : Type} (R : A -> A -> Prop) (S : B -> B -> Prop)
    (f : A -> B) (l : list A) :
  (forall a b, R a b -> S (f a) (f b)) ->
  StronglySorted R l -> StronglySorted S (map f l).
Proof.
  intros Hf. induction 1 as [|x l Hs IH Hall]; simpl; constructor.
  - exact IH.
  - rewrite Forall_forall in *. intros y Hy.
    apply in_map_iff in Hy. destruct Hy as [a [<- Ha]]. auto.
Qed.

(** ** The order of text *)





(** ** Sums *)

Lemma fold_left_add (l : list Z) (a : Z) :
  fold_left Z.add l a = a + fold_right Z.add 0 l.
Proof.
  revert a. induction l as [|x l IH]; intros a; simpl.
  - lia.
  - rewrite IH. lia.
Qed.

Lemma coalesce_sql_sum (l : list Z) :
  coalesce (sql_sum l) 0 = fold_right Z.add 0 l.
Proof.
  destruct l as [|x l]; simpl; [reflexivity|].
  rewrite fold_left_add. lia.
Qed.

Lemma sold_sum_ledger (d : db) (i : uuid) : sold_sum d i = ledger_quantity d i.
Proof. unfold sold_sum, joined_quantities. apply coalesce_sql_sum. Qed.

Lemma ledger_quantity_sales (d d' : db) (i : uuid) :
  sales d = sales d' -> ledger_quantity d i = ledger_quantity d' i.
Proof. unfold ledger_quantity. now intros ->. Qed.

Lemma ledger_quantity_app (ps ps' : list Products.row) (ss : list Sales.row)
    (s : Sales.row) (i : uuid) :
  ledger_quantity (mkDb ps' (ss ++ [s])) i =
  ledger_quantity (mkDb ps ss) i
  + (if N.eqb (Sales.product_id s) i then Sales.quantity s else 0).
Proof.
  unfold ledger_quantity; simpl.
  rewrite filter_app, map_app, fold_right_app; simpl.
  generalize (map Sales.quantity
                (filter (fun s0 => N.eqb (Sales.product_id s0) i) ss)).
  intros l. destruct (N.eqb (Sales.product_id s) i); simpl;
    induction l as [|x l IH]; simpl; lia.
Qed.

Lemma ledger_quantity_nonneg (d : db) (i : uuid) :
  (forall s, In s (sales d) -> 0 < Sales.quantity s) ->
  0 <= ledger_quantity d i.
Proof.
  unfold ledger_quantity. intros H.
  induction (sales d) as [|s ss IH]; simpl; [lia|].
  assert (IH' : 0 <= fold_right Z.add 0
            (map Sales.quantity
               (filter (fun s0 => N.eqb (Sales.product_id s0) i) ss)))
    by (apply IH; intros; apply H; now right).
  destruct (N.eqb (Sales.product_id s) i); simpl; [|exact IH'].
  specialize (H s (or_introl eq_refl)). lia.
Qed.

Lemma ledger_quantity_unreferenced (d : db) (i : uuid) :
  (forall s, In s (sales d) -> Sales.product_id s <> i) ->
  ledger_quantity d i = 0.
Proof.
  unfold ledger_quantity. intros H.
  induction (sales d) as [|s ss IH]; simpl; [reflexivity|].
  destruct (N.eqb_spec (Sales.product_id s) i) as [E|E].
  - exfalso. apply (H s); [now left|exact E].
  - apply IH. intros; apply H; now right.
Qed.

(** ** Keys *)

Section Keys.
Context {A : Type} (key : A -> uuid).

Lemma existsb_key (l : list A) (i : uuid) :
  existsb (fun a => N.eqb (key a) i) l = true <->
  exists a, In a l /\ key a = i.
Proof.
  rewrite existsb_exists. split; intros [a [Ha E]]; exists a; split; auto.
  - now apply N.eqb_eq.
  - now apply N.eqb_eq.
Qed.

Lemma existsb_key_map (l : list A) (i : uuid) :
  existsb (N.eqb i) (map key l) = existsb (fun a => N.eqb (key a) i) l.
Proof.
  induction l as [|a l IH]; simpl; [reflexivity|].
  now rewrite IH, N.eqb_sym.
Qed.

Lemma filter_key_absent (l : list A) (i : uuid) :
  existsb (fun a => N.eqb (key a) i) l = false ->
  filter (fun a => N.eqb (key a) i) l = [].
Proof.
  induction l as [|a l IH]; simpl; [reflexivity|].
  destruct (N.eqb (key a) i); simpl; [discriminate|exact IH].
Qed.

(** Under a primary key, a lookup by key finds the row and nothing else. *)
Lemma filter_key_unique (l : list A) (a : A) :
  uniqueb (map key l) = true -> In a l ->
  filter (fun b => N.eqb (key b) (key a)) l = [a].
Proof.
  induction l as [|b l IH]; simpl; [tauto|].
  rewrite andb_true_iff, negb_true_iff. intros [Hb Hu] [->|Hin].
  - rewrite N.eqb_refl. f_equal. apply filter_key_absent.
    now rewrite <- existsb_key_map.
  - destruct (N.eqb_spec (key b) (key a)) as [E|E].
    + exfalso. rewrite existsb_key_map in Hb.
      assert (existsb (fun a0 => N.eqb (key a0) (key b)) l = true)
        by (apply existsb_key; exists a; auto).
      congruence.
    + now apply IH.
Qed.

Lemma filter_key_cases (l : list A) (i : uuid) :
  uniqueb (map key l) = true ->
  filter (fun b => N.eqb (key b) i) l = []
  \/ exists a, In a l /\ key a = i /\ filter (fun b => N.eqb (key b) i) l = [a].
Proof.
  intros Hu.
  destruct (existsb (fun a => N.eqb (key a) i) l) eqn:E.
  - right. apply existsb_key in E. destruct E as [a [Ha <-]].
    exists a. repeat split; auto. now apply filter_key_unique.
  - left. now apply filter_key_absent.
Qed.

End Keys.

(** ** What the schema keeps true *)

Lemma db_ok_parts (d : db) :
  db_ok d ->
  uniqueb (map Products.id (products d)) = true
  /\ uniqueb (map Sales.id (sales d)) = true
  /\ (forall p, In p (products d) -> product_okb p = true)
  /\ (forall s, In s (sales d) -> sale_okb d s = true)
  /\ (forall p, In p (products d) ->
        ledger_quantity d (Products.id p) <= Pg.int4_max).
Proof.
  unfold db_ok, db_okb. rewrite !andb_true_iff, !forallb_forall.
  intros [[[[H1 H2] H3] H4] H5]. repeat split; auto.
  intros p Hp. rewrite <- sold_sum_ledger. apply Z.leb_le. now apply H5.
Qed.

Lemma db_ok_intro (d : db) :
  uniqueb (map Products.id (products d)) = true ->
  uniqueb (map Sales.id (sales d)) = true ->
  (forall p, In p (products d) -> product_okb p = true) ->
  (forall s, In s (sales d) -> sale_okb d s = true) ->
  (forall p, In p (products d) ->
     ledger_quantity d (Products.id p) <= Pg.int4_max) ->
  db_ok d.
Proof.
  intros H1 H2 H3 H4 H5.
  unfold db_ok, db_okb. rewrite !andb_true_iff, !forallb_forall.
  repeat split; auto.
  intros p Hp. rewrite sold_sum_ledger. apply Z.leb_le. now apply H5.
Qed.

Lemma sale_okb_parts (d : db) (s : Sales.row) :
  sale_okb d s = true ->
  0 < Sales.quantity s <= Pg.int4_max
  /\ 0 <= Sales.unit_price s < Pg.numeric_12_2_bound
  /\ Sales.total_amount s < Pg.numeric_14_2_bound
  /\ Pg.has_product d (Sales.product_id s) = true.
Proof.
  unfold sale_okb. rewrite !andb_true_iff, !Z.ltb_lt, !Z.leb_le. tauto.
Qed.

Lemma product_okb_parts (p : Products.row) :
  product_okb p = true ->
  0 <= Products.price p < Pg.numeric_12_2_bound
  /\ 0 <= Products.total_stock p <= Pg.int4_max.
Proof.
  unfold product_okb. rewrite !andb_true_iff, !Z.ltb_lt, !Z.leb_le. tauto.
Qed.

Lemma db_ok_quantity_nonneg (d : db) (i : uuid) :
  db_ok d -> 0 <= ledger_quantity d i.
Proof.
  intros Hok. apply ledger_quantity_nonneg. intros s Hs.
  apply db_ok_parts in Hok. destruct Hok as (_ & _ & _ & H & _).
  apply H, sale_okb_parts in Hs. lia.
Qed.

(** In a state the schema allows, the view is computed: no cast leaves the
    range of [integer]. *)
Lemma view_rows_ok (d : db) (ps : list Products.row) :
  db_ok d -> (forall p, In p ps -> In p (products d)) ->
  view_rows d ps = Ok (map (read_model_row d) ps).
Proof.
  intros Hok Hin. unfold view_rows.
  match goal with |- (if ?c then _ else _) = _ => assert (Hc : c = true) end;
    [|now rewrite Hc].
  apply forallb_forall. intros r Hr.
  apply in_map_iff in Hr. destruct Hr as [p [<- Hp]].
  apply Hin in Hp.
  pose proof (db_ok_quantity_nonneg d (Products.id p) Hok) as Hnn.
  apply db_ok_parts in Hok. destruct Hok as (_ & _ & Hprod & _ & Hsum).
  specialize (Hsum p Hp). apply Hprod, product_okb_parts in Hp.
  unfold read_model_row; simpl. rewrite sold_sum_ledger.
  unfold Pg.in_int4, Pg.int4_min, Pg.int4_max in *.
  rewrite !andb_true_iff, !Z.leb_le. lia.
Qed.

Lemma product_read_model_ok (d : db) :
  db_ok d ->
  product_read_model d = Ok (map (read_model_row d) (filter live (products d))).
Proof.
  intros Hok. apply view_rows_ok; [exact Hok|].
  intros p Hp. now apply filter_In in Hp.
Qed.

Lemma product_read_model_by_id_ok (d : db) (i : uuid) :
  db_ok d ->
  product_read_model_by_id d i
  = Ok (map (read_model_row d)
          (filter (fun p => N.eqb (Products.id p) i)
                  (filter live (products d)))).
Proof.
  intros Hok. apply view_rows_ok; [exact Hok|].
  intros p Hp. apply filter_In in Hp. destruct Hp as [Hp _].
  now apply filter_In in Hp.
Qed.

(** ** Lookups through the view *)

Lemma filter_read_model (d : db) (i : uuid) (l : list Products.row) :
  filter (fun r => N.eqb (ReadModel.id r) i) (map (read_model_row d) l) =
  map (read_model_row d) (filter (fun p => N.eqb (Products.id p) i) l).
Proof.
  induction l as [|p l IH]; simpl; [reflexivity|].
  destruct (N.eqb (Products.id p) i); simpl; now rewrite IH.
Qed.

Lemma filter_comm {A : Type} (f g : A -> bool) (l : list A) :
  filter f (filter g l) = filter g (filter f l).
Proof.
  induction l as [|a l IH]; simpl; [reflexivity|].
  destruct (f a) eqn:Ef, (g a) eqn:Eg; simpl; rewrite ?Ef, ?Eg, IH; reflexivity.
Qed.

(** What a successful lookup returned, in any state. *)
Lemma fetchProductById_some (d : db) (i : uuid) (product : Product.t) :
  Api.fetchProductById d i = Ok (Some product) ->
  exists p, In p (products d) /\ live p = true /\ Products.id p = i
            /\ product = Api.toProduct (read_model_row d p).
Proof.
  unfold Api.fetchProductById, product_read_model_by_id, view_rows.
  destruct (forallb _ _); [|discriminate].
  destruct (filter _ (filter live (products d))) as [|p [|p' l]] eqn:E;
    simpl; try discriminate.
  intros H. injection H as <-.
  assert (Hp : In p (filter (fun p => N.eqb (Products.id p) i)
                            (filter live (products d))))
    by (rewrite E; now left).
  apply filter_In in Hp. destruct Hp as [Hp Hi].
  apply filter_In in Hp. destruct Hp as [Hp Hl].
  exists p. repeat split; auto. now apply N.eqb_eq.
Qed.

(** A listed product is found, with the row the view derives for it. *)
Lemma fetchProductById_live (d : db) (p : Products.row) :
  db_ok d -> In p (products d) -> live p = true ->
  Api.fetchProductById d (Products.id p)
  = Ok (Some (Api.toProduct (read_model_row d p))).
Proof.
  intros Hok Hp Hl. unfold Api.fetchProductById.
  rewrite (product_read_model_by_id_ok d _ Hok), filter_comm.
  apply db_ok_parts in Hok. destruct Hok as (Hu & _).
  rewrite (filter_key_unique Products.id _ p Hu Hp). simpl.
  now rewrite Hl.
Qed.

Lemma fetchProductById_cases (d : db) (i : uuid) :
  db_ok d ->
  Api.fetchProductById d i = Ok None
  \/ exists p, In p (products d) /\ live p = true /\ Products.id p = i
               /\ Api.fetchProductById d i
                  = Ok (Some (Api.toProduct (read_model_row d p))).
Proof.
  intros Hok.
  destruct (filter_key_cases Products.id (products d) i) as [E|[p (Hp & Hi & E)]].
  - apply db_ok_parts in Hok. tauto.
  - left. unfold Api.fetchProductById.
    rewrite (product_read_model_by_id_ok d _ Hok), filter_comm, E.
    reflexivity.
  - destruct (live p) eqn:Hl.
    + right. exists p. repeat split; auto. subst i.
      now apply fetchProductById_live.
    + left. unfold Api.fetchProductById.
      rewrite (product_read_model_by_id_ok d _ Hok), filter_comm, E.
      simpl. now rewrite Hl.
Qed.

(** ** What each operation does to the tables *)


Lemma Qfloor_inject_Z (z : Z) : Qfloor (inject_Z z) = z.
Proof. unfold Qfloor, inject_Z. apply Z.div_1_r. Qed.

Lemma is_integer_inject_Z (z : Z) : Zod.is_integer (inject_Z z) = true.
Proof.
  unfold Zod.is_integer. rewrite Qfloor_inject_Z. apply Qeq_bool_iff.
  reflexivity.
Qed.

(** [POST /sales] either leaves the tables as they are or appends one row,
    built from the product as the view shows it. *)
Lemma post_sales_inv (d d' : db) (new_id : uuid) (now : timestamptz)
    (body : SaleCreateRequest.t) (r : Api.response Sale.t) :
  Api.post_sales d new_id now body = (d', r) ->
  (d' = d /\ succeeded r = false)
  \/ exists p,
       let q := Qfloor (SaleCreateRequest.quantity body) in
       let row := Sales.mk new_id (Products.id p) q (Products.price p) now in
       In p (products d) /\ live p = true
       /\ Products.id p = SaleCreateRequest.productId body
       /\ d' = mkDb (products d) (sales d ++ [row])
       /\ r = Api.json 201 (Api.toSale row)
       /\ 0 < q <= Products.total_stock p - sold_sum d (Products.id p)
       /\ Pg.has_sale d new_id = false
       /\ Z.abs (Sales.total_amount row) < Pg.numeric_14_2_bound.
Proof.
  unfold Api.post_sales, Api.sales_lookup, Api.saleCreateSchema.
  destruct (Zod.number_int _ _ _ _) as [z|iss] eqn:Ev;
    [|unchanged].
  destruct (Api.fetchProductById d (SaleCreateRequest.productId body))
    as [[product|]|e] eqn:Ef;
    try (unchanged).
  apply fetchProductById_some in Ef. destruct Ef as (p & Hp & Hl & Hi & ->).
  unfold Api.sales_commit; simpl.
  destruct (_ <? _) eqn:Hlt; [unchanged|].
  unfold Pg.insert_sale.
  destruct (negb (_ && _ && _)) eqn:Hfit;
    [unchanged|].
  destruct (negb ((0 <? _) && _)) eqn:Hchk;
    [unchanged|].
  destruct (Pg.has_sale d new_id) eqn:Hs; [unchanged|].
  destruct (negb (Pg.has_product _ _)); [unchanged|].
  intros H; injection H as <- <-. right. exists p. simpl.
  apply negb_false_iff, andb_true_iff in Hchk. destruct Hchk as [Hq _].
  apply Z.ltb_lt in Hq. apply Z.ltb_ge in Hlt.
  apply negb_false_iff, andb_true_iff in Hfit. destruct Hfit as [_ Hfit].
  unfold Pg.fits in Hfit. apply Z.ltb_lt in Hfit.
  rewrite <- Hi in *. repeat split; auto; lia.
Qed.

(** [POST /products] either leaves the tables as they are or appends one
    product under a new key. *)
Lemma post_products_inv (d d' : db) (new_id : uuid) (now : timestamptz)
    (body : ProductCreateRequest.t) (r : Api.response (option Product.t)) :
  Api.post_products d new_id now body = (d', r) ->
  d' = d
  \/ exists p,
       d' = mkDb (products d ++ [p]) (sales d)
       /\ Products.id p = new_id /\ Products.deleted_at p = None
       /\ product_okb p = true /\ Pg.has_product d new_id = false.
Proof.
  unfold Api.post_products.
  destruct (Api.productCreateSchema body) as [payload|iss];
    [|unchanged].
  unfold Pg.insert_product.
  destruct (negb (_ && _)) eqn:Hfit; [unchanged|].
  destruct (negb ((0 <=? _) && _)) eqn:Hchk;
    [unchanged|].
  destruct (Pg.has_product d new_id) eqn:Hp;
    [unchanged|].
  match goal with
  | |- context [Api.fetchProductById ?x ?y] =>
      destruct (Api.fetchProductById x y)
  end; intros H; injection H as <- <-; right;
    (eexists; repeat split; simpl; auto;
     apply negb_false_iff, andb_true_iff in Hfit, Hchk;
     destruct Hfit as [Hf1 Hf2], Hchk as [Hc1 Hc2];
     unfold product_okb, Pg.fits, Pg.in_int4 in *; simpl;
     apply andb_true_iff in Hf2;
     rewrite ?Z.ltb_lt, ?Z.leb_le in *;
     rewrite !andb_true_iff, !Z.ltb_lt, !Z.leb_le; lia).
Qed.

(** [PATCH /products/:id] either leaves the tables as they are or rewrites
    the one row with the key. *)
Lemma patch_products_inv (d d' : db) (i : uuid) (now : timestamptz)
    (body : ProductUpdateRequest.t) (r : Api.response (option Product.t)) :
  Api.patch_products d (uuid_text i) now body = (d', r) ->
  (d' = d /\ succeeded r = false)
  \/ exists p,
       filter (fun p => N.eqb (Products.id p) i) (products d) = [p]
       /\ Pg.row_ok (Pg.update_row (Api.update_body_of body) now p) = Ok tt
       /\ Api.productUpdateSchema body = Ok body
       /\ d' = mkDb (map (Pg.updated i (Api.update_body_of body) now) (products d))
                    (sales d).
Proof.
  unfold Api.patch_products. cbn [Pg.eq_id].
  destruct (Api.productUpdateSchema body) as [payload|iss] eqn:Ev;
    [|unchanged].
  assert (payload = body) as ->.
  { revert Ev. unfold Api.productUpdateSchema.
    repeat match goal with
           | |- context [match ?x with _ => _ end] => destruct x; try discriminate
           end; congruence. }
  fold (Api.update_body_of body). unfold Pg.update_product.
  destruct (filter _ (products d)) as [|p [|p' l]] eqn:Ef;
    try (unchanged).
  destruct (Pg.row_ok _) as [[]|e] eqn:Er.
  - match goal with
    | |- context [Api.fetchProductById ?x ?y] =>
        destruct (Api.fetchProductById x y)
    end; intros H; injection H as <- <-; right; exists p; repeat split; auto.
  - destruct e; unchanged.
Qed.

(** ** The schema's invariant is kept by every operation *)

Lemma uniqueb_snoc (l : list uuid) (x : uuid) :
  uniqueb l = true -> existsb (N.eqb x) l = false -> uniqueb (l ++ [x]) = true.
Proof.
  induction l as [|y l IH]; simpl; [reflexivity|].
  rewrite andb_true_iff, negb_true_iff, orb_false_iff.
  intros [Hy Hu] [Hxy Hx].
  apply andb_true_iff. split; [|now apply IH].
  apply negb_true_iff. rewrite existsb_app. apply orb_false_iff. split.
  - exact Hy.
  - simpl. rewrite orb_false_r, N.eqb_sym. exact Hxy.
Qed.

Lemma unique_key_eq {A : Type} (key : A -> uuid) (l : list A) (a b : A) :
  uniqueb (map key l) = true -> In a l -> In b l -> key a = key b -> a = b.
Proof.
  intros Hu Ha Hb E.
  pose proof (filter_key_unique key l a Hu Ha) as Hf.
  assert (Hin : In b (filter (fun c => N.eqb (key c) (key a)) l))
    by (apply filter_In; split; [exact Hb|apply N.eqb_eq; congruence]).
  rewrite Hf in Hin. destruct Hin as [->|[]]. reflexivity.
Qed.

Lemma has_product_In (d : db) (p : Products.row) :
  In p (products d) -> Pg.has_product d (Products.id p) = true.
Proof.
  intros Hp. apply (existsb_key Products.id). now exists p.
Qed.

Lemma sale_okb_products (d d' : db) (s : Sales.row) :
  (forall i, Pg.has_product d i = true -> Pg.has_product d' i = true) ->
  sale_okb d s = true -> sale_okb d' s = true.
Proof.
  unfold sale_okb. rewrite !andb_true_iff. intuition.
Qed.

Lemma row_ok_product_okb (p : Products.row) :
  Pg.row_ok p = Ok tt -> product_okb p = true.
Proof.
  unfold Pg.row_ok, product_okb.
  destruct (negb (_ && _)) eqn:Hfit; [discriminate|].
  destruct (negb ((0 <=? _) && _)) eqn:Hchk; [discriminate|]. intros _.
  apply negb_false_iff, andb_true_iff in Hfit, Hchk.
  destruct Hfit as [Hf1 Hf2], Hchk as [Hc1 Hc2].
  unfold Pg.fits, Pg.in_int4 in *. apply andb_true_iff in Hf2.
  rewrite ?Z.ltb_lt, ?Z.leb_le in *.
  rewrite !andb_true_iff, !Z.ltb_lt, !Z.leb_le. lia.
Qed.

Lemma updated_id (i : uuid) (b : Pg.update_body) (now : timestamptz)
    (p : Products.row) :
  Products.id (Pg.updated i b now p) = Products.id p.
Proof. unfold Pg.updated. now destruct (N.eqb _ _). Qed.

Lemma updated_live (i : uuid) (b : Pg.update_body) (now : timestamptz)
    (p : Products.row) :
  live (Pg.updated i b now p) = live p.
Proof. unfold Pg.updated. now destruct (N.eqb _ _). Qed.

Lemma map_updated_ids (i : uuid) (b : Pg.update_body) (now : timestamptz)
    (l : list Products.row) :
  map Products.id (map (Pg.updated i b now) l) = map Products.id l.
Proof.
  rewrite map_map. apply map_ext. intros p. apply updated_id.
Qed.

Lemma post_sales_db_ok (d : db) (new_id : uuid) (now : timestamptz)
    (body : SaleCreateRequest.t) :
  db_ok d -> db_ok (fst (Api.post_sales d new_id now body)).
Proof.
  intros Hok.
  destruct (Api.post_sales d new_id now body) as [d' r] eqn:E.
  apply post_sales_inv in E. simpl.
  destruct E as [[-> _]|(p & Hp & Hl & Hi & -> & _ & Hq & Hs & Hamt)];
    [exact Hok|].
  pose proof (db_ok_quantity_nonneg d (Products.id p) Hok) as Hnn.
  pose proof (db_ok_parts d Hok) as (Hu1 & Hu2 & Hprod & Hsale & Hsum).
  rewrite sold_sum_ledger in Hq.
  pose proof (product_okb_parts p (Hprod p Hp)) as [Hprice Hstock].
  apply db_ok_intro; simpl.
  - exact Hu1.
  - rewrite map_app. simpl. apply uniqueb_snoc; [exact Hu2|].
    rewrite existsb_key_map. exact Hs.
  - exact Hprod.
  - intros s Hs'. apply in_app_or in Hs'. destruct Hs' as [Hs'|[<-|[]]].
    + apply (sale_okb_products d); auto.
    + unfold sale_okb; simpl.
      unfold Sales.total_amount in Hamt; simpl in Hamt.
      unfold Pg.has_product at 1; simpl. fold (Pg.has_product d (Products.id p)).
      rewrite (has_product_In d p Hp).
      rewrite !andb_true_iff, !Z.ltb_lt, !Z.leb_le.
      unfold Sales.total_amount; simpl. lia.
  - intros p' Hp'. rewrite (ledger_quantity_app (products d)). simpl.
    destruct (N.eqb_spec (Products.id p) (Products.id p')) as [Eid|_].
    + assert (p = p') as <- by (eapply unique_key_eq; eauto).
      replace (ledger_quantity (mkDb (products d) (sales d)) (Products.id p))
        with (ledger_quantity d (Products.id p))
        by (apply ledger_quantity_sales; reflexivity).
      lia.
    + replace (ledger_quantity (mkDb (products d) (sales d)) (Products.id p'))
        with (ledger_quantity d (Products.id p'))
        by (apply ledger_quantity_sales; reflexivity).
      specialize (Hsum p' Hp'). lia.
Qed.

Lemma post_products_db_ok (d : db) (new_id : uuid) (now : timestamptz)
    (body : ProductCreateRequest.t) :
  db_ok d -> db_ok (fst (Api.post_products d new_id now body)).
Proof.
  intros Hok.
  destruct (Api.post_products d new_id now body) as [d' r] eqn:E.
  apply post_products_inv in E. simpl.
  destruct E as [->|(p & -> & Hid & Hdel & Hpok & Hnew)]; [exact Hok|].
  pose proof (db_ok_parts d Hok) as (Hu1 & Hu2 & Hprod & Hsale & Hsum).
  assert (Hgrow : forall i, Pg.has_product d i = true ->
            Pg.has_product (mkDb (products d ++ [p]) (sales d)) i = true).
  { intros i Hi. unfold Pg.has_product in *; simpl.
    rewrite existsb_app, Hi. reflexivity. }
  apply db_ok_intro; simpl.
  - rewrite map_app. simpl. apply uniqueb_snoc; [exact Hu1|].
    rewrite existsb_key_map, Hid. exact Hnew.
  - exact Hu2.
  - intros p' Hp'. apply in_app_or in Hp'. destruct Hp' as [Hp'|[<-|[]]]; auto.
  - intros s Hs. apply (sale_okb_products d); auto.
  - intros p' Hp'.
    rewrite (ledger_quantity_sales _ d) by reflexivity.
    apply in_app_or in Hp'. destruct Hp' as [Hp'|[<-|[]]]; [now apply Hsum|].
    rewrite ledger_quantity_unreferenced; [unfold Pg.int4_max; lia|].
    intros s Hs E. apply Hsale, sale_okb_parts in Hs.
    destruct Hs as (_ & _ & _ & Hs). rewrite E, Hid in Hs. congruence.
Qed.

Lemma patch_products_db_ok (d : db) (i : uuid) (now : timestamptz)
    (body : ProductUpdateRequest.t) :
  db_ok d -> db_ok (fst (Api.patch_products d (uuid_text i) now body)).
Proof.
  intros Hok.
  destruct (Api.patch_products d (uuid_text i) now body) as [d' r] eqn:E.
  apply patch_products_inv in E. simpl.
  destruct E as [[-> _]|(p & Hf & Hrow & _ & ->)]; [exact Hok|].
  pose proof (db_ok_parts d Hok) as (Hu1 & Hu2 & Hprod & Hsale & Hsum).
  assert (Hsame : forall k,
            Pg.has_product
              (mkDb (map (Pg.updated i (Api.update_body_of body) now) (products d))
                    (sales d)) k
            = Pg.has_product d k).
  { intros k. unfold Pg.has_product; simpl.
    rewrite <- !(existsb_key_map Products.id), map_updated_ids. reflexivity. }
  apply db_ok_intro; simpl.
  - now rewrite map_updated_ids.
  - exact Hu2.
  - intros p' Hp'. apply in_map_iff in Hp'. destruct Hp' as [p0 [<- Hp0]].
    unfold Pg.updated. destruct (N.eqb (Products.id p0) i) eqn:Ei; [|auto].
    assert (Hin : In p0 (filter (fun p => N.eqb (Products.id p) i) (products d)))
      by (apply filter_In; auto).
    rewrite Hf in Hin. destruct Hin as [<-|[]].
    now apply row_ok_product_okb.
  - intros s Hs. apply (sale_okb_products d); auto.
    intros k. now rewrite Hsame.
  - intros p' Hp'. apply in_map_iff in Hp'. destruct Hp' as [p0 [<- Hp0]].
    rewrite updated_id, (ledger_quantity_sales _ d) by reflexivity.
    now apply Hsum.
Qed.

Lemma apply_op_db_ok (d : db) (o : op) : db_ok d -> db_ok (apply_op d o).
Proof.
  destruct o; simpl.
  - apply post_products_db_ok.
  - apply patch_products_db_ok.
  - apply post_sales_db_ok.
Qed.

Lemma run_ops_db_ok (ops : list op) (d : db) : db_ok d -> db_ok (run_ops d ops).
Proof.
  revert d. induction ops as [|o ops IH]; intros d Hok; simpl; [exact Hok|].
  apply IH, apply_op_db_ok, Hok.
Qed.

(** ** Stock is never oversold by operations served in turn *)

Lemma stock_okb_spec (d : db) :
  stock_okb d = true <->
  forall p, In p (products d) -> live p = true ->
            ledger_quantity d (Products.id p) <= Products.total_stock p.
Proof.
  unfold stock_okb. rewrite forallb_forall. split.
  - intros H p Hp Hl. rewrite <- sold_sum_ledger. apply Z.leb_le, H.
    apply filter_In. auto.
  - intros H p Hp. apply filter_In in Hp. destruct Hp as [Hp Hl].
    rewrite sold_sum_ledger. apply Z.leb_le. auto.
Qed.

Lemma post_sales_stock_ok (d : db) (new_id : uuid) (now : timestamptz)
    (body : SaleCreateRequest.t) :
  db_ok d -> stock_okb d = true ->
  stock_okb (fst (Api.post_sales d new_id now body)) = true.
Proof.
  intros Hok Hst.
  destruct (Api.post_sales d new_id now body) as [d' r] eqn:E.
  apply post_sales_inv in E. simpl.
  destruct E as [[-> _]|(p & Hp & Hl & Hi & -> & _ & Hq & _)]; [exact Hst|].
  pose proof (db_ok_parts d Hok) as (Hu1 & _).
  rewrite sold_sum_ledger in Hq.
  rewrite stock_okb_spec in *. simpl. intros p' Hp' Hl'.
  rewrite (ledger_quantity_app (products d)). simpl.
  replace (ledger_quantity (mkDb (products d) (sales d)) (Products.id p'))
    with (ledger_quantity d (Products.id p'))
    by (apply ledger_quantity_sales; reflexivity).
  destruct (N.eqb_spec (Products.id p) (Products.id p')) as [Eid|_].
  - assert (p = p') as <- by (eapply unique_key_eq; eauto). lia.
  - specialize (Hst p' Hp' Hl'). lia.
Qed.

Lemma post_products_stock_ok (d : db) (new_id : uuid) (now : timestamptz)
    (body : ProductCreateRequest.t) :
  db_ok d -> stock_okb d = true ->
  stock_okb (fst (Api.post_products d new_id now body)) = true.
Proof.
  intros Hok Hst.
  destruct (Api.post_products d new_id now body) as [d' r] eqn:E.
  apply post_products_inv in E. simpl.
  destruct E as [->|(p & -> & Hid & Hdel & Hpok & Hnew)]; [exact Hst|].
  pose proof (db_ok_parts d Hok) as (_ & _ & _ & Hsale & _).
  rewrite stock_okb_spec in *. simpl. intros p' Hp' Hl'.
  rewrite (ledger_quantity_sales _ d) by reflexivity.
  apply in_app_or in Hp'. destruct Hp' as [Hp'|[<-|[]]]; [now apply Hst|].
  rewrite ledger_quantity_unreferenced.
  - apply product_okb_parts in Hpok. lia.
  - intros s Hs E. apply Hsale, sale_okb_parts in Hs.
    destruct Hs as (_ & _ & _ & Hs). rewrite E, Hid in Hs. congruence.
Qed.

Lemma patch_products_stock_ok (d : db) (i : uuid) (now : timestamptz)
    (body : ProductUpdateRequest.t) :
  stock_okb d = true -> keeps_stock d (updateProduct i now body) = true ->
  stock_okb (fst (Api.patch_products d (uuid_text i) now body)) = true.
Proof.
  intros Hst Hkeep.
  destruct (Api.patch_products d (uuid_text i) now body) as [d' r] eqn:E.
  apply patch_products_inv in E. simpl.
  destruct E as [[-> _]|(p & Hf & Hrow & _ & ->)]; [exact Hst|].
  rewrite stock_okb_spec in *. simpl. intros p' Hp' Hl'.
  apply in_map_iff in Hp'. destruct Hp' as [p0 [<- Hp0]].
  rewrite updated_live in Hl'. rewrite updated_id.
  rewrite (ledger_quantity_sales _ d) by reflexivity.
  specialize (Hst p0 Hp0 Hl').
  unfold Pg.updated.
  destruct (N.eqb_spec (Products.id p0) i) as [Ei|_]; [|exact Hst].
  simpl. unfold keeps_stock in Hkeep. unfold Api.update_body_of; simpl.
  destruct (ProductUpdateRequest.totalStock body) as [q|]; simpl; [|exact Hst].
  apply Z.leb_le in Hkeep. rewrite sold_sum_ledger in Hkeep. now rewrite Ei.
Qed.

Lemma apply_op_stock_ok (d : db) (o : op) :
  db_ok d -> stock_okb d = true -> keeps_stock d o = true ->
  stock_okb (apply_op d o) = true.
Proof.
  intros Hok Hst Hkeep. destruct o; simpl.
  - now apply post_products_stock_ok.
  - now apply patch_products_stock_ok.
  - now apply post_sales_stock_ok.
Qed.

Lemma run_ops_stock_ok (ops : list op) (d : db) :
  db_ok d -> stock_okb d = true -> all_keep_stock d ops = true ->
  stock_okb (run_ops d ops) = true.
Proof.
  revert d. induction ops as [|o ops IH]; intros d Hok Hst Hall; simpl;
    [exact Hst|].
  simpl in Hall. apply andb_true_iff in Hall. destruct Hall as [Hk Hall].
  apply IH; auto using apply_op_db_ok, apply_op_stock_ok.
Qed.

(** C1, as amended. In every state reached from a state the schema allows
    and in which no listed product is oversold, through createProduct,
    recordSale and updateProduct calls served one after another, where no
    update supplies a totalStock below the quantity already sold: the view
    is computed, and for every listed product remainingStock is totalStock
    minus the sum of the quantities of the sales that reference it, and is
    not negative. *)
Theorem remaining_stock_invariant (d0 : db) (ops : list op) :
  db_ok d0 -> stock_okb d0 = true -> all_keep_stock d0 ops = true ->
  let d := run_ops d0 ops in
  product_read_model d = Ok (map (read_model_row d) (filter live (products d)))
  /\ forall p, In p (products d) -> live p = true ->
       let r := read_model_row d p in
       ReadModel.remaining_stock r
       = Products.total_stock p - ledger_quantity d (Products.id p)
       /\ ReadModel.sold_quantity r = ledger_quantity d (Products.id p)
       /\ 0 <= ReadModel.remaining_stock r.
Proof.
  intros Hok Hst Hall d.
  assert (Hok' : db_ok d) by now apply run_ops_db_ok.
  assert (Hst' : stock_okb d = true) by now apply run_ops_stock_ok.
  split; [now apply product_read_model_ok|].
  intros p Hp Hl. simpl. rewrite sold_sum_ledger.
  rewrite stock_okb_spec in Hst'. specialize (Hst' p Hp Hl).
  repeat split; lia.
Qed.

(** On a run that creates a product with five, sells three and sets the
    stock to four. *)
Lemma remaining_stock_invariant_witness :
  let d := run_ops empty_db Sample.trim in
  product_read_model d = Ok (map (read_model_row d) (filter live (products d)))
  /\ forall p, In p (products d) -> live p = true ->
       let r := read_model_row d p in
       ReadModel.remaining_stock r
       = Products.total_stock p - ledger_quantity d (Products.id p)
       /\ ReadModel.sold_quantity r = ledger_quantity d (Products.id p)
       /\ 0 <= ReadModel.remaining_stock r.
Proof.
  apply (remaining_stock_invariant empty_db Sample.trim); reflexivity.
Defined.

(** C1, as stated, fails: after a product is created with a stock of five
    and three are sold, an update of totalStock to one is accepted, and the
    view shows a remaining stock of minus two. *)
Lemma remaining_stock_negative_after_update :
  exists r,
    product_read_model (run_ops empty_db Sample.shrink) = Ok [r]
    /\ ReadModel.total_stock r = 1
    /\ ReadModel.sold_quantity r = 3
    /\ ReadModel.remaining_stock r = -2
    /\ ~ 0 <= ReadModel.remaining_stock r.
Proof.
  eexists. split; [vm_compute; reflexivity|]. simpl. repeat split; lia.
Qed.

(** ** Admission of a sale on a listed product *)

Lemma number_int_positive (path : string) (q : Z) :
  0 < q -> Zod.number_int path 1 None (Finite (inject_Z q)) = Ok q.
Proof.
  intros Hq. unfold Zod.number_int.
  rewrite is_integer_inject_Z, Qfloor_inject_Z. simpl.
  destruct (q <? 1) eqn:E; [apply Z.ltb_lt in E; lia|reflexivity].
Qed.

(** The whole of [POST /sales] for a listed product and a positive whole
    quantity, in a state the schema allows. *)
Lemma post_sales_listed (d : db) (p : Products.row) (q : Z)
    (new_id : uuid) (now : timestamptz) :
  db_ok d -> In p (products d) -> live p = true -> 0 < q ->
  Api.post_sales d new_id now (SaleCreateRequest.mk (Products.id p) (inject_Z q))
  = if Products.total_stock p - ledger_quantity d (Products.id p) <? q
    then (d, InsufficientStock)
    else if negb (q * Products.price p <? Pg.numeric_14_2_bound)
    then (d, ServerError Pg.numeric_value_out_of_range)
    else if Pg.has_sale d new_id
    then (d, ServerError Pg.unique_violation)
    else let row := Sales.mk new_id (Products.id p) q (Products.price p) now in
         (mkDb (products d) (sales d ++ [row]), Api.json 201 (Api.toSale row)).
Proof.
  intros Hok Hp Hl Hq.
  unfold Api.post_sales, Api.sales_lookup, Api.saleCreateSchema.
  cbn [SaleCreateRequest.quantity SaleCreateRequest.productId].
  rewrite (number_int_positive _ q Hq).
  cbn [SaleCreateRequest.quantity SaleCreateRequest.productId].
  rewrite (fetchProductById_live d p Hok Hp Hl).
  unfold Api.sales_commit.
  cbn [Api.toProduct Product.remainingStock Product.price read_model_row
       ReadModel.remaining_stock ReadModel.price ReadModel.total_stock
       SaleCreateRequest.quantity SaleCreateRequest.productId].
  rewrite !Qfloor_inject_Z, sold_sum_ledger.
  destruct (_ <? q) eqn:Hrem; [reflexivity|].
  apply Z.ltb_ge in Hrem.
  pose proof (db_ok_quantity_nonneg d (Products.id p) Hok) as Hnn.
  pose proof (db_ok_parts d Hok) as (_ & _ & Hprod & _).
  pose proof (product_okb_parts p (Hprod p Hp)) as [Hprice Hstock].
  unfold Pg.insert_sale, Sales.total_amount. simpl.
  assert (Hint : Pg.in_int4 q = true).
  { unfold Pg.in_int4, Pg.int4_min, Pg.int4_max in *.
    rewrite andb_true_iff, !Z.leb_le. lia. }
  assert (Hfit : Pg.fits Pg.numeric_12_2_bound (Products.price p) = true).
  { unfold Pg.fits. apply Z.ltb_lt. lia. }
  assert (Habs : Pg.fits Pg.numeric_14_2_bound (q * Products.price p)
                 = (q * Products.price p <? Pg.numeric_14_2_bound)).
  { unfold Pg.fits. rewrite Z.abs_eq by nia. reflexivity. }
  rewrite Hint, Hfit, Habs. simpl.
  destruct (q * Products.price p <? Pg.numeric_14_2_bound); simpl;
    [|reflexivity].
  assert (Hchk : (0 <? q) && (0 <=? Products.price p) = true).
  { rewrite andb_true_iff, Z.ltb_lt, Z.leb_le. lia. }
  rewrite Hchk. simpl.
  destruct (Pg.has_sale d new_id); [reflexivity|].
  now rewrite (has_product_In d p Hp).
Qed.

Lemma has_sale_snoc (d : db) (s : Sales.row) (i : uuid) :
  Pg.has_sale (mkDb (products d) (sales d ++ [s])) i
  = Pg.has_sale d i || N.eqb (Sales.id s) i.
Proof.
  unfold Pg.has_sale. simpl. rewrite existsb_app. simpl.
  now rewrite orb_false_r.
Qed.

Lemma post_sales_admitted (d : db) (p : Products.row) (q : Z)
    (new_id : uuid) (now : timestamptz) :
  db_ok d -> In p (products d) -> live p = true -> 0 < q ->
  q <= Products.total_stock p - ledger_quantity d (Products.id p) ->
  q * Products.price p < Pg.numeric_14_2_bound ->
  Pg.has_sale d new_id = false ->
  let row := Sales.mk new_id (Products.id p) q (Products.price p) now in
  let d1 := mkDb (products d) (sales d ++ [row]) in
  Api.post_sales d new_id now (SaleCreateRequest.mk (Products.id p) (inject_Z q))
  = (d1, Api.json 201 (Api.toSale row))
  /\ db_ok d1
  /\ ledger_quantity d1 (Products.id p) = ledger_quantity d (Products.id p) + q
  /\ forall j, Pg.has_sale d1 j = Pg.has_sale d j || N.eqb new_id j.
Proof.
  intros Hok Hp Hl Hq Hrem Hamt Hnew row d1.
  assert (E : Api.post_sales d new_id now
                (SaleCreateRequest.mk (Products.id p) (inject_Z q))
              = (d1, Api.json 201 (Api.toSale row))).
  { rewrite (post_sales_listed d p q new_id now Hok Hp Hl Hq).
    apply Z.ltb_ge in Hrem. apply Z.ltb_lt in Hamt.
    now rewrite Hrem, Hamt, Hnew. }
  split; [exact E|]. split; [|split].
  - pose proof (post_sales_db_ok d new_id now
                  (SaleCreateRequest.mk (Products.id p) (inject_Z q)) Hok) as H.
    now rewrite E in H.
  - unfold d1. rewrite (ledger_quantity_app (products d)). simpl.
    rewrite N.eqb_refl.
    now rewrite (ledger_quantity_sales (mkDb (products d) (sales d)) d).
  - intros j. unfold d1. apply has_sale_snoc.
Qed.

Lemma post_sales_rejected (d : db) (p : Products.row) (q : Z)
    (new_id : uuid) (now : timestamptz) :
  db_ok d -> In p (products d) -> live p = true -> 0 < q ->
  Products.total_stock p - ledger_quantity d (Products.id p) < q ->
  Api.post_sales d new_id now (SaleCreateRequest.mk (Products.id p) (inject_Z q))
  = (d, InsufficientStock).
Proof.
  intros Hok Hp Hl Hq Hrem.
  rewrite (post_sales_listed d p q new_id now Hok Hp Hl Hq).
  apply Z.ltb_lt in Hrem. now rewrite Hrem.
Qed.

Lemma remaining_stock_row (d : db) (p : Products.row) :
  ReadModel.remaining_stock (read_model_row d p)
  = Products.total_stock p - ledger_quantity d (Products.id p).
Proof. simpl. now rewrite sold_sum_ledger. Qed.




(** ** Requests served in turn and requests in flight *)

Lemma serve_unit_sales (stamps : list (uuid * timestamptz)) :
  forall (d : db) (p : Products.row),
    db_ok d -> In p (products d) -> live p = true ->
    0 <= Products.total_stock p - ledger_quantity d (Products.id p) ->
    fresh_ids d stamps = true ->
    let out := serve d (unit_sales (Products.id p) stamps) in
    let n := Z.of_nat (List.length stamps) in
    let left := Products.total_stock p - ledger_quantity d (Products.id p) in
    Z.of_nat (List.length (filter succeeded (snd out))) = Z.min n left
    /\ Z.of_nat (List.length (filter insufficient (snd out))) = n - Z.min n left
    /\ List.length (snd out) = List.length stamps
    /\ db_ok (fst out)
    /\ products (fst out) = products d
    /\ ledger_quantity (fst out) (Products.id p)
       = ledger_quantity d (Products.id p) + Z.min n left.
Proof.
  induction stamps as [|[i t] rest IH]; intros d p Hok Hp Hl Hleft Hfresh.
  - simpl. repeat split; auto; lia.
  - unfold fresh_ids in Hfresh. simpl in Hfresh.
    rewrite !andb_true_iff, !negb_true_iff in Hfresh.
    destruct Hfresh as [[Hi Hrest] [Hirest Hu]].
    pose proof (db_ok_parts d Hok) as (_ & _ & Hprod & _).
    pose proof (product_okb_parts p (Hprod p Hp)) as [Hprice _].
    cbn [unit_sales map serve fst snd].
    fold (unit_sales (Products.id p) rest).
    destruct (Z_lt_le_dec
                (Products.total_stock p - ledger_quantity d (Products.id p)) 1)
      as [Hnone|Hsome].
    + rewrite (post_sales_rejected d p 1 i t Hok Hp Hl) by lia.
      assert (Hf : fresh_ids d rest = true)
        by (unfold fresh_ids; now rewrite Hrest, Hu).
      specialize (IH d p Hok Hp Hl Hleft Hf). cbv zeta in IH.
      destruct (serve d (unit_sales (Products.id p) rest)) as [d' rs].
      cbn [fst snd] in *. simpl filter. simpl List.length.
      destruct IH as (I1 & I2 & I3 & I4 & I5 & I6).
      repeat split; auto; lia.
    + pose proof (post_sales_admitted d p 1 i t Hok Hp Hl) as A.
      cbv zeta in A.
      destruct A as (E & Hok1 & L1 & S1); try lia; auto.
      { unfold Pg.numeric_14_2_bound, Pg.numeric_12_2_bound in *. lia. }
      rewrite E.
      remember (mkDb (products d)
                  (sales d ++ [Sales.mk i (Products.id p) 1
                                        (Products.price p) t])) as d1 eqn:Ed1.
      assert (Hp1 : In p (products d1)) by (rewrite Ed1; exact Hp).
      assert (Hf : fresh_ids d1 rest = true).
      { unfold fresh_ids. rewrite Hu, andb_true_r.
        apply forallb_forall. intros s Hs.
        rewrite forallb_forall in Hrest. specialize (Hrest s Hs).
        apply negb_true_iff in Hrest. rewrite S1, Hrest. simpl.
        apply negb_true_iff, N.eqb_neq. intros ->.
        assert (existsb (N.eqb (fst s)) (map fst rest) = true).
        { apply existsb_exists. exists (fst s). split.
          - now apply in_map.
          - apply N.eqb_refl. }
        congruence. }
      assert (Hleft1 : 0 <= Products.total_stock p
                            - ledger_quantity d1 (Products.id p)) by lia.
      specialize (IH d1 p Hok1 Hp1 Hl Hleft1 Hf). cbv zeta in IH.
      destruct (serve d1 (unit_sales (Products.id p) rest)) as [d' rs].
      cbn [fst snd] in *. simpl filter. simpl List.length.
      destruct IH as (I1 & I2 & I3 & I4 & I5 & I6).
      rewrite I5, I6, L1. rewrite L1 in I1, I2.
      assert (Hprods : products d1 = products d) by (rewrite Ed1; reflexivity).
      repeat split; auto; lia.
Qed.

Lemma nth_error_middle {A : Type} (l1 l2 : list A) (a : A) :
  nth_error (l1 ++ a :: l2) (List.length l1) = Some a.
Proof. induction l1 as [|x l1 IH]; simpl; auto. Qed.

Lemma replace_middle (l1 l2 : list Concurrent.task) (a b : Concurrent.task) :
  Concurrent.replace (List.length l1) b (l1 ++ a :: l2) = l1 ++ b :: l2.
Proof. induction l1 as [|x l1 IH]; simpl; [reflexivity|now rewrite IH]. Qed.

(** Two statements of one request with nothing in between are the handler
    served alone. *)
Lemma advance_twice (d : db) (i : uuid) (n : timestamptz)
    (body : SaleCreateRequest.t) :
  let (d1, t1) := Concurrent.advance d (Concurrent.Received i n body) in
  Concurrent.advance d1 t1
  = (fst (Api.post_sales d i n body),
     Concurrent.Answered (snd (Api.post_sales d i n body))).
Proof.
  unfold Api.post_sales. simpl.
  destruct (Api.sales_lookup d body) as [r|payload product]; simpl.
  - reflexivity.
  - now destruct (Api.sales_commit d i n payload product).
Qed.

Lemma run_serial_from (reqs : list sale_request) :
  forall (d : db) (done : list Concurrent.task),
    Concurrent.run d (done ++ map Concurrent.receive reqs)
      (Concurrent.serial_from (List.length done) (List.length reqs))
    = (fst (serve d reqs), done ++ map Concurrent.Answered (snd (serve d reqs))).
Proof.
  induction reqs as [|[[i n] body] rest IH]; intros d done.
  - simpl. reflexivity.
  - cbn [List.length Concurrent.serial_from seq flat_map app map
         Concurrent.receive Concurrent.run].
    rewrite nth_error_middle.
    pose proof (advance_twice d i n body) as H2.
    destruct (Concurrent.advance d (Concurrent.Received i n body)) as [d1 t1].
    rewrite replace_middle, nth_error_middle, H2, replace_middle.
    specialize (IH (fst (Api.post_sales d i n body))
                   (done ++ [Concurrent.Answered
                               (snd (Api.post_sales d i n body))])).
    rewrite <- app_assoc, length_app in IH. simpl in IH.
    rewrite Nat.add_1_r in IH.
    fold (Concurrent.serial_from (S (List.length done)) (List.length rest)).
    rewrite IH. cbn [serve].
    destruct (Api.post_sales d i n body) as [d2 r]. cbn [fst snd].
    destruct (serve d2 rest) as [d' rs]. cbn [fst snd map].
    rewrite <- app_assoc. reflexivity.
Qed.

Lemma run_serial (d : db) (reqs : list sale_request) :
  Concurrent.run d (map Concurrent.receive reqs)
    (Concurrent.serial (List.length reqs))
  = (fst (serve d reqs), map Concurrent.Answered (snd (serve d reqs))).
Proof. apply (run_serial_from reqs d []). Qed.

Lemma count_answered (f : forall A : Type, Api.response A -> bool)
    (g : Concurrent.task -> bool) (rs : list (Api.response Sale.t)) :
  (forall r, g (Concurrent.Answered r) = f Sale.t r) ->
  Concurrent.count g (map Concurrent.Answered rs)
  = Z.of_nat (List.length (filter (f Sale.t) rs)).
Proof.
  intros Hg. unfold Concurrent.count. f_equal.
  induction rs as [|r rs IH]; simpl; [reflexivity|].
  rewrite Hg. destruct (f Sale.t r); simpl; now rewrite IH.
Qed.

Lemma forallb_answered (rs : list (Api.response Sale.t)) :
  forallb Concurrent.answered (map Concurrent.Answered rs) = true.
Proof. induction rs as [|r rs IH]; simpl; auto. Qed.

(** C3, as amended. For a listed product with totalStock K and nothing sold,
    N recordSale calls for one unit each, every call running its stock check
    and its insert before the next call starts: exactly min(N, K) succeed,
    the other N - min(N, K) are answered InsufficientStock, and the
    remainingStock is max(K - N, 0) at the end. *)
Theorem unit_sales_in_turn (d : db) (p : Products.row)
    (stamps : list (uuid * timestamptz)) :
  db_ok d -> In p (products d) -> live p = true ->
  ledger_quantity d (Products.id p) = 0 ->
  fresh_ids d stamps = true ->
  let K := Products.total_stock p in
  let N := Z.of_nat (List.length stamps) in
  let out :=
    Concurrent.run d
      (map Concurrent.receive (unit_sales (Products.id p) stamps))
      (Concurrent.serial (List.length stamps)) in
  forallb Concurrent.answered (snd out) = true
  /\ List.length (snd out) = List.length stamps
  /\ Concurrent.count Concurrent.task_succeeded (snd out) = Z.min N K
  /\ Concurrent.count Concurrent.task_insufficient (snd out) = N - Z.min N K
  /\ ReadModel.remaining_stock (read_model_row (fst out) p) = Z.max (K - N) 0.
Proof.
  intros Hok Hp Hl Hsold Hfresh K N out.
  pose proof (db_ok_parts d Hok) as (_ & _ & Hprod & _).
  pose proof (product_okb_parts p (Hprod p Hp)) as [_ HK]. fold K in HK.
  assert (Hleft : 0 <= Products.total_stock p
                       - ledger_quantity d (Products.id p)) by lia.
  pose proof (serve_unit_sales stamps d p Hok Hp Hl Hleft Hfresh) as H.
  cbv zeta in H. rewrite Hsold, Z.sub_0_r in H. fold K N in H.
  assert (Hlen : List.length (unit_sales (Products.id p) stamps)
                 = List.length stamps)
    by (unfold unit_sales; apply length_map).
  assert (Eout : out = (fst (serve d (unit_sales (Products.id p) stamps)),
                        map Concurrent.Answered
                          (snd (serve d (unit_sales (Products.id p) stamps))))).
  { unfold out. rewrite <- Hlen. apply run_serial. }
  rewrite Eout. cbn [fst snd].
  destruct H as (H1 & H2 & H3 & H4 & H5 & H6).
  split; [apply forallb_answered|].
  split; [now rewrite length_map|].
  split; [rewrite (count_answered (@succeeded)); auto|].
  split; [rewrite (count_answered (@insufficient)); auto|].
  rewrite remaining_stock_row, H6. fold K. lia.
Qed.

(** On the last unit and two buyers served in turn. *)
Lemma unit_sales_in_turn_witness :
  let p := Products.mk 1%N "Chocolate Croissant" 325 1 None 1000 1000 None in
  let out :=
    Concurrent.run Sample.last_unit
      (map Concurrent.receive Sample.two_buyers) (Concurrent.serial 2) in
  forallb Concurrent.answered (snd out) = true
  /\ List.length (snd out) = 2%nat
  /\ Concurrent.count Concurrent.task_succeeded (snd out) = Z.min 2 1
  /\ Concurrent.count Concurrent.task_insufficient (snd out) = 2 - Z.min 2 1
  /\ ReadModel.remaining_stock (read_model_row (fst out) p) = Z.max (1 - 2) 0.
Proof.
  intros p.
  apply (unit_sales_in_turn Sample.last_unit p [(10%N, 2000); (11%N, 2001)]);
    try reflexivity.
  left; reflexivity.
Defined.

(** C3, as stated, fails: with one unit in stock and two requests in flight,
    when both look the product up before either inserts, both succeed, none
    is answered InsufficientStock, and the view shows minus one. *)
Lemma last_unit_sold_twice :
  let out :=
    Concurrent.run Sample.last_unit
      (map Concurrent.receive Sample.two_buyers) Sample.interleaved in
  forallb Concurrent.answered (snd out) = true
  /\ Concurrent.count Concurrent.task_succeeded (snd out) = 2
  /\ Concurrent.count Concurrent.task_succeeded (snd out) <> Z.min 2 1
  /\ Concurrent.count Concurrent.task_insufficient (snd out) = 0
  /\ exists r, product_read_model (fst out) = Ok [r]
               /\ ReadModel.total_stock r = 1
               /\ ReadModel.remaining_stock r = -1.
Proof.
  cbv zeta. repeat split; try (vm_compute; congruence).
  eexists. split; [vm_compute; reflexivity|]. split; reflexivity.
Qed.

(** ** Updates of a listed product *)

Lemma round_scale2_nonneg (q : Q) :
  Qle_bool 0 q = true -> 0 <= Pg.round_scale2 q.
Proof.
  intros H. unfold Pg.round_scale2. rewrite H.
  apply Qle_bool_iff in H.
  change 0 with (Qfloor 0). apply Qfloor_resp_le.
  apply Qle_trans with (q * (100 # 1))%Q.
  - replace 0%Q with (0 * (100 # 1))%Q by reflexivity.
    apply Qmult_le_compat_r; [exact H|discriminate].
  - rewrite <- (Qplus_0_r (q * (100 # 1))) at 1.
    apply Qplus_le_r. discriminate.
Qed.

Lemma number_nonnegative_ok (path : string) (q q' : Q) :
  Zod.number_nonnegative path q = Ok q' -> Qle_bool 0 q = true.
Proof.
  unfold Zod.number_nonnegative. now destruct (Qle_bool 0 q).
Qed.

Lemma number_int_ok (path : string) (lo : Z) (q : Q) (z : Z) :
  Zod.number_int path lo None (Finite q) = Ok z ->
  z = Qfloor q /\ lo <= z /\ Zod.is_integer q = true.
Proof.
  unfold Zod.number_int.
  destruct (Zod.is_integer q); simpl; [|discriminate].
  destruct (Qfloor q <? lo) eqn:E; [discriminate|].
  intros H. injection H as <-. apply Z.ltb_ge in E. auto.
Qed.

(** What [productUpdateSchema] has checked of a payload it accepts. *)
Lemma productUpdateSchema_ok (body : ProductUpdateRequest.t) :
  Api.productUpdateSchema body = Ok body ->
  (forall q, ProductUpdateRequest.price body = Some q -> Qle_bool 0 q = true)
  /\ (forall q, ProductUpdateRequest.totalStock body = Some q ->
        0 <= Qfloor q)
  /\ (0 < Api.keys_length body)%nat.
Proof.
  unfold Api.productUpdateSchema, Zod.optional.
  destruct body as [nm pr ts ip].
  cbn [ProductUpdateRequest.name ProductUpdateRequest.price
       ProductUpdateRequest.totalStock ProductUpdateRequest.imagePath].
  destruct nm as [nm|]; [destruct (Zod.string_min1 "name" nm); [|discriminate]|];
  (destruct pr as [pr|];
   [destruct (Zod.number_nonnegative "price" pr) eqn:Epr; [|discriminate]|]);
  (destruct ts as [ts|];
   [destruct (Zod.number_int "totalStock" 0 None (Finite ts)) eqn:Ets;
    [|discriminate]|]);
  (destruct ip as [ip|];
   [destruct (Zod.string_min1 "imagePath" ip); [|discriminate]|]);
  intros H; vm_compute in H; try discriminate;
  (split; [|split]);
  try (intros q [= <-]); try (intros q [=]);
  try (unfold Api.keys_length, Api.present; simpl; lia);
  try (eapply number_nonnegative_ok; eassumption);
  try (apply number_int_ok in Ets; lia).
Qed.

Lemma update_row_ok (d : db) (p : Products.row) (now : timestamptz)
    (body : ProductUpdateRequest.t) :
  db_ok d -> In p (products d) ->
  Api.productUpdateSchema body = Ok body ->
  price_fits body = true ->
  (forall q, ProductUpdateRequest.totalStock body = Some q ->
     Qfloor q <= Pg.int4_max) ->
  Pg.row_ok (Pg.update_row (Api.update_body_of body) now p) = Ok tt.
Proof.
  intros Hok Hp Hv Hfit Hint.
  apply productUpdateSchema_ok in Hv. destruct Hv as (Hpr & Hts & _).
  pose proof (db_ok_parts d Hok) as (_ & _ & Hprod & _).
  pose proof (product_okb_parts p (Hprod p Hp)) as [Hprice Hstock].
  unfold price_fits in Hfit.
  unfold Pg.row_ok, Pg.update_row, Api.update_body_of. simpl.
  assert (H1 : 0 <= Pg.assign
                 (option_map Pg.round_scale2 (ProductUpdateRequest.price body))
                 (Products.price p) < Pg.numeric_12_2_bound).
  { destruct (ProductUpdateRequest.price body) as [q|]; simpl; [|exact Hprice].
    split; [apply round_scale2_nonneg; auto|now apply Z.ltb_lt]. }
  assert (H2 : 0 <= Pg.assign
                 (option_map Qfloor (ProductUpdateRequest.totalStock body))
                 (Products.total_stock p) <= Pg.int4_max).
  { destruct (ProductUpdateRequest.totalStock body) as [q|]; simpl;
      [|exact Hstock].
    split; auto. }
  unfold Pg.fits, Pg.in_int4, Pg.int4_min.
  replace (Z.abs _ <? Pg.numeric_12_2_bound) with true
    by (symmetry; apply Z.ltb_lt; rewrite Z.abs_eq; lia).
  replace (_ <=? _) with true at 1 by (symmetry; apply Z.leb_le; lia).
  replace (_ <=? Pg.int4_max) with true by (symmetry; apply Z.leb_le; lia).
  simpl.
  replace (0 <=? _) with true at 1 by (symmetry; apply Z.leb_le; lia).
  replace (0 <=? _) with true by (symmetry; apply Z.leb_le; lia).
  reflexivity.
Qed.





(** ** The catalog listing *)

Lemma live_deleted_at (p : Products.row) :
  live p = true <-> Products.deleted_at p = None.
Proof. unfold live. destruct (Products.deleted_at p); split; congruence. Qed.






(** ** The ledger only grows *)

Lemma apply_op_sales (d : db) (o : op) :
  exists later, sales (apply_op d o) = sales d ++ later.
Proof.
  destruct o as [i n b|i n b|i n b]; simpl.
  - destruct (Api.post_products d i n b) as [d' r] eqn:E.
    apply post_products_inv in E.
    destruct E as [->|(p & -> & _)]; exists []; simpl; now rewrite app_nil_r.
  - destruct (Api.patch_products d (uuid_text i) n b) as [d' r] eqn:E.
    apply patch_products_inv in E.
    destruct E as [[-> _]|(p & _ & _ & _ & ->)]; exists []; simpl;
      now rewrite app_nil_r.
  - destruct (Api.post_sales d i n b) as [d' r] eqn:E.
    apply post_sales_inv in E.
    destruct E as [[-> _]|(p & _ & _ & _ & -> & _)].
    + exists []. now rewrite app_nil_r.
    + eexists. simpl. reflexivity.
Qed.

Lemma run_ops_sales (ops : list op) (d : db) :
  exists later, sales (run_ops d ops) = sales d ++ later.
Proof.
  revert d. induction ops as [|o ops IH]; intros d; simpl.
  - exists []. now rewrite app_nil_r.
  - destruct (apply_op_sales d o) as [l1 E1].
    destruct (IH (apply_op d o)) as [l2 E2].
    exists (l1 ++ l2). now rewrite E2, E1, app_assoc.
Qed.

(** What the lookup of [POST /sales] hands on: the payload, and the listed
    product as the view shows it then. *)
Lemma sales_lookup_proceed (d : db) (body payload : SaleCreateRequest.t)
    (product : Product.t) :
  Api.sales_lookup d body = Api.Proceed payload product ->
  payload = body
  /\ exists p, In p (products d) /\ live p = true
               /\ Products.id p = SaleCreateRequest.productId body
               /\ product = Api.toProduct (read_model_row d p).
Proof.
  unfold Api.sales_lookup, Api.saleCreateSchema.
  destruct (Zod.number_int _ _ _ _) as [z|iss]; [|discriminate].
  destruct (Api.fetchProductById d (SaleCreateRequest.productId body))
    as [[pr|]|e] eqn:Ef; try discriminate.
  intros H. injection H as <- <-. split; [reflexivity|].
  now apply fetchProductById_some.
Qed.

(** What the insert of [POST /sales] appends when it succeeds, on whatever
    the tables are by then. *)
Lemma sales_commit_inv (d d' : db) (new_id : uuid) (now : timestamptz)
    (payload : SaleCreateRequest.t) (product : Product.t) (status : Z)
    (sale : Sale.t) :
  Api.sales_commit d new_id now payload product = (d', Api.json status sale) ->
  let row := Sales.mk new_id (SaleCreateRequest.productId payload)
               (Qfloor (SaleCreateRequest.quantity payload))
               (Product.price product) now in
  d' = mkDb (products d) (sales d ++ [row]) /\ sale = Api.toSale row.
Proof.
  unfold Api.sales_commit.
  destruct (_ <? _); [discriminate|].
  unfold Pg.insert_sale.
  destruct (negb (_ && _ && _)); [discriminate|].
  destruct (negb ((0 <? _) && _)); [discriminate|].
  destruct (Pg.has_sale d new_id); [discriminate|].
  destruct (negb (Pg.has_product _ _)); [discriminate|].
  intros H. injection H as <- _ <-. split; reflexivity.
Qed.

(** C6. A sale that recordSale admits is one new row of the ledger whose
    unit price is the price the listed product had when the handler looked
    it up, whatever the tables have become when the insert runs; it is the
    product's price at the insert when that price has not been changed in
    between, as when the call is served alone, where lookup and insert see
    the same tables. The total amount is quantity times unit price, a
    function of the row that no request can set; and the row stays in the
    ledger as it is through every later operation, whatever becomes of the
    product's price. *)
Theorem sale_price_captured (d dc d' : db) (new_id : uuid) (now : timestamptz)
    (body payload : SaleCreateRequest.t) (product : Product.t) (status : Z)
    (sale : Sale.t) :
  Api.sales_lookup d body = Api.Proceed payload product ->
  Api.sales_commit dc new_id now payload product = (d', Api.json status sale) ->
  exists p row,
    In p (products d)
    /\ Products.id p = SaleCreateRequest.productId body
    /\ Products.deleted_at p = None
    /\ sales d' = sales dc ++ [row]
    /\ sale = Api.toSale row
    /\ Sales.product_id row = Products.id p
    /\ Sales.unit_price row = Products.price p
    /\ Sale.unitPrice sale = Products.price p
    /\ (forall pc, In pc (products dc) -> Products.id pc = Products.id p ->
          Products.price pc = Products.price p ->
          Sales.unit_price row = Products.price pc)
    /\ Api.post_sales d new_id now body
       = Api.sales_commit d new_id now payload product
    /\ Sales.total_amount row = Sales.quantity row * Sales.unit_price row
    /\ Sale.totalAmount sale = Sale.quantity sale * Sale.unitPrice sale
    /\ forall ops, In row (sales (run_ops d' ops)).
Proof.
  intros El Ec.
  assert (Epost : Api.post_sales d new_id now body
                  = Api.sales_commit d new_id now payload product)
    by (unfold Api.post_sales; now rewrite El).
  apply sales_lookup_proceed in El. destruct El as (-> & p & Hp & Hl & Hi & ->).
  apply sales_commit_inv in Ec. cbv zeta in Ec. destruct Ec as [-> ->].
  exists p. eexists. cbn [sales].
  split; [exact Hp|]. split; [exact Hi|].
  split; [now apply live_deleted_at|].
  split; [reflexivity|]. split; [reflexivity|].
  split; [simpl; now rewrite Hi|].
  split; [reflexivity|]. split; [reflexivity|].
  split; [intros pc _ _ Hprice; simpl; now rewrite Hprice|].
  split; [exact Epost|].
  split; [reflexivity|]. split; [reflexivity|].
  intros ops.
  match goal with
  | |- In ?row (sales (run_ops ?d0 ops)) =>
      destruct (run_ops_sales ops d0) as [later E]
  end.
  rewrite E. simpl. apply in_or_app. left. apply in_or_app. right.
  now left.
Qed.

(** On a sale of two of the product priced 3.25, inserted after the price
    has been set to 4.00. *)
Lemma sale_price_captured_witness :
  let d := Sample.five_in_stock in
  let body := Sample.sale_of 1%N 2 in
  let product := Product.mk 1%N "Chocolate Croissant" 325 5 None 0 5 in
  let sale := Sale.mk 10%N 1%N 2 325 650 2000 in
  let d' := fst (Api.sales_commit Sample.dearer 10%N 2000 body product) in
  exists p row,
    In p (products d)
    /\ Products.id p = SaleCreateRequest.productId body
    /\ Products.deleted_at p = None
    /\ sales d' = sales Sample.dearer ++ [row]
    /\ sale = Api.toSale row
    /\ Sales.product_id row = Products.id p
    /\ Sales.unit_price row = Products.price p
    /\ Sale.unitPrice sale = Products.price p
    /\ (forall pc, In pc (products Sample.dearer) ->
          Products.id pc = Products.id p ->
          Products.price pc = Products.price p ->
          Sales.unit_price row = Products.price pc)
    /\ Api.post_sales d 10%N 2000 body
       = Api.sales_commit d 10%N 2000 body product
    /\ Sales.total_amount row = Sales.quantity row * Sales.unit_price row
    /\ Sale.totalAmount sale = Sale.quantity sale * Sale.unitPrice sale
    /\ forall ops, In row (sales (run_ops d' ops)).
Proof.
  intros d body product sale d'.
  apply (sale_price_captured d Sample.dearer d' 10%N 2000 body body product
           201 sale).
  - vm_compute. reflexivity.
  - vm_compute. reflexivity.
Defined.

(** C6, as stated, fails: a sale of two is looked up while the price is
    3.25; an update to 4.00 is served before its insert; the insert then
    stores the unit price 3.25 and the total 6.50, while the product's price
    at that moment, and after, is 4.00. *)
Lemma sale_price_stale_at_commit :
  let out := Concurrent.advance Sample.dearer Sample.two_in_flight in
  Sample.two_in_flight
  = Concurrent.Looked_up 10%N 2000 (Sample.sale_of 1%N 2)
      (Product.mk 1%N "Chocolate Croissant" 325 5 None 0 5)
  /\ map Products.price (products Sample.dearer) = [400]
  /\ snd out = Concurrent.Answered
                 (Api.json 201 (Sale.mk 10%N 1%N 2 325 650 2000))
  /\ map Sales.unit_price (sales (fst out)) = [325]
  /\ map Products.price (products (fst out)) = [400]
  /\ map Sales.unit_price (sales (fst out))
     <> map Products.price (products (fst out)).
Proof.
  cbv zeta. repeat split; try (vm_compute; reflexivity).
  vm_compute. discriminate.
Qed.

(** ** Best sellers *)

Lemma filtered_sales_none (d : db) (from_ts to_ts : option timestamptz) :
  (forall s, In s (sales d) -> BestSellers.in_window from_ts to_ts s = false) ->
  BestSellers.filtered_sales d from_ts to_ts = [].
Proof.
  unfold BestSellers.filtered_sales. intros H.
  induction (sales d) as [|s l IH]; simpl; [reflexivity|].
  rewrite (H s (or_introl eq_refl)). simpl. apply IH.
  intros s' Hs'. apply H. now right.
Qed.

(** C7. Whatever the bounds of the window, given or not, when no sale of the
    ledger falls in it getBestSellers answers 200 with both bestByQuantity
    and bestByRevenue null. *)
Theorem best_sellers_empty_window (d : db) (from to : option timestamptz) :
  (forall s, In s (sales d) -> BestSellers.in_window from to s = false) ->
  Api.get_best_sellers d from to
  = Api.json 200 (BestSellers.mkJson None None).
Proof.
  intros H. unfold Api.get_best_sellers, BestSellers.get_best_sellers.
  now rewrite (filtered_sales_none d from to H).
Qed.

(** On a ledger whose only sale is older than the window. *)
Lemma best_sellers_empty_window_witness :
  Api.get_best_sellers Sample.three_sold (Some 5000) None
  = Api.json 200 (BestSellers.mkJson None None).
Proof.
  apply best_sellers_empty_window.
  intros s [<-|[]]. reflexivity.
Defined.

Lemma sql_sum_cons (x : Z) (l : list Z) :
  sql_sum (x :: l) = Some (fold_right Z.add 0 (x :: l)).
Proof. simpl. now rewrite fold_left_add. Qed.

(** Each sale joins the one product it references. *)
Lemma filtered_sales_join (d : db) (from_ts to_ts : option timestamptz) :
  db_ok d ->
  map BestSellers.sale (BestSellers.filtered_sales d from_ts to_ts)
  = filter (BestSellers.in_window from_ts to_ts) (sales d).
Proof.
  intros Hok. pose proof (db_ok_parts d Hok) as (Hu & _ & _ & Hsale & _).
  unfold BestSellers.filtered_sales.
  induction (sales d) as [|s l IH]; simpl; [reflexivity|].
  rewrite map_app, IH by (intros; apply Hsale; now right).
  destruct (BestSellers.in_window from_ts to_ts s); simpl; [|reflexivity].
  specialize (Hsale s (or_introl eq_refl)).
  apply sale_okb_parts in Hsale. destruct Hsale as (_ & _ & _ & Hhas).
  apply (existsb_key Products.id) in Hhas. destruct Hhas as [p [Hp Hid]].
  rewrite <- Hid, (filter_key_unique Products.id _ p Hu Hp). reflexivity.
Qed.

Lemma group_keys_In (l : list uuid) (k : uuid) :
  In k (BestSellers.group_keys l) <-> In k l.
Proof.
  induction l as [|x l IH]; simpl; [tauto|].
  rewrite filter_In, IH, negb_true_iff, N.eqb_neq.
  destruct (N.eq_dec x k); intuition congruence.
Qed.

Lemma aggregate_group_spec (k : uuid) (rows : list BestSellers.filtered)
    (a : BestSellers.aggregate) :
  BestSellers.aggregate_group k rows = Some a ->
  BestSellers.product_id a = k
  /\ BestSellers.sold_quantity a
     = fold_right Z.add 0
         (map Sales.quantity (map BestSellers.sale rows))
  /\ BestSellers.total_revenue a
     = fold_right Z.add 0
         (map Sales.total_amount (map BestSellers.sale rows)).
Proof.
  unfold BestSellers.aggregate_group.
  destruct rows as [|r rows]; [discriminate|].
  rewrite !map_map. cbn [map sql_max]. rewrite !sql_sum_cons.
  intros H. injection H as <-. simpl. auto.
Qed.

Lemma aggregate_group_nonempty (k : uuid) (rows : list BestSellers.filtered) :
  rows <> [] -> exists a, BestSellers.aggregate_group k rows = Some a.
Proof.
  destruct rows as [|r rows]; [congruence|]. intros _.
  unfold BestSellers.aggregate_group. cbn [map sql_max]. rewrite !sql_sum_cons.
  eauto.
Qed.

Lemma aggregated_In (fs : list BestSellers.filtered) (a : BestSellers.aggregate) :
  In a (BestSellers.aggregated fs) <->
  exists k, In k (map (fun r => Sales.product_id (BestSellers.sale r)) fs)
            /\ BestSellers.aggregate_group k
                 (filter (fun r => N.eqb (Sales.product_id (BestSellers.sale r)) k)
                         fs) = Some a.
Proof.
  unfold BestSellers.aggregated. rewrite in_flat_map. split.
  - intros [k [Hk Ha]]. exists k. rewrite group_keys_In in Hk. split; auto.
    destruct (BestSellers.aggregate_group k _) as [a'|]; [|destruct Ha].
    destruct Ha as [->|[]]. reflexivity.
  - intros [k [Hk Ha]]. exists k. rewrite group_keys_In. split; auto.
    rewrite Ha. now left.
Qed.

Lemma filter_map_sale (k : uuid) (fs : list BestSellers.filtered) :
  map BestSellers.sale
      (filter (fun r => N.eqb (Sales.product_id (BestSellers.sale r)) k) fs)
  = filter (fun s => N.eqb (Sales.product_id s) k) (map BestSellers.sale fs).
Proof.
  induction fs as [|r fs IH]; simpl; [reflexivity|].
  destruct (N.eqb _ k); simpl; now rewrite IH.
Qed.

(** A row of [aggregated] carries the sums of its product over the window. *)
Lemma aggregated_sums (d : db) (from_ts to_ts : option timestamptz)
    (a : BestSellers.aggregate) :
  db_ok d ->
  In a (BestSellers.aggregated (BestSellers.filtered_sales d from_ts to_ts)) ->
  BestSellers.sold_quantity a
  = window_quantity d from_ts to_ts (BestSellers.product_id a)
  /\ BestSellers.total_revenue a
     = window_revenue d from_ts to_ts (BestSellers.product_id a).
Proof.
  intros Hok Ha. apply aggregated_In in Ha. destruct Ha as [k [_ Ha]].
  apply aggregate_group_spec in Ha. destruct Ha as (-> & Hq & Hr).
  rewrite filter_map_sale, (filtered_sales_join d from_ts to_ts Hok) in Hq, Hr.
  split; assumption.
Qed.

(** Every product sold in the window has a row in [aggregated]. *)
Lemma aggregated_complete (d : db) (from_ts to_ts : option timestamptz)
    (s : Sales.row) :
  db_ok d -> In s (sales d) -> BestSellers.in_window from_ts to_ts s = true ->
  exists a,
    In a (BestSellers.aggregated (BestSellers.filtered_sales d from_ts to_ts))
    /\ BestSellers.product_id a = Sales.product_id s.
Proof.
  intros Hok Hs Hw.
  set (fs := BestSellers.filtered_sales d from_ts to_ts).
  assert (Hin : In s (map BestSellers.sale fs)).
  { unfold fs. rewrite (filtered_sales_join d from_ts to_ts Hok).
    apply filter_In. auto. }
  apply in_map_iff in Hin. destruct Hin as [r [Hr Hrin]].
  destruct (aggregate_group_nonempty (Sales.product_id s)
              (filter (fun r => N.eqb (Sales.product_id (BestSellers.sale r))
                                      (Sales.product_id s)) fs)) as [a Ha].
  { intros E.
    assert (In r (filter (fun r => N.eqb (Sales.product_id (BestSellers.sale r))
                                         (Sales.product_id s)) fs))
      by (apply filter_In; split; [exact Hrin|rewrite Hr; apply N.eqb_refl]).
    rewrite E in H. destruct H. }
  exists a. split.
  - apply aggregated_In. exists (Sales.product_id s). split; [|exact Ha].
    apply in_map_iff. exists r. split; [now rewrite Hr|exact Hrin].
  - now apply aggregate_group_spec in Ha.
Qed.

Lemma by_quantity_spec (a b : BestSellers.aggregate) :
  BestSellers.by_quantity a b = true <->
  BestSellers.sold_quantity b < BestSellers.sold_quantity a
  \/ (BestSellers.sold_quantity a = BestSellers.sold_quantity b
      /\ (BestSellers.product_id a <= BestSellers.product_id b)%N).
Proof.
  unfold BestSellers.by_quantity.
  now rewrite orb_true_iff, andb_true_iff, Z.ltb_lt, Z.eqb_eq, N.leb_le.
Qed.

Lemma by_revenue_spec (a b : BestSellers.aggregate) :
  BestSellers.by_revenue a b = true <->
  BestSellers.total_revenue b < BestSellers.total_revenue a
  \/ (BestSellers.total_revenue a = BestSellers.total_revenue b
      /\ (BestSellers.product_id a <= BestSellers.product_id b)%N).
Proof.
  unfold BestSellers.by_revenue.
  now rewrite orb_true_iff, andb_true_iff, Z.ltb_lt, Z.eqb_eq, N.leb_le.
Qed.

Lemma by_quantity_total (a b : BestSellers.aggregate) :
  BestSellers.by_quantity a b = true \/ BestSellers.by_quantity b a = true.
Proof. rewrite !by_quantity_spec. lia. Qed.

Lemma by_quantity_trans (a b c : BestSellers.aggregate) :
  BestSellers.by_quantity a b = true -> BestSellers.by_quantity b c = true ->
  BestSellers.by_quantity a c = true.
Proof. rewrite !by_quantity_spec. lia. Qed.

Lemma by_revenue_total (a b : BestSellers.aggregate) :
  BestSellers.by_revenue a b = true \/ BestSellers.by_revenue b a = true.
Proof. rewrite !by_revenue_spec. lia. Qed.

Lemma by_revenue_trans (a b c : BestSellers.aggregate) :
  BestSellers.by_revenue a b = true -> BestSellers.by_revenue b c = true ->
  BestSellers.by_revenue a c = true.
Proof. rewrite !by_revenue_spec. lia. Qed.

(** The first row of a table in a total order, taken by [limit 1]. *)
Lemma limit_1_order_by {A : Type} (le : A -> A -> bool) (l : list A) (x : A) :
  (forall a b, le a b = true \/ le b a = true) ->
  (forall a b c, le a b = true -> le b c = true -> le a c = true) ->
  In x l ->
  exists b, limit 1 (order_by le l) = [b] /\ In b l
            /\ forall y, In y l -> le b y = true.
Proof.
  intros Htot Htrans Hx.
  destruct (order_by_nonempty le l) as (b & rest & E).
  { intros ->. destruct Hx. }
  exists b. rewrite E. split; [reflexivity|]. split.
  - apply (order_by_In le). rewrite E. now left.
  - apply (order_by_head le Htot Htrans l b rest E).
Qed.

(** C8. In a state the schema allows, whenever some sale falls in the
    window, bestByQuantity is a product sold in the window whose summed
    quantity over the window no product exceeds, and every product with the
    same sum has an id that is not smaller; bestByRevenue is the same for
    the summed revenue. Among products tied at the maximum, the smallest id
    is the one selected. *)
Theorem best_sellers_tie_break (d : db) (from to : option timestamptz)
    (s : Sales.row) :
  db_ok d -> In s (sales d) -> BestSellers.in_window from to s = true ->
  let best := BestSellers.get_best_sellers d from to in
  (exists bq,
      BestSellers.bestByQuantity best = Some bq
      /\ BestSellers.q_soldQuantity bq
         = window_quantity d from to (BestSellers.q_productId bq)
      /\ forall s', In s' (sales d) -> BestSellers.in_window from to s' = true ->
           let i := Sales.product_id s' in
           window_quantity d from to i <= BestSellers.q_soldQuantity bq
           /\ (window_quantity d from to i = BestSellers.q_soldQuantity bq ->
               (BestSellers.q_productId bq <= i)%N))
  /\ (exists br,
         BestSellers.bestByRevenue best = Some br
         /\ BestSellers.r_totalRevenue br
            = window_revenue d from to (BestSellers.r_productId br)
         /\ forall s', In s' (sales d) ->
              BestSellers.in_window from to s' = true ->
              let i := Sales.product_id s' in
              window_revenue d from to i <= BestSellers.r_totalRevenue br
              /\ (window_revenue d from to i = BestSellers.r_totalRevenue br ->
                  (BestSellers.r_productId br <= i)%N)).
Proof.
  intros Hok Hs Hw best. unfold best, BestSellers.get_best_sellers.
  set (agg := BestSellers.aggregated (BestSellers.filtered_sales d from to)).
  destruct (aggregated_complete d from to s Hok Hs Hw) as (a0 & Ha0 & _).
  fold agg in Ha0.
  cbn [BestSellers.bestByQuantity BestSellers.bestByRevenue].
  split.
  - destruct (limit_1_order_by BestSellers.by_quantity agg a0
                by_quantity_total by_quantity_trans Ha0) as (b & E & Hb & Hmin).
    unfold BestSellers.best_by_quantity. rewrite E.
    exists (BestSellers.quantity_object b). split; [reflexivity|].
    cbn [BestSellers.quantity_object BestSellers.q_soldQuantity
         BestSellers.q_productId].
    split; [now apply aggregated_sums|].
    intros s' Hs' Hw'. cbv zeta.
    destruct (aggregated_complete d from to s' Hok Hs' Hw') as (a & Ha & Hid).
    fold agg in Ha.
    pose proof (Hmin a Ha) as Hle. apply by_quantity_spec in Hle.
    destruct (aggregated_sums d from to a Hok Ha) as [Hq _].
    rewrite Hid in Hq. rewrite Hid in Hle. lia.
  - destruct (limit_1_order_by BestSellers.by_revenue agg a0
                by_revenue_total by_revenue_trans Ha0) as (b & E & Hb & Hmin).
    unfold BestSellers.best_by_revenue. rewrite E.
    exists (BestSellers.revenue_object b). split; [reflexivity|].
    cbn [BestSellers.revenue_object BestSellers.r_totalRevenue
         BestSellers.r_productId].
    split; [now apply aggregated_sums|].
    intros s' Hs' Hw'. cbv zeta.
    destruct (aggregated_complete d from to s' Hok Hs' Hw') as (a & Ha & Hid).
    fold agg in Ha.
    pose proof (Hmin a Ha) as Hle. apply by_revenue_spec in Hle.
    destruct (aggregated_sums d from to a Hok Ha) as [_ Hr].
    rewrite Hid in Hr. rewrite Hid in Hle. lia.
Qed.

(** On two products that sold four each: the smaller id is selected. *)
Lemma best_sellers_tie_break_witness :
  let best := BestSellers.get_best_sellers Sample.tie None None in
  window_quantity Sample.tie None None 7%N = 4
  /\ window_quantity Sample.tie None None 3%N = 4
  /\ option_map BestSellers.q_productId (BestSellers.bestByQuantity best)
     = Some 3%N
  /\ exists br,
       BestSellers.bestByRevenue best = Some br
       /\ BestSellers.r_totalRevenue br
          = window_revenue Sample.tie None None (BestSellers.r_productId br).
Proof.
  intros best.
  destruct (best_sellers_tie_break Sample.tie None None
              (Sales.mk 10%N 7%N 4 450 2000) eq_refl
              (or_introl eq_refl) eq_refl)
    as [(bq & Ebq & _) (br & Ebr & Hbr & _)].
  split; [reflexivity|]. split; [reflexivity|]. split.
  - reflexivity.
  - exists br. split; [exact Ebr|exact Hbr].
Defined.

(** ** Partial updates *)

Lemma Forall2_map_same {A : Type} (R : A -> A -> Prop) (f : A -> A)
    (l : list A) :
  (forall x, In x l -> R x (f x)) -> Forall2 R l (map f l).
Proof.
  induction l as [|x l IH]; intros H; simpl; constructor.
  - apply H. now left.
  - apply IH. intros y Hy. apply H. now right.
Qed.

Lemma Forall2_same {A : Type} (R : A -> A -> Prop) (l : list A) :
  (forall x, In x l -> R x x) -> Forall2 R l l.
Proof.
  intros H. rewrite <- (map_id l) at 2. now apply Forall2_map_same.
Qed.

(** C9. Whatever the product and the payload, updateProduct leaves the
    sales alone and, row by row: never changes a row with another id, and
    never changes the name, price, totalStock or imagePath that the payload
    does not supply; where the update is answered with success, the members
    supplied are the values stored. A payload that supplies no member at all
    is answered ValidationError and nothing is changed. *)
Theorem update_applies_supplied_fields (d : db) (i : uuid) (now : timestamptz)
    (body : ProductUpdateRequest.t) :
  let out := Api.patch_products d (uuid_text i) now body in
  sales (fst out) = sales d
  /\ Forall2
       (fun p p' =>
          Products.id p' = Products.id p
          /\ (Products.id p <> i -> p' = p)
          /\ (ProductUpdateRequest.name body = None ->
              Products.name p' = Products.name p)
          /\ (ProductUpdateRequest.price body = None ->
              Products.price p' = Products.price p)
          /\ (ProductUpdateRequest.totalStock body = None ->
              Products.total_stock p' = Products.total_stock p)
          /\ (ProductUpdateRequest.imagePath body = None ->
              Products.image_path p' = Products.image_path p)
          /\ (succeeded (snd out) = true -> Products.id p = i ->
              (forall v, ProductUpdateRequest.name body = Some v ->
                         Products.name p' = v)
              /\ (forall v, ProductUpdateRequest.price body = Some v ->
                            Products.price p' = Pg.round_scale2 v)
              /\ (forall v, ProductUpdateRequest.totalStock body = Some v ->
                            Products.total_stock p' = Qfloor v)
              /\ (forall v, ProductUpdateRequest.imagePath body = Some v ->
                            Products.image_path p' = Some v)))
       (products d) (products (fst out))
  /\ (Api.keys_length body = 0%nat ->
      out = (d, ValidationError (Zod.custom "At least one field is required"))).
Proof.
  intros out. split; [|split].
  - unfold out. destruct (Api.patch_products d (uuid_text i) now body) as [d' r] eqn:E.
    apply patch_products_inv in E.
    destruct E as [[-> _]|(p & _ & _ & _ & ->)]; reflexivity.
  - unfold out. destruct (Api.patch_products d (uuid_text i) now body) as [d' r] eqn:E.
    apply patch_products_inv in E. cbn [fst snd].
    destruct E as [[-> Hs]|(p & _ & _ & _ & ->)].
    + apply Forall2_same. intros x _. rewrite Hs.
      repeat split; auto; discriminate.
    + cbn [products]. apply Forall2_map_same. intros x _.
      unfold Pg.updated.
      destruct (N.eqb_spec (Products.id x) i) as [Ei|Ei].
      * unfold Pg.update_row, Api.update_body_of. simpl.
        repeat split; try (intros Hnone; rewrite Hnone; reflexivity);
          try (intros v Hsome; rewrite Hsome; reflexivity); try contradiction.
      * repeat split; auto; contradiction.
  - intros Hk. unfold out, Api.patch_products, Api.productUpdateSchema. cbn [Pg.eq_id].
    destruct body as [[nm|] [pr|] [ts|] [ip|]];
      unfold Api.keys_length, Api.present in Hk; simpl in Hk;
      try discriminate.
    reflexivity.
Qed.

(** On an update that supplies the stock only, and on one that supplies
    nothing. *)
Lemma update_applies_supplied_fields_witness :
  let out := Api.patch_products Sample.three_sold (uuid_text 1%N) 3000 (Sample.stock_to 4) in
  map Products.name (products (fst out)) = ["Chocolate Croissant"]%string
  /\ map Products.price (products (fst out)) = [325]
  /\ map Products.total_stock (products (fst out)) = [4]
  /\ Api.patch_products Sample.three_sold (uuid_text 1%N) 3000
       (ProductUpdateRequest.mk None None None None)
     = (Sample.three_sold,
        ValidationError (Zod.custom "At least one field is required")).
Proof.
  intros out.
  destruct (update_applies_supplied_fields Sample.three_sold 1%N 3000
              (ProductUpdateRequest.mk None None None None)) as (_ & _ & H).
  split; [reflexivity|]. split; [reflexivity|]. split; [reflexivity|].
  apply H. reflexivity.
Defined.

(** ** Pagination *)

Lemma is_integer_whole (q : Q) : Zod.is_integer q = true <-> whole (Finite q).
Proof.
  unfold Zod.is_integer. rewrite Qeq_bool_iff. simpl. split.
  - intros H. now exists (Qfloor q).
  - intros [z Hz]. rewrite Hz at 2. rewrite Qfloor_inject_Z. exact Hz.
Qed.

Lemma number_int_rejects (path : string) (lo : Z) (hi : option Z) (n : number) :
  number_lt n lo
  \/ (exists h, hi = Some h /\ number_gt n h)
  \/ ~ whole n ->
  exists iss, Zod.number_int path lo hi n = Err iss.
Proof.
  intros H. destruct n as [| neg|q]; simpl; eauto.
  destruct (Zod.is_integer q) eqn:E; simpl; eauto.
  pose proof E as Hq. unfold Zod.is_integer in Hq. apply Qeq_bool_iff in Hq.
  destruct H as [H|[[h [-> H]]|H]].
  - simpl in H. rewrite Hq in H. rewrite <- Zlt_Qlt in H.
    apply Z.ltb_lt in H. rewrite H. eauto.
  - simpl in H. rewrite Hq in H. rewrite <- Zlt_Qlt in H.
    destruct (Qfloor q <? lo); eauto.
    apply Z.ltb_lt in H. rewrite H. eauto.
  - exfalso. apply H. now apply is_integer_whole.
Qed.

Lemma number_int_accepts (path : string) (lo : Z) (hi : option Z) (n : number)
    (z : Z) :
  Zod.number_int path lo hi n = Ok z ->
  lo <= z /\ (forall h, hi = Some h -> z <= h).
Proof.
  destruct n as [| neg|q]; simpl; try discriminate.
  destruct (Zod.is_integer q); simpl; [|discriminate].
  destruct (Qfloor q <? lo) eqn:E1; [discriminate|].
  apply Z.ltb_ge in E1.
  destruct hi as [h|].
  - destruct (h <? Qfloor q) eqn:E2; [discriminate|].
    apply Z.ltb_ge in E2. intros H. injection H as <-.
    split; [exact E1|]. intros h' [= <-]. exact E2.
  - intros H. injection H as <-. split; [exact E1|]. discriminate.
Qed.

Lemma paginationSchema_rejects (q : Zod.pagination_query) :
  out_of_bounds q -> exists iss, Zod.paginationSchema q = Err iss.
Proof.
  unfold Zod.paginationSchema, Zod.default.
  intros [[n [-> H]]|[n [-> H]]].
  - destruct (number_int_rejects "page" 1 None n) as [iss ->]; [tauto|].
    eauto.
  - destruct (number_int_rejects "limit" 1 (Some 100) n) as [iss ->].
    { destruct H as [H|[H|H]]; eauto. }
    destruct (Zod.q_page q) as [m|];
      [destruct (Zod.number_int "page" 1 None m)|]; eauto.
Qed.

(** C10. A listing whose query has neither page nor limit is served as page
    1 with limit 20, for products and for sales alike, and each parameter
    left out takes its default on its own; what the schema lets through has
    a page of at least 1 and a limit from 1 to 100; a query whose page is
    below 1 or not a whole number, or whose limit is below 1, above 100 or
    not a whole number, is answered ValidationError whatever the tables
    hold, by both listings. *)
Theorem pagination_defaults_and_bounds :
  (forall q, Zod.q_page q = None -> Zod.q_limit q = None ->
     Zod.paginationSchema q = Ok (Zod.mkPagination 1 20))
  /\ (forall q parsed, Zod.paginationSchema q = Ok parsed ->
        (Zod.q_page q = None -> Zod.page parsed = 1)
        /\ (Zod.q_limit q = None -> Zod.limit parsed = 20)
        /\ 1 <= Zod.page parsed
        /\ 1 <= Zod.limit parsed <= 100)
  /\ (forall d q, Zod.q_page q = None -> Zod.q_limit q = None ->
        (forall s,
           Api.get_products d s q
           = Api.get_products d s
               (Zod.mkQuery (Some (Finite (1 # 1))) (Some (Finite (20 # 1)))))
        /\ forall s i from to,
             Api.get_sales d s (Api.mkSalesQuery q i from to)
             = Api.get_sales d s
                 (Api.mkSalesQuery
                    (Zod.mkQuery (Some (Finite (1 # 1)))
                                 (Some (Finite (20 # 1))))
                    i from to))
  /\ (forall q, out_of_bounds q ->
        exists iss,
          (forall d s, Api.get_products d s q = ValidationError iss)
          /\ (forall d s i from to,
                Api.get_sales d s (Api.mkSalesQuery q i from to)
                = ValidationError iss)).
Proof.
  split; [|split; [|split]].
  - intros [pg lm]. simpl. intros -> ->. reflexivity.
  - intros [pg lm] parsed. unfold Zod.paginationSchema, Zod.default. simpl.
    destruct pg as [n|].
    + destruct (Zod.number_int "page" 1 None n) as [z|] eqn:Ep; [|discriminate].
      apply number_int_accepts in Ep. destruct Ep as [Hp _].
      destruct lm as [m|].
      * destruct (Zod.number_int "limit" 1 (Some 100) m) as [z'|] eqn:El;
          [|discriminate].
        apply number_int_accepts in El. destruct El as [Hl1 Hl2].
        specialize (Hl2 100 eq_refl).
        intros H. injection H as <-. simpl.
        repeat split; try discriminate; lia.
      * intros H. injection H as <-. simpl.
        repeat split; try discriminate; lia.
    + destruct lm as [m|].
      * destruct (Zod.number_int "limit" 1 (Some 100) m) as [z'|] eqn:El;
          [|discriminate].
        apply number_int_accepts in El. destruct El as [Hl1 Hl2].
        specialize (Hl2 100 eq_refl).
        intros H. injection H as <-. simpl.
        repeat split; try discriminate; lia.
      * intros H. injection H as <-. simpl.
        repeat split; try discriminate; lia.
  - intros d [pg lm]. simpl. intros -> ->. split; reflexivity.
  - intros q Hbad. destruct (paginationSchema_rejects q Hbad) as [iss E].
    exists iss. split.
    + intros d s. unfold Api.get_products. now rewrite E.
    + intros d s i from to. unfold Api.get_sales, Api.salesQuerySchema.
      cbn [Api.sq_pagination]. now rewrite E.
Qed.

(** On a query with no parameter, and on one with page 0. *)
Lemma pagination_defaults_and_bounds_witness :
  Zod.paginationSchema (Zod.mkQuery None None) = Ok (Zod.mkPagination 1 20)
  /\ exists iss,
       (forall d s,
           Api.get_products d s (Zod.mkQuery (Some (Finite (0 # 1))) None)
           = ValidationError iss)
       /\ (forall d s i from to,
             Api.get_sales d s
               (Api.mkSalesQuery (Zod.mkQuery (Some (Finite (0 # 1))) None)
                                 i from to)
             = ValidationError iss).
Proof.
  destruct pagination_defaults_and_bounds as (Hdef & _ & _ & Hbad).
  split.
  - apply Hdef; reflexivity.
  - apply Hbad. left. exists (Finite (0 # 1)). split; [reflexivity|].
    left. reflexivity.
Defined.

(** * Further properties of the handlers *)

(** ** Refusals *)

Lemma Qle_bool_false (q : Q) : Qle_bool 0 q = false <-> (q < 0)%Q.
Proof.
  split.
  - intros H. apply Qnot_le_lt. intros Hle.
    apply Qle_bool_iff in Hle. congruence.
  - intros H. destruct (Qle_bool 0 q) eqn:E; [|reflexivity].
    apply Qle_bool_iff in E. exfalso. now apply (Qlt_not_le _ _ H).
Qed.

Lemma whole_floor_lt (q : Q) (z : Z) :
  Zod.is_integer q = true -> (Qfloor q < z <-> (q < inject_Z z)%Q).
Proof.
  intros H. unfold Zod.is_integer in H. apply Qeq_bool_iff in H.
  rewrite H at 2. now rewrite <- Zlt_Qlt.
Qed.

Lemma number_int_whole (path : string) (lo : Z) (q : Q) :
  (exists iss, Zod.number_int path lo None (Finite q) = Err iss)
  <-> ~ whole (Finite q) \/ (q < inject_Z lo)%Q.
Proof.
  split.
  - intros [iss H]. unfold Zod.number_int in H.
    destruct (Zod.is_integer q) eqn:E; simpl in H.
    + destruct (Qfloor q <? lo) eqn:El; [|discriminate].
      right. apply Z.ltb_lt in El. now apply whole_floor_lt.
    + left. intros Hw. apply is_integer_whole in Hw. congruence.
  - intros H. apply number_int_rejects. tauto.
Qed.

Lemma string_min1_empty (path s : string) :
  (exists iss, Zod.string_min1 path s = Err iss) <-> s = EmptyString.
Proof.
  destruct s; simpl; split; intros H; eauto; try discriminate.
  destruct H as [iss H]. discriminate.
Qed.

(** The schema of creation refuses exactly the payloads of [create_invalid]
    and hands the others on as they are. *)
Lemma productCreateSchema_spec (b : ProductCreateRequest.t) :
  (create_invalid b /\ exists iss, Api.productCreateSchema b = Err iss)
  \/ (~ create_invalid b /\ Api.productCreateSchema b = Ok b).
Proof.
  unfold Api.productCreateSchema, create_invalid.
  destruct b as [nm pr ts ip].
  cbn [ProductCreateRequest.name ProductCreateRequest.price
       ProductCreateRequest.totalStock ProductCreateRequest.imagePath].
  destruct (Zod.string_min1 "name" nm) as [?|i1] eqn:E1.
  2:{ left. split; [left; apply (string_min1_empty "name"); eauto|eauto]. }
  assert (Hnm : nm <> EmptyString).
  { intros ->. discriminate. }
  unfold Zod.number_nonnegative.
  destruct (Qle_bool 0 pr) eqn:E2.
  2:{ left. split; [right; left; now apply Qle_bool_false|eauto]. }
  assert (Hpr : ~ (pr < 0)%Q).
  { intros H. apply Qle_bool_false in H. congruence. }
  destruct (Zod.number_int "totalStock" 0 None (Finite ts)) as [?|i3] eqn:E3.
  2:{ left. split; [|eauto].
      destruct (proj1 (number_int_whole "totalStock" 0 ts)) as [H|H]; eauto. }
  assert (Hts : ~ (~ whole (Finite ts) \/ (ts < 0)%Q)).
  { intros H. apply (number_int_whole "totalStock" 0) in H.
    destruct H as [iss H]. congruence. }
  destruct ip as [ip|]; simpl.
  - destruct (Zod.string_min1 "imagePath" ip) as [?|i4] eqn:E4.
    + right. split; [|reflexivity].
      intros [H|[H|[H|[H|H]]]]; try tauto.
      injection H as ->. discriminate.
    + left. split; [|eauto]. do 4 right. f_equal.
      apply (string_min1_empty "imagePath"). eauto.
  - right. split; [|reflexivity].
    intros [H|[H|[H|[H|H]]]]; try tauto. discriminate.
Qed.



(** X2. recordSale with a quantity that is not a whole number, or is below
    one, is answered ValidationError whatever the product id, and the tables
    are as they were. *)
Theorem record_sale_bad_quantity (d : db) (new_id : uuid) (now : timestamptz)
    (body : SaleCreateRequest.t) :
  ~ whole (Finite (SaleCreateRequest.quantity body))
  \/ (SaleCreateRequest.quantity body < 1)%Q ->
  exists iss, Api.post_sales d new_id now body = (d, ValidationError iss).
Proof.
  intros H. apply (number_int_whole "quantity" 1) in H. destruct H as [iss E].
  unfold Api.post_sales, Api.sales_lookup, Api.saleCreateSchema.
  rewrite E. now exists iss.
Qed.

Lemma record_sale_bad_quantity_witness :
  exists iss,
    Api.post_sales Sample.five_in_stock 10%N 2000
      (SaleCreateRequest.mk 1%N (0 # 1))
    = (Sample.five_in_stock, ValidationError iss).
Proof.
  apply record_sale_bad_quantity. right. reflexivity.
Defined.

Lemma fetchProductById_none (d : db) (i : uuid) :
  db_ok d ->
  (forall p, In p (products d) -> Products.id p = i -> live p = false) ->
  Api.fetchProductById d i = Ok None.
Proof.
  intros Hok Hnone.
  destruct (fetchProductById_cases d i Hok) as [E|(p & Hp & Hl & Hi & _)];
    [exact E|].
  rewrite (Hnone p Hp Hi) in Hl. discriminate.
Qed.

(** X3. In a state the schema allows, recordSale of a positive whole
    quantity for an id that no product has, or that only a deleted product
    has, is answered NotFound and the tables are as they were. *)
Theorem record_sale_not_found (d : db) (i new_id : uuid) (now : timestamptz)
    (q : Z) :
  db_ok d -> 0 < q ->
  (forall p, In p (products d) -> Products.id p = i ->
             Products.deleted_at p <> None) ->
  Api.post_sales d new_id now (SaleCreateRequest.mk i (inject_Z q))
  = (d, NotFound).
Proof.
  intros Hok Hq Hnone.
  unfold Api.post_sales, Api.sales_lookup, Api.saleCreateSchema.
  cbn [SaleCreateRequest.quantity SaleCreateRequest.productId].
  rewrite (number_int_positive _ q Hq).
  cbn [SaleCreateRequest.quantity SaleCreateRequest.productId].
  rewrite (fetchProductById_none d i Hok); [reflexivity|].
  intros p Hp Hi. specialize (Hnone p Hp Hi).
  destruct (live p) eqn:Hl; [|reflexivity].
  apply live_deleted_at in Hl. contradiction.
Qed.

Lemma record_sale_not_found_witness :
  Api.post_sales Sample.catalog 20%N 3000 (Sample.sale_of 2%N 1)
  = (Sample.catalog, NotFound)
  /\ Api.post_sales Sample.catalog 20%N 3000 (Sample.sale_of 9%N 1)
     = (Sample.catalog, NotFound).
Proof.
  split.
  - apply (record_sale_not_found Sample.catalog 2%N 20%N 3000 1);
      [reflexivity|lia|].
    intros p [<-|[<-|[<-|[]]]]; simpl; intros; discriminate.
  - apply (record_sale_not_found Sample.catalog 9%N 20%N 3000 1);
      [reflexivity|lia|].
    intros p [<-|[<-|[<-|[]]]]; simpl; intros; discriminate.
Defined.



(** X5. updateProduct with a payload the schema accepts leaves the tables
    as they were when its path names no product: for a uuid that no product
    has it answers NotFound, and for a path that is no uuid the update
    raises and it answers ServerError. *)
Theorem update_product_not_found (d : db) (now : timestamptz)
    (body : ProductUpdateRequest.t) :
  Api.productUpdateSchema body = Ok body ->
  (forall i, Pg.has_product d i = false ->
     Api.patch_products d (uuid_text i) now body = (d, NotFound))
  /\ (forall s,
        Api.patch_products d (not_uuid s) now body
        = (d, ServerError Pg.invalid_text_representation)).
Proof.
  intros Hv. split.
  - intros i Hnone. unfold Api.patch_products. cbn [Pg.eq_id].
    unfold Pg.update_product. rewrite Hv. cbv zeta.
    now rewrite (filter_key_absent Products.id (products d) i Hnone).
  - intros s. unfold Api.patch_products. rewrite Hv. reflexivity.
Qed.

Lemma update_product_not_found_witness :
  Api.patch_products Sample.catalog (uuid_text 9%N) 3000 (Sample.stock_to 4)
  = (Sample.catalog, NotFound)
  /\ Api.patch_products Sample.catalog (not_uuid "abc") 3000
       (Sample.stock_to 4)
     = (Sample.catalog, ServerError Pg.invalid_text_representation).
Proof.
  destruct (update_product_not_found Sample.catalog 3000 (Sample.stock_to 4)
              eq_refl) as [Hid Htext].
  split; [apply Hid; reflexivity|apply Htext].
Defined.

(** X6. In a state the schema allows, updateProduct on a product whose
    deletedAt is set is not refused: for a payload the schema and the
    column types accept, the row is rewritten and the answer is 200 with a
    null body; getProduct on the id is still NotFound. *)
Theorem update_deleted_product (d : db) (p : Products.row) (now : timestamptz)
    (body : ProductUpdateRequest.t) :
  db_ok d -> In p (products d) -> Products.deleted_at p <> None ->
  Api.productUpdateSchema body = Ok body ->
  price_fits body = true -> stock_fits body = true ->
  let b := Api.update_body_of body in
  let d' := mkDb (map (Pg.updated (Products.id p) b now) (products d))
                 (sales d) in
  Api.patch_products d (uuid_text (Products.id p)) now body = (d', Api.json 200 None)
  /\ In (Pg.update_row b now p) (products d')
  /\ Api.get_product d' (uuid_text (Products.id p)) = NotFound.
Proof.
  intros Hok Hp Hdel Hv Hpf Hsf b d'.
  pose proof (db_ok_parts d Hok) as (Hu & _).
  assert (Hl : live p = false).
  { destruct (live p) eqn:E; [|reflexivity].
    apply live_deleted_at in E. contradiction. }
  assert (Hrow : Pg.row_ok (Pg.update_row b now p) = Ok tt).
  { apply (update_row_ok d); auto.
    intros q Hq. unfold stock_fits in Hsf. rewrite Hq in Hsf.
    now apply Z.leb_le. }
  assert (Hin : In (Pg.update_row b now p) (products d')).
  { unfold d'. simpl. apply in_map_iff. exists p. split; [|exact Hp].
    unfold Pg.updated. now rewrite N.eqb_refl. }
  assert (E : Pg.update_product d (Products.id p) now b
              = Ok (d', Products.id p)).
  { unfold Pg.update_product.
    rewrite (filter_key_unique Products.id _ p Hu Hp). now rewrite Hrow. }
  assert (Hok' : db_ok d').
  { pose proof (patch_products_db_ok d (Products.id p) now body Hok) as H.
    unfold Api.patch_products in H. cbn [Pg.eq_id] in H. rewrite Hv in H. cbv zeta in H.
    fold b in H. rewrite E in H.
    destruct (Api.fetchProductById d' (Products.id p)); exact H. }
  assert (Hnone : Api.fetchProductById d' (Products.id p) = Ok None).
  { apply fetchProductById_none; [exact Hok'|].
    intros p' Hp' Hi. unfold d' in Hp'. simpl in Hp'.
    apply in_map_iff in Hp'. destruct Hp' as [p0 [<- Hp0]].
    rewrite updated_id in Hi. rewrite updated_live.
    assert (p0 = p) as -> by (eapply unique_key_eq; eauto).
    exact Hl. }
  split; [|split; [exact Hin|]].
  - unfold Api.patch_products. cbn [Pg.eq_id]. rewrite Hv. cbv zeta. fold b.
    now rewrite E, Hnone.
  - unfold Api.get_product. cbn [Pg.eq_id]. now rewrite Hnone.
Qed.

Lemma update_deleted_product_witness :
  let p := Products.mk 2%N "Cinnamon Roll" 300 180 None 1001 1001 (Some 5000) in
  let b := Api.update_body_of (Sample.stock_to 7) in
  let d' := mkDb (map (Pg.updated 2%N b 6000) (products Sample.catalog))
                 (sales Sample.catalog) in
  Api.patch_products Sample.catalog (uuid_text 2%N) 6000 (Sample.stock_to 7)
  = (d', Api.json 200 None)
  /\ In (Pg.update_row b 6000 p) (products d')
  /\ Api.get_product d' (uuid_text 2%N) = NotFound.
Proof.
  intros p b d'.
  apply (update_deleted_product Sample.catalog p 6000 (Sample.stock_to 7));
    try reflexivity.
  - right. left. reflexivity.
  - discriminate.
Defined.

Lemma productCreateSchema_ok (body : ProductCreateRequest.t) :
  Api.productCreateSchema body = Ok body ->
  Qle_bool 0 (ProductCreateRequest.price body) = true
  /\ 0 <= Qfloor (ProductCreateRequest.totalStock body).
Proof.
  intros Hv.
  destruct (productCreateSchema_spec body) as [[_ [iss E]]|[Hgood _]];
    [congruence|].
  unfold create_invalid in Hgood. split.
  - destruct (Qle_bool 0 (ProductCreateRequest.price body)) eqn:E;
      [reflexivity|].
    apply Qle_bool_false in E. tauto.
  - destruct (Zod.is_integer (ProductCreateRequest.totalStock body)) eqn:E.
    + destruct (Z_lt_le_dec (Qfloor (ProductCreateRequest.totalStock body)) 0)
        as [Hlt|Hle]; [|exact Hle].
      apply (whole_floor_lt _ 0 E) in Hlt. tauto.
    + exfalso. apply Hgood. right. right. left.
      intros Hw. apply is_integer_whole in Hw. congruence.
Qed.

(** X7. In a state the schema allows, createProduct with a payload the
    schema accepts, a new id, and a price and a stock within their columns
    appends one product and answers 201 with it: the id drawn, the name and
    image path of the payload, the price at two decimals, the stock,
    nothing sold and the whole stock remaining; getProduct on the id then
    answers the same product. *)
Theorem create_then_get (d : db) (new_id : uuid) (now : timestamptz)
    (body : ProductCreateRequest.t) :
  db_ok d ->
  Api.productCreateSchema body = Ok body ->
  Pg.has_product d new_id = false ->
  Pg.round_scale2 (ProductCreateRequest.price body) < Pg.numeric_12_2_bound ->
  Qfloor (ProductCreateRequest.totalStock body) <= Pg.int4_max ->
  let row :=
    Products.mk new_id (ProductCreateRequest.name body)
      (Pg.round_scale2 (ProductCreateRequest.price body))
      (Qfloor (ProductCreateRequest.totalStock body))
      (ProductCreateRequest.imagePath body) now now None in
  let d' := mkDb (products d ++ [row]) (sales d) in
  let product :=
    Product.mk new_id (ProductCreateRequest.name body)
      (Pg.round_scale2 (ProductCreateRequest.price body))
      (Qfloor (ProductCreateRequest.totalStock body))
      (ProductCreateRequest.imagePath body)
      0 (Qfloor (ProductCreateRequest.totalStock body)) in
  Api.post_products d new_id now body = (d', Api.json 201 (Some product))
  /\ Api.get_product d' (uuid_text new_id) = Api.json 200 product.
Proof.
  intros Hok Hv Hnew Hprice Hstock row d' product.
  destruct (productCreateSchema_ok body Hv) as [Hpr Hts].
  pose proof (round_scale2_nonneg _ Hpr) as Hnn.
  assert (E : Pg.insert_product d new_id now (ProductCreateRequest.name body)
                (ProductCreateRequest.price body)
                (Qfloor (ProductCreateRequest.totalStock body))
                (ProductCreateRequest.imagePath body) = Ok d').
  { unfold Pg.insert_product, Pg.fits, Pg.in_int4, Pg.int4_min.
    replace (Z.abs _ <? Pg.numeric_12_2_bound) with true
      by (symmetry; apply Z.ltb_lt; rewrite Z.abs_eq; lia).
    replace (_ <=? Qfloor _) with true at 1 by (symmetry; apply Z.leb_le; lia).
    replace (Qfloor _ <=? Pg.int4_max) with true
      by (symmetry; apply Z.leb_le; lia).
    simpl.
    replace (0 <=? Pg.round_scale2 _) with true
      by (symmetry; apply Z.leb_le; lia).
    replace (0 <=? Qfloor _) with true by (symmetry; apply Z.leb_le; lia).
    simpl. now rewrite Hnew. }
  assert (Hok' : db_ok d').
  { pose proof (post_products_db_ok d new_id now body Hok) as H.
    unfold Api.post_products in H. rewrite Hv, E in H.
    destruct (Api.fetchProductById d' new_id); exact H. }
  assert (Hin : In row (products d'))
    by (unfold d'; simpl; apply in_or_app; right; now left).
  assert (Hsold : ledger_quantity d' new_id = 0).
  { rewrite (ledger_quantity_sales d' d) by reflexivity.
    apply ledger_quantity_unreferenced. intros s Hs Eid.
    pose proof (db_ok_parts d Hok) as (_ & _ & _ & Hsale & _).
    apply Hsale, sale_okb_parts in Hs. destruct Hs as (_ & _ & _ & Hs).
    rewrite Eid in Hs. congruence. }
  assert (Hfetch : Api.fetchProductById d' new_id = Ok (Some product)).
  { change new_id with (Products.id row) at 1.
    rewrite (fetchProductById_live d' row Hok' Hin eq_refl).
    unfold Api.toProduct, read_model_row, product. simpl.
    rewrite sold_sum_ledger, Hsold. do 3 f_equal. lia. }
  split.
  - unfold Api.post_products. now rewrite Hv, E, Hfetch.
  - unfold Api.get_product. cbn [Pg.eq_id]. now rewrite Hfetch.
Qed.

Lemma create_then_get_witness :
  let body := ProductCreateRequest.mk "Rye" (699 # 200) (30 # 1) None in
  let product := Product.mk 2%N "Rye" 350 30 None 0 30 in
  snd (Api.post_products Sample.five_in_stock 2%N 1500 body)
  = Api.json 201 (Some product)
  /\ Api.get_product (fst (Api.post_products Sample.five_in_stock 2%N 1500 body))
       (uuid_text 2%N)
     = Api.json 200 product.
Proof.
  intros body product.
  destruct (create_then_get Sample.five_in_stock 2%N 1500 body)
    as [E G]; try reflexivity.
  - vm_compute. discriminate.
  - rewrite E. split; [reflexivity|exact G].
Defined.

(** ** Nothing is ever removed *)

Lemma identity_updated (i : uuid) (b : Pg.update_body) (now : timestamptz)
    (l : list Products.row) :
  map identity (map (Pg.updated i b now) l) = map identity l.
Proof.
  rewrite map_map. apply map_ext. intros p. unfold Pg.updated, identity.
  now destruct (N.eqb _ _).
Qed.

Lemma apply_op_grows (d : db) (o : op) :
  exists new_products new_sales,
    map identity (products (apply_op d o))
    = map identity (products d) ++ new_products
    /\ sales (apply_op d o) = sales d ++ new_sales
    /\ (List.length new_products + List.length new_sales <= 1)%nat.
Proof.
  destruct o as [i n b|i n b|i n b]; simpl.
  - destruct (Api.post_products d i n b) as [d' r] eqn:E.
    apply post_products_inv in E.
    destruct E as [->|(p & -> & _)]; simpl.
    + exists [], []. rewrite !app_nil_r. auto.
    + exists [identity p], []. rewrite map_app, app_nil_r. auto.
  - destruct (Api.patch_products d (uuid_text i) n b) as [d' r] eqn:E.
    apply patch_products_inv in E.
    destruct E as [[-> _]|(p & _ & _ & _ & ->)]; simpl;
      exists [], []; rewrite ?identity_updated, !app_nil_r; auto.
  - destruct (Api.post_sales d i n b) as [d' r] eqn:E.
    apply post_sales_inv in E.
    destruct E as [[-> _]|(p & _ & _ & _ & -> & _)]; simpl.
    + exists [], []. rewrite !app_nil_r. auto.
    + eexists [], [_]. rewrite app_nil_r. auto.
Qed.

(** X8. Whatever createProduct, updateProduct and recordSale calls are
    served, in any order: every product of the table stays in it, in its
    place, with its id, its creation time and its deletion mark, and every
    sale of the ledger stays in it unaltered; rows are only added at the
    end, at most one per call. *)
Theorem tables_only_grow (ops : list op) (d : db) :
  exists new_products new_sales,
    map identity (products (run_ops d ops))
    = map identity (products d) ++ new_products
    /\ sales (run_ops d ops) = sales d ++ new_sales
    /\ (List.length new_products + List.length new_sales
        <= List.length ops)%nat.
Proof.
  revert d. induction ops as [|o ops IH]; intros d; simpl.
  - exists [], []. rewrite !app_nil_r. auto.
  - destruct (apply_op_grows d o) as (np1 & ns1 & Ep1 & Es1 & Hl1).
    destruct (IH (apply_op d o)) as (np2 & ns2 & Ep2 & Es2 & Hl2).
    exists (np1 ++ np2), (ns1 ++ ns2).
    rewrite Ep2, Ep1, Es2, Es1, !app_assoc, !length_app.
    repeat split; lia.
Qed.

(** ** The listing of sales *)

Lemma by_sold_at_desc_total (a b : Sales.row) :
  Api.by_sold_at_desc a b = true \/ Api.by_sold_at_desc b a = true.
Proof. unfold Api.by_sold_at_desc. rewrite !Z.leb_le. lia. Qed.

Lemma by_sold_at_desc_trans (a b c : Sales.row) :
  Api.by_sold_at_desc a b = true -> Api.by_sold_at_desc b c = true ->
  Api.by_sold_at_desc a c = true.
Proof. unfold Api.by_sold_at_desc. rewrite !Z.leb_le. lia. Qed.

Lemma paginationSchema_bounds (q : Zod.pagination_query)
    (parsed : Zod.pagination) :
  Zod.paginationSchema q = Ok parsed ->
  1 <= Zod.page parsed /\ 1 <= Zod.limit parsed <= 100.
Proof.
  unfold Zod.paginationSchema, Zod.default.
  destruct (match Zod.q_page q with
            | Some a => Zod.number_int "page" 1 None a
            | None => Ok 1
            end) as [pg|] eqn:Ep; [|discriminate].
  destruct (match Zod.q_limit q with
            | Some a => Zod.number_int "limit" 1 (Some 100) a
            | None => Ok 20
            end) as [lm|] eqn:El; [|discriminate].
  intros H. injection H as <-. simpl.
  destruct (Zod.q_page q) as [n|].
  - apply number_int_accepts in Ep. destruct Ep as [Hp _].
    destruct (Zod.q_limit q) as [m|].
    + apply number_int_accepts in El. destruct El as [Hl1 Hl2].
      specialize (Hl2 100 eq_refl). lia.
    + injection El as <-. lia.
  - injection Ep as <-.
    destruct (Zod.q_limit q) as [m|].
    + apply number_int_accepts in El. destruct El as [Hl1 Hl2].
      specialize (Hl2 100 eq_refl). lia.
    + injection El as <-. lia.
Qed.

(** X9. For every page and limit the schema accepts whose range ends within
    the safe integers, and whatever order the server scans the rows in. When
    the offset [(page - 1) * limit] is not above the number of sales that
    pass the filters given (product id, from, to), listSales answers 200
    with: only such sales, the latest first, at most [limit] of them, namely
    the slice of the matching sales after the offset; and as total the
    number of matching sales. Sales of deleted products are listed like the
    others. When the offset is above the number of matching sales, the range
    is refused and listSales answers ServerError. *)
Theorem list_sales_page (d : db) (s : server Sales.row)
    (query : Api.sales_query) (parsed : Zod.pagination) :
  Zod.paginationSchema (Api.sq_pagination query) = Ok parsed ->
  Zod.page parsed * Zod.limit parsed - 1 <= Js.MAX_SAFE_INTEGER ->
  let count :=
    Z.of_nat (List.length (filter (Api.sales_filter query) (sales d))) in
  let offset := (Zod.page parsed - 1) * Zod.limit parsed in
  (offset <= count ->
   exists resp,
    Api.get_sales d s query = Api.json 200 resp
    /\ PaginatedResponse.total resp = count
    /\ (exists all,
           Permutation all (filter (Api.sales_filter query) (sales d))
           /\ StronglySorted (below Api.by_sold_at_desc) all
           /\ PaginatedResponse.items resp
              = map Api.toSale
                  (firstn (Z.to_nat (Zod.limit parsed))
                     (skipn (Z.to_nat offset) all)))
    /\ (forall item, In item (PaginatedResponse.items resp) ->
          exists s, In s (sales d) /\ item = Api.toSale s
                    /\ (forall i, Api.sq_productId query = Some i ->
                                  Sale.productId item = i)
                    /\ (forall f, Api.sq_from query = Some f ->
                                  f <= Sale.soldAt item)
                    /\ (forall t, Api.sq_to query = Some t ->
                                  Sale.soldAt item <= t))
    /\ StronglySorted (fun a b => Sale.soldAt b <= Sale.soldAt a)
         (PaginatedResponse.items resp)
    /\ Z.of_nat (List.length (PaginatedResponse.items resp))
       <= Zod.limit parsed)
  /\ (count < offset ->
      Api.get_sales d s query = ServerError Pg.range_not_satisfiable).
Proof.
  intros Hq Hsafe count offset.
  destruct (paginationSchema_bounds _ _ Hq) as [_ [Hlim _]].
  set (rows := filter (Api.sales_filter query) (sales d)).
  assert (Hto : offset + Zod.limit parsed - 1 <= Js.MAX_SAFE_INTEGER)
    by (unfold offset; lia).
  split.
  - intros Hoff.
    unfold Api.get_sales, Api.salesQuerySchema. rewrite Hq.
    cbv zeta. fold rows offset.
    rewrite (range_within s Api.by_sold_at_desc offset _ rows Hto)
      by exact Hoff.
    unfold slice.
    replace (offset + Zod.limit parsed - 1 - offset + 1) with (Zod.limit parsed)
      by lia.
    set (page := firstn (Z.to_nat (Zod.limit parsed))
                   (skipn (Z.to_nat offset)
                      (order s Api.by_sold_at_desc rows))).
    assert (Hsorted : StronglySorted (below Api.by_sold_at_desc)
                        (order s Api.by_sold_at_desc rows))
      by (apply order_sorted;
          [apply by_sold_at_desc_total|apply by_sold_at_desc_trans]).
    assert (Hitems : forall r, In r page ->
              In r (sales d) /\ Api.sales_filter query r = true).
    { intros r Hr. unfold page in Hr.
      apply In_firstn, In_skipn, order_In in Hr.
      unfold rows in Hr. now apply filter_In in Hr. }
    eexists. split; [reflexivity|].
    cbn [PaginatedResponse.total PaginatedResponse.items coalesce].
    split; [reflexivity|].
    split; [exists (order s Api.by_sold_at_desc rows); split;
            [apply order_perm|split; [exact Hsorted|reflexivity]]|].
    split; [|split].
    + intros item Hitem. apply in_map_iff in Hitem.
      destruct Hitem as [r [<- Hr]]. destruct (Hitems r Hr) as [Hin Hf].
      exists r. split; [exact Hin|]. split; [reflexivity|].
      unfold Api.sales_filter in Hf. rewrite !andb_true_iff in Hf.
      destruct Hf as [[H1 H2] H3]. simpl. repeat split.
      * intros i Hi. rewrite Hi in H1. now apply N.eqb_eq.
      * intros f Hfrom. rewrite Hfrom in H2. now apply Z.leb_le.
      * intros t Hto'. rewrite Hto' in H3. now apply Z.leb_le.
    + apply StronglySorted_map with (R := below Api.by_sold_at_desc).
      * intros a b Hab. unfold below, Api.by_sold_at_desc in Hab.
        simpl. now apply Z.leb_le.
      * unfold page. now apply StronglySorted_firstn, StronglySorted_skipn.
    + rewrite length_map. unfold page. rewrite length_firstn. lia.
  - intros Hoff.
    unfold Api.get_sales, Api.salesQuerySchema. rewrite Hq.
    cbv zeta. fold rows offset.
    rewrite (range_past s Api.by_sold_at_desc offset _ rows Hto)
      by exact Hoff.
    reflexivity.
Qed.

Lemma list_sales_page_witness :
  (exists resp,
     Api.get_sales Sample.tie Sample.in_place
       (Api.mkSalesQuery (Zod.mkQuery None None) (Some 3%N) None None)
     = Api.json 200 resp
     /\ PaginatedResponse.total resp = 2
     /\ map Sale.id (PaginatedResponse.items resp) = [12%N; 11%N])
  /\ Api.get_sales Sample.tie Sample.in_place
       (Api.mkSalesQuery (page_query 2 20) (Some 3%N) None None)
     = ServerError Pg.range_not_satisfiable.
Proof.
  split.
  - destruct (list_sales_page Sample.tie Sample.in_place
                (Api.mkSalesQuery (Zod.mkQuery None None) (Some 3%N) None None)
                (Zod.mkPagination 1 20) eq_refl)
      as [H _]; [vm_compute; discriminate|].
    destruct H as (resp & E & Htotal & _); [vm_compute; discriminate|].
    exists resp. split; [exact E|]. split; [exact Htotal|].
    vm_compute in E. injection E as <-. reflexivity.
  - destruct (list_sales_page Sample.tie Sample.in_place
                (Api.mkSalesQuery (page_query 2 20) (Some 3%N) None None)
                (Zod.mkPagination 2 20) eq_refl)
      as [_ H]; [vm_compute; discriminate|].
    apply H. reflexivity.
Defined.

(** ** Pages *)

Lemma firstn_add {A : Type} (a b : nat) (l : list A) :
  firstn (a + b) l = firstn a l ++ firstn b (skipn a l).
Proof.
  revert l. induction a as [|a IH]; intros [|x l]; simpl;
    rewrite ?firstn_nil; auto.
  now rewrite IH.
Qed.

Lemma slices_concat {A : Type} (n : nat) (l : list A) (k : nat) :
  List.concat (map (fun j => firstn n (skipn (j * n) l)) (seq 0 k))
  = firstn (k * n) l.
Proof.
  induction k as [|k IH]; [reflexivity|].
  rewrite seq_S, map_app, concat_app, IH. simpl.
  rewrite app_nil_r, <- firstn_add. f_equal. lia.
Qed.

Lemma paginationSchema_page_query (p l : Z) :
  1 <= p -> 1 <= l <= 100 ->
  Zod.paginationSchema (page_query p l) = Ok (Zod.mkPagination p l).
Proof.
  intros Hp Hl. unfold Zod.paginationSchema, page_query, Zod.default.
  cbn [Zod.q_page Zod.q_limit]. unfold Zod.number_int.
  rewrite !is_integer_inject_Z, !Qfloor_inject_Z. simpl negb. cbv iota.
  replace (p <? 1) with false by (symmetry; apply Z.ltb_ge; lia).
  replace (l <? 1) with false by (symmetry; apply Z.ltb_ge; lia).
  replace (100 <? l) with false by (symmetry; apply Z.ltb_ge; lia).
  reflexivity.
Qed.

Lemma slice_offset (j : nat) (l : Z) :
  0 <= l ->
  Z.to_nat ((Z.of_nat (S j) - 1) * l) = (j * Z.to_nat l)%nat.
Proof.
  intros Hl. replace (Z.of_nat (S j) - 1) with (Z.of_nat j) by lia.
  rewrite Z2Nat.inj_mul by lia. now rewrite Nat2Z.id.
Qed.

(** Rows whose keys differ have one sorted order: whatever the scan, the
    sort gives the same list. *)
Lemma sorted_perm_eq {A : Type} (le : A -> A -> bool) (l1 : list A) :
  forall l2,
    (forall a b, In a l1 -> In b l1 ->
                 le a b = true -> le b a = true -> a = b) ->
    Permutation l1 l2 ->
    StronglySorted (below le) l1 -> StronglySorted (below le) l2 ->
    l1 = l2.
Proof.
  induction l1 as [|a l1 IH]; intros l2 Hanti Hperm Hs1 Hs2.
  - apply Permutation_nil in Hperm. now subst.
  - destruct l2 as [|b l2].
    + apply Permutation_sym, Permutation_nil in Hperm. discriminate.
    + assert (Hab : a = b).
      { assert (Ha : In a (b :: l2))
          by (apply (Permutation_in _ Hperm); now left).
        assert (Hb : In b (a :: l1))
          by (apply (Permutation_in _ (Permutation_sym Hperm)); now left).
        destruct Ha as [Ha|Ha]; [now symmetry|].
        destruct Hb as [Hb|Hb]; [exact Hb|].
        inversion Hs1 as [|? ? _ H1]; subst.
        inversion Hs2 as [|? ? _ H2]; subst.
        rewrite Forall_forall in H1, H2.
        apply Hanti; [now left|now right|now apply H1|now apply H2]. }
      subst b. f_equal. apply IH.
      * intros x y Hx Hy. apply Hanti; now right.
      * now apply Permutation_cons_inv in Hperm.
      * now inversion Hs1.
      * now inversion Hs2.
Qed.

Lemma distinct_key_eq {A K : Type} (eqb : K -> K -> bool) (key : A -> K)
    (l : list A) (a b : A) :
  (forall x y, x = y -> eqb x y = true) ->
  distinct eqb (map key l) = true ->
  In a l -> In b l -> key a = key b -> a = b.
Proof.
  intros Heqb. induction l as [|x l IH]; simpl; [tauto|].
  rewrite andb_true_iff, negb_true_iff. intros [Hx Hd] Ha Hb E.
  assert (Hnot : forall y, In y l -> key x <> key y).
  { intros y Hy Exy.
    assert (existsb (eqb (key x)) (map key l) = true); [|congruence].
    apply existsb_exists. exists (key y). split; [now apply in_map|].
    now apply Heqb. }
  destruct Ha as [<-|Ha], Hb as [<-|Hb]; auto.
  - exfalso. now apply (Hnot b Hb).
  - exfalso. apply (Hnot a Ha). now symmetry.
Qed.


(** With no two sales at the same instant, neither does the sort of the
    ledger. *)
Lemma order_by_sold_at_fixed (s : server Sales.row) (rows : list Sales.row) :
  distinct Z.eqb (map Sales.sold_at rows) = true ->
  order s Api.by_sold_at_desc rows = order_by Api.by_sold_at_desc rows.
Proof.
  intros Hd. apply (sorted_perm_eq Api.by_sold_at_desc).
  - intros a b Ha Hb Hab Hba.
    apply order_In in Ha. apply order_In in Hb.
    apply (distinct_key_eq Z.eqb Sales.sold_at rows); auto.
    + intros x y ->. apply Z.eqb_refl.
    + unfold Api.by_sold_at_desc in Hab, Hba.
      apply Z.leb_le in Hab. apply Z.leb_le in Hba. lia.
  - eapply perm_trans; [apply order_perm|].
    apply Permutation_sym, order_by_perm.
  - apply order_sorted;
      [apply by_sold_at_desc_total|apply by_sold_at_desc_trans].
  - apply order_by_sorted;
      [apply by_sold_at_desc_total|apply by_sold_at_desc_trans].
Qed.


Lemma get_sales_page (d : db) (s : server Sales.row) (q : Api.sales_query)
    (p l : Z) :
  Api.sq_pagination q = page_query p l -> 1 <= p -> 1 <= l <= 100 ->
  let rows := filter (Api.sales_filter q) (sales d) in
  (p - 1) * l <= Z.of_nat (List.length rows) ->
  p * l - 1 <= Js.MAX_SAFE_INTEGER ->
  Api.get_sales d s q
  = Api.json 200
      (PaginatedResponse.mk
         (map Api.toSale
            (firstn (Z.to_nat l)
               (skipn (Z.to_nat ((p - 1) * l))
                  (order s Api.by_sold_at_desc rows))))
         (Z.of_nat (List.length rows))).
Proof.
  intros Hq Hp Hl rows Hoff Hsafe. unfold Api.get_sales, Api.salesQuerySchema.
  rewrite Hq, (paginationSchema_page_query p l Hp Hl).
  cbn [Zod.page Zod.limit]. fold rows.
  rewrite (range_within s Api.by_sold_at_desc _ _ rows) by lia.
  unfold slice. cbn [coalesce].
  now replace ((p - 1) * l + l - 1 - (p - 1) * l + 1) with l by lia.
Qed.

Lemma pages_concat {A B : Type} (f : A -> B) (l : Z) (all : list A) (k : nat) :
  0 <= l ->
  List.concat (map (fun j => map f (firstn (Z.to_nat l)
                                 (skipn (Z.to_nat ((Z.of_nat j - 1) * l)) all)))
              (seq 1 k))
  = map f (firstn (k * Z.to_nat l) all).
Proof.
  intros Hl. rewrite <- seq_shift, map_map.
  rewrite <- (slices_concat (Z.to_nat l) all k), concat_map, map_map.
  f_equal. apply map_ext. intros j. now rewrite slice_offset.
Qed.



(** X11. The same for listSales under any filters, when no two matching
    sales were made at the same instant: with a limit from 1 to 100, pages
    1 to k, where page k starts no further than the number of matching
    sales and ends within the safe integers, are all answered 200; put end
    to end they are the first k times limit matching sales, the latest
    first; and once k times limit reaches their number the pages hold each
    matching sale exactly once. *)
Theorem sale_pages_tile (d : db) (s : nat -> server Sales.row)
    (i : option uuid) (from to : option timestamptz) (l : Z) (k : nat) :
  1 <= l <= 100 ->
  let query p := Api.mkSalesQuery (page_query p l) i from to in
  let matching := filter (Api.sales_filter (query 1)) (sales d) in
  distinct Z.eqb (map Sales.sold_at matching) = true ->
  (Z.of_nat k - 1) * l <= Z.of_nat (List.length matching) ->
  Z.of_nat k * l - 1 <= Js.MAX_SAFE_INTEGER ->
  let page j := Api.get_sales d (s j) (query (Z.of_nat j)) in
  let pages := List.concat (map (fun j => items_of (page j)) (seq 1 k)) in
  (forall j, (1 <= j <= k)%nat -> succeeded (page j) = true)
  /\ pages = map Api.toSale
              (firstn (k * Z.to_nat l) (order_by Api.by_sold_at_desc matching))
  /\ (Z.of_nat (List.length matching) <= Z.of_nat k * l ->
      Permutation pages (map Api.toSale matching)).
Proof.
  intros Hl query matching Hd Hoff Hsafe page pages.
  assert (Hpage : forall j, (1 <= j <= k)%nat ->
            page j
            = Api.json 200
                (PaginatedResponse.mk
                   (map Api.toSale
                      (firstn (Z.to_nat l)
                         (skipn (Z.to_nat ((Z.of_nat j - 1) * l))
                            (order_by Api.by_sold_at_desc matching))))
                   (Z.of_nat (List.length matching)))).
  { intros j Hj. unfold page.
    rewrite (get_sales_page d (s j) (query (Z.of_nat j)) (Z.of_nat j) l eq_refl);
      try lia.
    - change (filter (Api.sales_filter (query (Z.of_nat j))) (sales d))
        with matching.
      now rewrite (order_by_sold_at_fixed (s j) matching Hd).
    - change (filter (Api.sales_filter (query (Z.of_nat j))) (sales d))
        with matching. nia.
    - nia. }
  assert (E : pages = map Api.toSale
                        (firstn (k * Z.to_nat l)
                           (order_by Api.by_sold_at_desc matching))).
  { unfold pages. rewrite <- (pages_concat Api.toSale l _ k) by lia.
    f_equal. apply map_ext_in. intros j Hj. apply in_seq in Hj.
    rewrite Hpage by lia. reflexivity. }
  split; [|split; [exact E|]].
  - intros j Hj. now rewrite (Hpage j Hj).
  - intros Hall. rewrite E, firstn_all2.
    + apply Permutation_map, order_by_perm.
    + rewrite order_by_length. nia.
Qed.

Lemma sale_pages_tile_witness :
  let query p := Api.mkSalesQuery (page_query p 1) (Some 3%N) None None in
  map Sale.id
    (List.concat
       (map (fun j => items_of (Api.get_sales Sample.tie Sample.in_place
                                  (query (Z.of_nat j))))
            (seq 1 2)))
  = [12%N; 11%N].
Proof.
  intros query.
  destruct (sale_pages_tile Sample.tie (fun _ => Sample.in_place)
              (Some 3%N) None None 1 2) as (_ & E & _);
    [lia|reflexivity|vm_compute; discriminate|vm_compute; discriminate|].
  apply (f_equal (map Sale.id)) in E.
  etransitivity; [exact E|reflexivity].
Defined.

(** ** The summary *)













(** ** More on best sellers *)

Lemma window_cases (d : db) (from to : option timestamptz) :
  (forall s, In s (sales d) -> BestSellers.in_window from to s = false)
  \/ exists s, In s (sales d) /\ BestSellers.in_window from to s = true.
Proof.
  destruct (existsb (BestSellers.in_window from to) (sales d)) eqn:E.
  - right. apply existsb_exists in E. exact E.
  - left. intros s Hs.
    destruct (BestSellers.in_window from to s) eqn:Hw; [|reflexivity].
    assert (existsb (BestSellers.in_window from to) (sales d) = true)
      by (apply existsb_exists; eauto).
    congruence.
Qed.

(** X14. In a state the schema allows, bestByQuantity is null exactly when
    no sale falls in the window, and so is bestByRevenue: the two are null
    together or not at all. *)
Theorem best_sellers_null_iff (d : db) (from to : option timestamptz) :
  db_ok d ->
  let best := BestSellers.get_best_sellers d from to in
  (BestSellers.bestByQuantity best = None <->
   forall s, In s (sales d) -> BestSellers.in_window from to s = false)
  /\ (BestSellers.bestByRevenue best = None <->
      forall s, In s (sales d) -> BestSellers.in_window from to s = false).
Proof.
  intros Hok best. unfold best, BestSellers.get_best_sellers.
  cbn [BestSellers.bestByQuantity BestSellers.bestByRevenue].
  destruct (window_cases d from to) as [Hnone|(s & Hs & Hw)].
  - rewrite (filtered_sales_none d from to Hnone). simpl. tauto.
  - destruct (aggregated_complete d from to s Hok Hs Hw) as (a0 & Ha0 & _).
    destruct (limit_1_order_by BestSellers.by_quantity _ a0
                by_quantity_total by_quantity_trans Ha0) as (b & E & _).
    destruct (limit_1_order_by BestSellers.by_revenue _ a0
                by_revenue_total by_revenue_trans Ha0) as (b' & E' & _).
    unfold BestSellers.best_by_quantity, BestSellers.best_by_revenue.
    rewrite E, E'. simpl.
    split; split; try discriminate; intros H; specialize (H s Hs); congruence.
Qed.

Lemma best_sellers_null_iff_witness :
  BestSellers.bestByQuantity
    (BestSellers.get_best_sellers Sample.tie (Some 3000) None) = None
  /\ BestSellers.bestByRevenue
       (BestSellers.get_best_sellers Sample.tie None (Some 2000)) <> None.
Proof.
  split.
  - apply (proj1 (best_sellers_null_iff Sample.tie (Some 3000) None eq_refl)).
    intros s [<-|[<-|[<-|[]]]]; reflexivity.
  - intros H.
    apply (proj2 (best_sellers_null_iff Sample.tie None (Some 2000) eq_refl))
      with (s := Sales.mk 10%N 7%N 4 450 2000) in H.
    + discriminate.
    + left. reflexivity.
Defined.

Lemma filtered_sales_rows (d : db) (from_ts to_ts : option timestamptz)
    (r : BestSellers.filtered) :
  In r (BestSellers.filtered_sales d from_ts to_ts) ->
  exists p, In p (products d)
            /\ Products.id p = Sales.product_id (BestSellers.sale r)
            /\ BestSellers.product_name r = Products.name p
            /\ BestSellers.current_price r = Products.price p.
Proof.
  unfold BestSellers.filtered_sales. rewrite in_flat_map.
  intros [s [_ Hr]].
  destruct (BestSellers.in_window from_ts to_ts s); [|destruct Hr].
  apply in_map_iff in Hr. destruct Hr as [p [<- Hp]].
  apply filter_In in Hp. destruct Hp as [Hp Hi]. apply N.eqb_eq in Hi.
  exists p. auto.
Qed.

Lemma fold_left_max_const {A : Type} (le : A -> A -> bool) (x : A)
    (l : list A) :
  (forall y, In y l -> y = x) ->
  fold_left (fun m y => if le m y then y else m) l x = x.
Proof.
  induction l as [|y l IH]; intros H; simpl; [reflexivity|].
  rewrite (H y (or_introl eq_refl)).
  destruct (le x x); apply IH; intros; apply H; now right.
Qed.

Lemma sql_max_const {A : Type} (le : A -> A -> bool) (x : A) (l : list A) :
  l <> [] -> (forall y, In y l -> y = x) -> sql_max le l = Some x.
Proof.
  destruct l as [|y l]; [congruence|]. intros _ H. simpl.
  rewrite (H y (or_introl eq_refl)). f_equal.
  apply fold_left_max_const. intros; apply H; now right.
Qed.

(** A row of [aggregated] shows its product as the table has it now. *)
Lemma aggregated_product (d : db) (from_ts to_ts : option timestamptz)
    (a : BestSellers.aggregate) :
  db_ok d ->
  In a (BestSellers.aggregated (BestSellers.filtered_sales d from_ts to_ts)) ->
  exists p, In p (products d)
            /\ Products.id p = BestSellers.product_id a
            /\ BestSellers.name a = Products.name p
            /\ BestSellers.price a = Products.price p.
Proof.
  intros Hok Ha. pose proof (db_ok_parts d Hok) as (Hu & _).
  apply aggregated_In in Ha. destruct Ha as [k [Hk Ha]].
  apply in_map_iff in Hk. destruct Hk as [r0 [Hk Hr0]].
  destruct (filtered_sales_rows d from_ts to_ts r0 Hr0)
    as (p & Hp & Hid & _).
  rewrite Hk in Hid.
  set (rows := filter (fun r => N.eqb (Sales.product_id (BestSellers.sale r)) k)
                      (BestSellers.filtered_sales d from_ts to_ts)) in *.
  assert (Hrows : forall r, In r rows ->
            BestSellers.product_name r = Products.name p
            /\ BestSellers.current_price r = Products.price p).
  { intros r Hr. apply filter_In in Hr. destruct Hr as [Hr Hrk].
    apply N.eqb_eq in Hrk.
    destruct (filtered_sales_rows d from_ts to_ts r Hr)
      as (p' & Hp' & Hid' & Hn & Hc).
    assert (p' = p) as -> by (eapply unique_key_eq; eauto; congruence).
    auto. }
  assert (Hne : rows <> []).
  { intros E.
    assert (In r0 rows)
      by (apply filter_In; split; [exact Hr0|now apply N.eqb_eq]).
    rewrite E in H. destruct H. }
  unfold BestSellers.aggregate_group in Ha.
  rewrite (sql_max_const text_leb (Products.name p)) in Ha.
  - rewrite (sql_max_const Z.leb (Products.price p)) in Ha.
    + destruct (sql_sum _); [|discriminate].
      destruct (sql_sum _); [|discriminate].
      injection Ha as <-. exists p. simpl. auto.
    + destruct rows; [congruence|discriminate].
    + intros y Hy. apply in_map_iff in Hy. destruct Hy as [r [<- Hr]].
      now apply Hrows.
  - destruct rows; [congruence|discriminate].
  - intros y Hy. apply in_map_iff in Hy. destruct Hy as [r [<- Hr]].
    now apply Hrows.
Qed.

(** X15. In a state the schema allows, a best seller is shown as the
    products table has it when asked: the name and the price of
    bestByQuantity and of bestByRevenue are the current name and price of
    the product with that id, deleted or not, whatever unit prices its sales
    were made at; and the sold quantity and the revenue shown are that
    product's sums over the window. *)
Theorem best_sellers_display (d : db) (from to : option timestamptz) :
  db_ok d ->
  let best := BestSellers.get_best_sellers d from to in
  (forall bq, BestSellers.bestByQuantity best = Some bq ->
     exists p, In p (products d)
               /\ Products.id p = BestSellers.q_productId bq
               /\ BestSellers.q_name bq = Products.name p
               /\ BestSellers.q_price bq = Products.price p
               /\ BestSellers.q_soldQuantity bq
                  = window_quantity d from to (Products.id p))
  /\ (forall br, BestSellers.bestByRevenue best = Some br ->
        exists p, In p (products d)
                  /\ Products.id p = BestSellers.r_productId br
                  /\ BestSellers.r_name br = Products.name p
                  /\ BestSellers.r_price br = Products.price p
                  /\ BestSellers.r_soldQuantity br
                     = window_quantity d from to (Products.id p)
                  /\ BestSellers.r_totalRevenue br
                     = window_revenue d from to (Products.id p)).
Proof.
  intros Hok best. unfold best, BestSellers.get_best_sellers.
  cbn [BestSellers.bestByQuantity BestSellers.bestByRevenue].
  set (agg := BestSellers.aggregated (BestSellers.filtered_sales d from to)).
  split.
  - intros bq Hbq. unfold BestSellers.best_by_quantity, limit in Hbq.
    destruct (order_by BestSellers.by_quantity agg) as [|b rest] eqn:E;
      [discriminate|].
    simpl in Hbq. injection Hbq as <-.
    assert (Hb : In b agg)
      by (apply (order_by_In BestSellers.by_quantity); rewrite E; now left).
    destruct (aggregated_product d from to b Hok Hb) as (p & Hp & Hi & Hn & Hc).
    destruct (aggregated_sums d from to b Hok Hb) as [Hq _].
    exists p. simpl. rewrite Hi. auto.
  - intros br Hbr. unfold BestSellers.best_by_revenue, limit in Hbr.
    destruct (order_by BestSellers.by_revenue agg) as [|b rest] eqn:E;
      [discriminate|].
    simpl in Hbr. injection Hbr as <-.
    assert (Hb : In b agg)
      by (apply (order_by_In BestSellers.by_revenue); rewrite E; now left).
    destruct (aggregated_product d from to b Hok Hb) as (p & Hp & Hi & Hn & Hc).
    destruct (aggregated_sums d from to b Hok Hb) as [Hq Hr].
    exists p. simpl. rewrite Hi. auto 10.
Qed.

Lemma best_sellers_display_witness :
  BestSellers.bestByQuantity
    (BestSellers.get_best_sellers Sample2.repriced None None)
  = Some (BestSellers.mkQuantityJson 2%N "Cinnamon Roll" 350 4)
  /\ exists p, In p (products Sample2.repriced)
               /\ Products.id p = 2%N
               /\ 350 = Products.price p
               /\ 4 = window_quantity Sample2.repriced None None (Products.id p).
Proof.
  split; [reflexivity|].
  destruct (proj1 (best_sellers_display Sample2.repriced None None eq_refl)
              (BestSellers.mkQuantityJson 2%N "Cinnamon Roll" 350 4) eq_refl)
    as (p & Hp & Hi & _ & Hc & Hq).
  exists p. auto.
Defined.

(** ** One product at a time *)

Lemma fetchProductById_frame (d d' : db) (i : uuid) :
  db_ok d -> db_ok d' -> products d' = products d ->
  (forall p, In p (products d) -> Products.id p = i ->
             ledger_quantity d' i = ledger_quantity d i) ->
  Api.fetchProductById d' i = Api.fetchProductById d i.
Proof.
  intros Hok Hok' Hprods Hsame.
  destruct (fetchProductById_cases d i Hok) as [E|(p & Hp & Hl & Hi & E)].
  - rewrite E. apply fetchProductById_none; [exact Hok'|].
    intros p Hp Hi. rewrite Hprods in Hp.
    destruct (live p) eqn:Hl; [|reflexivity].
    subst i. rewrite (fetchProductById_live d p Hok Hp Hl) in E. discriminate.
  - rewrite E. subst i.
    assert (Hp' : In p (products d')) by (now rewrite Hprods).
    rewrite (fetchProductById_live d' p Hok' Hp' Hl).
    unfold read_model_row. rewrite !sold_sum_ledger.
    now rewrite (Hsame p Hp eq_refl).
Qed.

(** X16. In a state the schema allows, a recordSale, whatever its answer,
    changes nothing of any other product: for every id other than the one
    the sale names, getProduct answers afterwards what it answered
    before. *)
Theorem record_sale_frame (d : db) (new_id : uuid) (now : timestamptz)
    (body : SaleCreateRequest.t) (i : uuid) :
  db_ok d -> i <> SaleCreateRequest.productId body ->
  Api.get_product (fst (Api.post_sales d new_id now body)) (uuid_text i)
  = Api.get_product d (uuid_text i).
Proof.
  intros Hok Hi.
  pose proof (post_sales_db_ok d new_id now body Hok) as Hok'.
  destruct (Api.post_sales d new_id now body) as [d' r] eqn:E.
  apply post_sales_inv in E. simpl in *.
  destruct E as [[-> _]|(p & Hp & Hl & Hid & -> & _)]; [reflexivity|].
  unfold Api.get_product. cbn [Pg.eq_id]. rewrite (fetchProductById_frame d _ i Hok Hok' eq_refl);
    [reflexivity|].
  intros p0 _ _. rewrite (ledger_quantity_app (products d)). simpl.
  destruct (N.eqb_spec (Products.id p) i) as [Ei|_]; [congruence|].
  rewrite (ledger_quantity_sales (mkDb (products d) (sales d)) d) by reflexivity.
  lia.
Qed.

Lemma record_sale_frame_witness :
  Api.get_product
    (fst (Api.post_sales Sample2.seeded 500%N 2000
            (SaleCreateRequest.mk 100%N (inject_Z 12)))) (uuid_text 101%N)
  = Api.get_product Sample2.seeded (uuid_text 101%N).
Proof.
  apply record_sale_frame; [reflexivity|discriminate].
Defined.

(** ** Requests that all look up before any inserts *)

Lemma run_app (s1 s2 : list nat) :
  forall (d : db) (ts : list Concurrent.task),
    Concurrent.run d ts (s1 ++ s2)
    = Concurrent.run (fst (Concurrent.run d ts s1))
                     (snd (Concurrent.run d ts s1)) s2.
Proof.
  induction s1 as [|k s1 IH]; intros d ts; simpl; [reflexivity|].
  destruct (nth_error ts k) as [t|]; [|apply IH].
  destruct (Concurrent.advance d t) as [d' t']. apply IH.
Qed.

Lemma run_lookups (product : Product.t) (reqs : list sale_request) :
  forall (d : db) (done : list Concurrent.task),
    (forall r, In r reqs ->
       Api.sales_lookup d (snd r) = Api.Proceed (snd r) product) ->
    Concurrent.run d (done ++ map Concurrent.receive reqs)
      (seq (List.length done) (List.length reqs))
    = (d, done ++ map (look product) reqs).
Proof.
  induction reqs as [|[[i n] body] rest IH]; intros d done Hlook.
  - reflexivity.
  - cbn [List.length seq map Concurrent.receive Concurrent.run look].
    rewrite nth_error_middle. cbn [Concurrent.advance].
    pose proof (Hlook (i, n, body) (or_introl eq_refl)) as H0.
    cbn [snd] in H0. rewrite H0, replace_middle.
    specialize (IH d (done ++ [Concurrent.Looked_up i n body product])).
    rewrite <- app_assoc, length_app in IH. simpl in IH.
    rewrite Nat.add_1_r in IH. rewrite IH.
    + now rewrite <- app_assoc.
    + intros r Hr. apply Hlook. now right.
Qed.

Lemma run_commits (i : uuid) (product : Product.t)
    (stamps : list (uuid * timestamptz)) :
  1 <= Product.remainingStock product ->
  0 <= Product.price product < Pg.numeric_12_2_bound ->
  forall (d : db) (done : list Concurrent.task),
    Pg.has_product d i = true ->
    fresh_ids d stamps = true ->
    exists d',
      Concurrent.run d (done ++ map (look product) (unit_sales i stamps))
        (seq (List.length done) (List.length stamps))
      = (d', done ++ map (unit_sold i (Product.price product)) stamps)
      /\ products d' = products d
      /\ ledger_quantity d' i
         = ledger_quantity d i + Z.of_nat (List.length stamps).
Proof.
  intros Hrem Hprice.
  induction stamps as [|[j t] rest IH]; intros d done Hhas Hfresh.
  - exists d. simpl. repeat split. lia.
  - unfold fresh_ids in Hfresh. simpl in Hfresh.
    rewrite !andb_true_iff, !negb_true_iff in Hfresh.
    destruct Hfresh as [[Hj Hrest] [Hjrest Hu]].
    cbn [List.length seq map unit_sales look fst snd Concurrent.run].
    fold (unit_sales i rest).
    rewrite nth_error_middle.
    assert (E : Api.sales_commit d j t
                  (SaleCreateRequest.mk i (inject_Z 1)) product
                = (mkDb (products d)
                        (sales d ++ [Sales.mk j i 1 (Product.price product) t]),
                   Api.json 201
                     (Api.toSale (Sales.mk j i 1 (Product.price product) t)))).
    { unfold Api.sales_commit.
      cbn [SaleCreateRequest.quantity SaleCreateRequest.productId].
      rewrite Qfloor_inject_Z.
      replace (Product.remainingStock product <? 1) with false
        by (symmetry; apply Z.ltb_ge; lia).
      unfold Pg.insert_sale, Sales.total_amount, Pg.fits.
      cbn [Sales.quantity Sales.unit_price].
      replace (Z.abs (Product.price product) <? Pg.numeric_12_2_bound)
        with true by (symmetry; apply Z.ltb_lt; rewrite Z.abs_eq; lia).
      replace (Z.abs (1 * Product.price product) <? Pg.numeric_14_2_bound)
        with true
        by (symmetry; apply Z.ltb_lt; rewrite Z.abs_eq;
            unfold Pg.numeric_14_2_bound, Pg.numeric_12_2_bound in *; lia).
      replace (0 <=? Product.price product) with true
        by (symmetry; apply Z.leb_le; lia).
      simpl. now rewrite Hj, Hhas. }
    cbn [Concurrent.advance]. rewrite E, replace_middle.
    set (d1 := mkDb (products d)
                 (sales d ++ [Sales.mk j i 1 (Product.price product) t])).
    assert (Hf : fresh_ids d1 rest = true).
    { unfold fresh_ids. rewrite Hu, andb_true_r.
      apply forallb_forall. intros s Hs.
      rewrite forallb_forall in Hrest. specialize (Hrest s Hs).
      apply negb_true_iff in Hrest. unfold d1.
      rewrite has_sale_snoc, Hrest. simpl.
      apply negb_true_iff, N.eqb_neq. intros ->.
      assert (existsb (N.eqb (fst s)) (map fst rest) = true).
      { apply existsb_exists. exists (fst s). split.
        - now apply in_map.
        - apply N.eqb_refl. }
      congruence. }
    destruct (IH d1 (done ++ [unit_sold i (Product.price product) (j, t)])
                Hhas Hf) as (d' & Erun & Hprods & Hledger).
    rewrite <- app_assoc, length_app in Erun. simpl in Erun.
    rewrite Nat.add_1_r in Erun.
    exists d'. split; [|split].
    + etransitivity; [exact Erun|]. now rewrite <- app_assoc.
    + exact Hprods.
    + rewrite Hledger. unfold d1.
      rewrite (ledger_quantity_app (products d)). simpl.
      rewrite N.eqb_refl.
      rewrite (ledger_quantity_sales (mkDb (products d) (sales d)) d)
        by reflexivity.
      change (List.length ((j, t) :: rest)) with (S (List.length rest)). lia.
Qed.

Lemma count_unit_sold (i : uuid) (price : Z)
    (stamps : list (uuid * timestamptz)) :
  Concurrent.count Concurrent.task_succeeded (map (unit_sold i price) stamps)
  = Z.of_nat (List.length stamps)
  /\ Concurrent.count Concurrent.task_insufficient
       (map (unit_sold i price) stamps) = 0.
Proof.
  unfold Concurrent.count.
  induction stamps as [|s rest [IH1 IH2]]; simpl; [auto|].
  split; [|exact IH2].
  change (List.length (unit_sold i price s
                       :: filter Concurrent.task_succeeded
                            (map (unit_sold i price) rest)))
    with (S (List.length (filter Concurrent.task_succeeded
                            (map (unit_sold i price) rest)))).
  lia.
Qed.

(** X17. In a state the schema allows, for a listed product with at least
    one unit remaining, when N requests in flight for one unit each all
    look the product up before any of them inserts, every one of them
    succeeds and none is answered InsufficientStock, however large N is;
    the remaining stock ends as what it was less N, below zero as soon as N
    exceeds it. *)
Theorem lookups_first_all_admitted (d : db) (p : Products.row)
    (stamps : list (uuid * timestamptz)) :
  db_ok d -> In p (products d) -> live p = true ->
  1 <= Products.total_stock p - ledger_quantity d (Products.id p) ->
  fresh_ids d stamps = true ->
  let N := Z.of_nat (List.length stamps) in
  let out :=
    Concurrent.run d
      (map Concurrent.receive (unit_sales (Products.id p) stamps))
      (lookups_first (List.length stamps)) in
  List.length (snd out) = List.length stamps
  /\ Concurrent.count Concurrent.task_succeeded (snd out) = N
  /\ Concurrent.count Concurrent.task_insufficient (snd out) = 0
  /\ ReadModel.remaining_stock (read_model_row (fst out) p)
     = Products.total_stock p - ledger_quantity d (Products.id p) - N.
Proof.
  intros Hok Hp Hl Hrem Hfresh N out.
  set (product := Api.toProduct (read_model_row d p)).
  set (reqs := unit_sales (Products.id p) stamps).
  assert (Hlen : List.length reqs = List.length stamps)
    by (unfold reqs, unit_sales; apply length_map).
  pose proof (db_ok_parts d Hok) as (_ & _ & Hprod & _).
  pose proof (product_okb_parts p (Hprod p Hp)) as [Hprice _].
  assert (Hlook : forall r, In r reqs ->
            Api.sales_lookup d (snd r) = Api.Proceed (snd r) product).
  { intros r Hr. unfold reqs, unit_sales in Hr. apply in_map_iff in Hr.
    destruct Hr as [s [<- _]]. cbn [snd].
    unfold Api.sales_lookup, Api.saleCreateSchema.
    cbn [SaleCreateRequest.quantity SaleCreateRequest.productId].
    rewrite (number_int_positive _ 1) by lia.
    cbn [SaleCreateRequest.quantity SaleCreateRequest.productId].
    now rewrite (fetchProductById_live d p Hok Hp Hl). }
  pose proof (run_lookups product reqs d [] Hlook) as E1.
  simpl in E1. rewrite Hlen in E1.
  destruct (run_commits (Products.id p) product stamps) with (d := d)
    (done := @nil Concurrent.task) as (d' & E2 & Hprods & Hledger).
  { unfold product. simpl. rewrite sold_sum_ledger. lia. }
  { exact Hprice. }
  { now apply has_product_In. }
  { exact Hfresh. }
  simpl in E2. fold reqs in E2.
  assert (Eout : out = (d', map (unit_sold (Products.id p)
                                   (Product.price product)) stamps)).
  { unfold out, lookups_first. fold reqs. rewrite run_app, E1. exact E2. }
  rewrite Eout. cbn [fst snd].
  destruct (count_unit_sold (Products.id p) (Product.price product) stamps)
    as [C1 C2].
  split; [now rewrite length_map|]. split; [exact C1|]. split; [exact C2|].
  rewrite remaining_stock_row, Hledger. fold N. lia.
Qed.

Lemma lookups_first_all_admitted_witness :
  let p := Products.mk 1%N "Chocolate Croissant" 325 1 None 1000 1000 None in
  let out :=
    Concurrent.run Sample.last_unit
      (map Concurrent.receive (unit_sales 1%N Sample2.stamps3))
      (lookups_first 3) in
  List.length (snd out) = 3%nat
  /\ Concurrent.count Concurrent.task_succeeded (snd out) = 3
  /\ Concurrent.count Concurrent.task_insufficient (snd out) = 0
  /\ ReadModel.remaining_stock (read_model_row (fst out) p) = 1 - 0 - 3.
Proof.
  intros p.
  apply (lookups_first_all_admitted Sample.last_unit p Sample2.stamps3);
    try reflexivity; try (left; reflexivity); vm_compute; discriminate.
Defined.

(** ** The seed script *)

Lemma seed_products_names (base : string) :
  map Seed.name (Seed.products base) = seed_names.
Proof. reflexivity. Qed.

Lemma has_select_names (d : db) (names : list string) (n : string) :
  Seed.has (Seed.select_names d names) n = Seed.has names n && named d n.
Proof.
  unfold Seed.select_names, named.
  induction (products d) as [|p ps IH]; cbn [filter map existsb].
  - now rewrite andb_false_r.
  - destruct (String.eqb_spec (Products.name p) n) as [E|E].
    + subst n. destruct (Seed.has names (Products.name p)) eqn:Hn.
      * unfold Seed.has. cbn [map existsb]. now rewrite String.eqb_refl.
      * rewrite IH. reflexivity.
    + rewrite orb_false_l.
      destruct (Seed.has names (Products.name p)); [|exact IH].
      unfold Seed.has in *. cbn [map existsb].
      destruct (String.eqb_spec n (Products.name p)) as [E'|_];
        [congruence|]. exact IH.
Qed.

(** The rows [main] sets out to insert are the seed products whose name the
    table lacks. *)
Lemma seed_toInsert (d : db) (env : option string) :
  let products := Seed.products (Seed.imageBase env) in
  filter (fun p => negb (Seed.has (Seed.select_names d (map Seed.name products))
                                  (Seed.name p))) products
  = seed_missing d env.
Proof.
  cbv zeta. unfold seed_missing. apply filter_ext_in. intros r Hr.
  rewrite has_select_names.
  replace (Seed.has _ (Seed.name r)) with true; [reflexivity|].
  symmetry. apply existsb_exists. exists (Seed.name r). split.
  - now apply in_map.
  - apply String.eqb_refl.
Qed.

Lemma insert_product_inv (d d' : db) (i : uuid) (now : timestamptz)
    (n : string) (price : Q) (stock : Z) (image : option string) :
  Pg.insert_product d i now n price stock image = Ok d' ->
  d' = mkDb (products d
             ++ [Products.mk i n (Pg.round_scale2 price) stock image
                             now now None])
            (sales d).
Proof.
  unfold Pg.insert_product.
  destruct (negb (_ && _)); [discriminate|].
  destruct (negb ((0 <=? _) && _)); [discriminate|].
  destruct (Pg.has_product d i); [discriminate|].
  now intros [= <-].
Qed.

Lemma insert_rows_inv (draw : nat -> uuid) (now : timestamptz)
    (rows : list Seed.product) :
  forall (d d' : db) (k : nat),
    Seed.insert_rows d draw k now rows = Ok d' ->
    products d' = products d ++ seed_stored_from draw now k rows
    /\ sales d' = sales d.
Proof.
  induction rows as [|r rows IH]; intros d d' k; simpl.
  - intros [= <-]. now rewrite app_nil_r.
  - destruct (Pg.insert_product _ _ _ _ _ _ _) as [d1|e] eqn:E; [|discriminate].
    apply insert_product_inv in E. intros H. apply IH in H.
    destruct H as [Hp Hs]. rewrite Hp, Hs, E. simpl.
    now rewrite <- app_assoc.
Qed.

Lemma named_app (ps ps' : list Products.row) (ss ss' : list Sales.row)
    (n : string) :
  named (mkDb (ps ++ ps') ss) n = named (mkDb ps ss') n || named (mkDb ps' ss) n.
Proof. unfold named. simpl. apply existsb_app. Qed.

Lemma named_stored (draw : nat -> uuid) (now : timestamptz)
    (rows : list Seed.product) (r : Seed.product) :
  forall k ss, In r rows ->
    named (mkDb (seed_stored_from draw now k rows) ss) (Seed.name r) = true.
Proof.
  induction rows as [|x rows IH]; intros k ss Hin; [destruct Hin|].
  destruct Hin as [->|Hin]; unfold named; simpl.
  - now rewrite String.eqb_refl.
  - apply orb_true_iff. right. apply (IH (S k) ss Hin).
Qed.

(** After a run that did not exit, every seed name is in the table. *)
Lemma seed_main_names (d : db) (draw : nat -> uuid) (now : timestamptz)
    (env : option string) :
  (forall e, snd (Seed.main d draw now env) <> Seed.Exit1 e) ->
  forall r base, In r (Seed.products base) ->
    named (fst (Seed.main d draw now env)) (Seed.name r) = true.
Proof.
  intros Hrun r base Hr.
  assert (Hn : In (Seed.name r) seed_names)
    by (rewrite <- (seed_products_names base); now apply in_map).
  rewrite <- (seed_products_names (Seed.imageBase env)) in Hn.
  apply in_map_iff in Hn. destruct Hn as [r0 [Hname Hr0]].
  rewrite <- Hname.
  unfold Seed.main in *. cbv zeta in *. rewrite seed_toInsert in *.
  destruct (named d (Seed.name r0)) eqn:Hd.
  - destruct (seed_missing d env) as [|x l] eqn:Em; [exact Hd|].
    destruct (Seed.insert_rows d draw 0 now (x :: l)) as [d'|e] eqn:Ei;
      [|exact Hd].
    apply insert_rows_inv in Ei. destruct Ei as [Hp _].
    cbn [fst]. unfold named. rewrite Hp, existsb_app.
    unfold named in Hd. now rewrite Hd.
  - assert (Hmiss : In r0 (seed_missing d env))
      by (apply filter_In; split; [exact Hr0|now rewrite Hd]).
    destruct (seed_missing d env) as [|x l] eqn:Em; [destruct Hmiss|].
    destruct (Seed.insert_rows d draw 0 now (x :: l)) as [d'|e] eqn:Ei.
    + apply insert_rows_inv in Ei. destruct Ei as [Hp _].
      cbn [fst]. unfold named. rewrite Hp, existsb_app.
      apply orb_true_iff. right.
      apply (named_stored draw now (x :: l) r0 0%nat (sales d) Hmiss).
    + exfalso. apply (Hrun e). reflexivity.
Qed.

Lemma seed_missing_none (d : db) (env : option string) :
  (forall r, In r (Seed.products (Seed.imageBase env)) ->
             named d (Seed.name r) = true) ->
  seed_missing d env = [].
Proof.
  intros H. unfold seed_missing.
  induction (Seed.products (Seed.imageBase env)) as [|r l IH];
    [reflexivity|].
  simpl. rewrite (H r (or_introl eq_refl)). simpl.
  apply IH. intros; apply H; now right.
Qed.

(** X18. Seeding is idempotent: after a run of the seed script that did not
    exit with an error, every seed name is in the table, and a further run,
    whatever ids, time and image base it is given, inserts nothing and
    reports that the seed was skipped. *)
Theorem seed_idempotent (d : db) (draw draw' : nat -> uuid)
    (now now' : timestamptz) (env env' : option string) :
  (forall e, snd (Seed.main d draw now env) <> Seed.Exit1 e) ->
  let d1 := fst (Seed.main d draw now env) in
  (forall n, In n seed_names -> named d1 n = true)
  /\ Seed.main d1 draw' now' env' = (d1, Seed.Skipped).
Proof.
  intros Hrun d1. split.
  - intros n Hn. rewrite <- (seed_products_names EmptyString) in Hn.
    apply in_map_iff in Hn. destruct Hn as [r [<- Hr]].
    now apply (seed_main_names d draw now env Hrun r EmptyString).
  - unfold Seed.main at 1. cbv zeta. rewrite seed_toInsert.
    rewrite seed_missing_none; [reflexivity|].
    intros r Hr.
    exact (seed_main_names d draw now env Hrun r (Seed.imageBase env') Hr).
Qed.

Lemma seed_idempotent_witness :
  (forall n, In n seed_names -> named Sample2.seeded n = true)
  /\ Seed.main Sample2.seeded (fun k => N.of_nat (900 + k)) 7000
       (Some "img/"%string)
     = (Sample2.seeded, Seed.Skipped).
Proof.
  apply (seed_idempotent empty_db Sample2.draw (fun k => N.of_nat (900 + k))
           1000 7000 None (Some "img/"%string)).
  intros e. vm_compute. discriminate.
Defined.

Lemma seed_row_valid (base : string) (r : Seed.product) :
  In r (Seed.products base) ->
  Pg.fits Pg.numeric_12_2_bound (Pg.round_scale2 (Seed.price r))
    && Pg.in_int4 (Seed.total_stock r) = true
  /\ (0 <=? Pg.round_scale2 (Seed.price r)) && (0 <=? Seed.total_stock r)
     = true.
Proof.
  intros H. unfold Seed.products in H.
  repeat (destruct H as [<-|H]; [split; vm_compute; reflexivity|]).
  destruct H.
Qed.

Lemma has_product_snoc (d : db) (row : Products.row) (i : uuid) :
  Pg.has_product (mkDb (products d ++ [row]) (sales d)) i
  = Pg.has_product d i || N.eqb (Products.id row) i.
Proof.
  unfold Pg.has_product. simpl. rewrite existsb_app. simpl.
  now rewrite orb_false_r.
Qed.

Lemma uniqueb_draws (draw : nat -> uuid) :
  forall (n k : nat),
    uniqueb (map draw (seq k n)) = true ->
    forall j j', (k <= j)%nat -> (j < j')%nat -> (j' < k + n)%nat ->
                 draw j <> draw j'.
Proof.
  induction n as [|n IH]; intros k U j j' Hk Hj Hn; [lia|].
  simpl in U. apply andb_true_iff in U. destruct U as [U1 U2].
  destruct (Nat.eq_dec j k) as [->|Hne].
  - intros E. apply negb_true_iff in U1.
    assert (existsb (N.eqb (draw k)) (map draw (seq (S k) n)) = true);
      [|congruence].
    apply existsb_exists. exists (draw j'). split.
    + apply in_map. apply in_seq. lia.
    + rewrite E. apply N.eqb_refl.
  - apply (IH (S k) U2); lia.
Qed.

Lemma insert_rows_fresh (draw : nat -> uuid) (now : timestamptz)
    (base : string) (rows : list Seed.product) :
  forall (d : db) (k : nat),
    (forall r, In r rows -> In r (Seed.products base)) ->
    (forall j, (k <= j < k + List.length rows)%nat ->
               Pg.has_product d (draw j) = false) ->
    (forall j j', (k <= j)%nat -> (j < j')%nat ->
                  (j' < k + List.length rows)%nat -> draw j <> draw j') ->
    Seed.insert_rows d draw k now rows
    = Ok (mkDb (products d ++ seed_stored_from draw now k rows) (sales d)).
Proof.
  induction rows as [|r rows IH]; intros d k Hin Hnew Hdiff.
  - simpl. rewrite app_nil_r. now destruct d.
  - cbn [Seed.insert_rows seed_stored_from].
    destruct (seed_row_valid base r (Hin r (or_introl eq_refl))) as [V1 V2].
    unfold Pg.insert_product. rewrite V1, V2. cbn [negb].
    rewrite (Hnew k) by (simpl; lia).
    rewrite IH.
    + cbn [products sales]. now rewrite <- app_assoc.
    + intros; apply Hin; now right.
    + intros j Hj. rewrite has_product_snoc.
      rewrite (Hnew j) by (simpl in *; lia). cbn [Products.id orb].
      apply N.eqb_neq. apply (Hdiff k j); simpl; lia.
    + intros j j' H1 H2 H3. apply Hdiff; simpl; lia.
Qed.

Lemma filter_length_bound {A : Type} (f : A -> bool) (l : list A) :
  (List.length (filter f l) <= List.length l)%nat.
Proof.
  induction l as [|x l IH]; simpl; [lia|].
  destruct (f x); simpl; lia.
Qed.

(** X19. What a seed run adds.  When the first five ids the database draws
    are new to the table and differ from one another, and some seed name is
    in no row of the table (deleted rows count as present), the seed script
    does not exit with an error: it appends one row for each missing seed
    product, in the order of the constant, with the price rounded to
    hundredths, leaves every existing product and every sale as it was, and
    reports the number of rows added. *)
Theorem seed_adds_missing (d : db) (draw : nat -> uuid) (now : timestamptz)
    (env : option string) :
  fresh_draws d draw = true ->
  seed_missing d env <> [] ->
  Seed.main d draw now env
  = (mkDb (products d ++ seed_stored_from draw now 0 (seed_missing d env))
          (sales d),
     Seed.Seeded (List.length (seed_missing d env))).
Proof.
  intros Hfresh Hmiss. unfold fresh_draws in Hfresh.
  apply andb_true_iff in Hfresh. destruct Hfresh as [Hnew Huniq].
  assert (Hlen : (List.length (seed_missing d env) <= 5)%nat)
    by (unfold seed_missing; etransitivity;
        [apply filter_length_bound|reflexivity]).
  unfold Seed.main. cbv zeta. rewrite seed_toInsert.
  rewrite (insert_rows_fresh draw now (Seed.imageBase env)).
  - destruct (seed_missing d env); [now destruct Hmiss|reflexivity].
  - intros r Hr. unfold seed_missing in Hr. now apply filter_In in Hr.
  - intros j Hj. apply negb_true_iff.
    apply (proj1 (forallb_forall _ _) Hnew j). apply in_seq. lia.
  - intros j j' H1 H2 H3. apply (uniqueb_draws draw 5 0 Huniq); lia.
Qed.

Lemma seed_adds_missing_witness :
  Seed.main Sample2.repriced Sample2.draw 3000 None
  = (mkDb (products Sample2.repriced
           ++ seed_stored_from Sample2.draw 3000 0
                (seed_missing Sample2.repriced None))
          (sales Sample2.repriced),
     Seed.Seeded (List.length (seed_missing Sample2.repriced None))).
Proof.
  apply (seed_adds_missing Sample2.repriced Sample2.draw 3000 None).
  - reflexivity.
  - vm_compute. discriminate.
Defined.
